(** * eosio-contract-api: the AtomicMarket filler handler, the deserializer
      worker, the market statistics view and the single-entity HTTP routes.

    Shallow embedding of the TypeScript and SQL sources, followed by the
    properties established about them.  Asynchronous code is embedded in
    direct style: the handler runs on one cooperative thread, its queues have
    concurrency 1, and every effect that leaves the process (database
    statement, log line, redis publish, commit) is recorded in an event
    trace, in the order in which it happens. *)

From Stdlib Require Import ZArith List String Ascii Bool Lia Sorted Permutation.
From Stdlib Require Import DecimalString.
From Stdlib.Init Require Import Byte.
From Stdlib.Strings Require Byte.
Import ListNotations.
Open Scope string_scope.
Open Scope list_scope.
Open Scope Z_scope.

Set Warnings "-register-all".

(** ** JSON values (payloads, rows, request bodies) *)

Inductive json : Type :=
| JNull
| JBool (b : bool)
| JNum (n : Z)
| JStr (s : string)
| JArr (items : list json)
| JObj (fields : list (string * json)).

(** A printer of JSON values, used where an example needs a concrete
    [JSON.stringify] (strings are printed without escapes). *)
Definition dquote : string := String "034"%char EmptyString.

Fixpoint print_json (v : json) : string :=
  match v with
  | JNull => "null"
  | JBool true => "true"
  | JBool false => "false"
  | JNum n => NilZero.string_of_int (Z.to_int n)
  | JStr s => dquote ++ s ++ dquote
  | JArr items =>
      "[" ++ (fix go (l : list json) : string :=
                match l with
                | [] => ""
                | [x] => print_json x
                | x :: r => print_json x ++ "," ++ go r
                end) items ++ "]"
  | JObj fields =>
      "{" ++ (fix go (l : list (string * json)) : string :=
                match l with
                | [] => ""
                | [(k, x)] => dquote ++ k ++ dquote ++ ":" ++ print_json x
                | (k, x) :: r => dquote ++ k ++ dquote ++ ":" ++ print_json x ++ "," ++ go r
                end) fields ++ "}"
  end%string.

(** ** The p-queue package *)

(** Modelled from the spec: the third-party [p-queue] package is not part of
    the sources; section 4.E describes the queue the handler relies on ("one
    serial queue (concurrency = 1) paused by default ... Higher priority runs
    first; within equal priority, FIFO").  [enqueue] is the package's priority
    insertion: a new element goes behind every element whose priority is
    greater than or equal to its own (the package finds that place by binary
    search in its queue, which is sorted; here the queue is walked from the
    front). *)
Module PQueue.

Record t (A : Type) : Type := mk { isPaused : bool; queue : list (Z * A) }.
Arguments mk {A} _ _.
Arguments isPaused {A} _.
Arguments queue {A} _.

(** [new PQueue({concurrency: 1, autoStart: false})] *)
Definition create {A : Type} : t A := mk true [].

Definition pause {A : Type} (q : t A) : t A := mk true (queue q).

Definition start {A : Type} (q : t A) : t A := mk false (queue q).

Fixpoint enqueue {A : Type} (priority : Z) (run : A) (l : list (Z * A)) : list (Z * A) :=
  match l with
  | [] => [(priority, run)]
  | (p, r) :: rest =>
      if p <? priority then (priority, run) :: (p, r) :: rest
      else (p, r) :: enqueue priority run rest
  end.

(** [queue.add(run, {priority})] on a paused queue: the job is only stored.
    The handler adds to its queues while they are paused (they are started
    inside [onBlockComplete] and [onCommit] only, around the drain). *)
Definition add {A : Type} (q : t A) (run : A) (priority : Z) : t A :=
  mk (isPaused q) (enqueue priority run (queue q)).

(** The queue once its pending jobs have all been taken out. *)
Definition emptied {A : Type} (q : t A) : t A := mk (isPaused q) [].

(** Vocabulary for the order of a queue: [prio_ge a b] when [a] may stand
    before [b]; the jobs of one priority, in queue order; the queue obtained
    by adding the jobs of [js], one after the other, to [q]. *)
Definition prio_ge {A : Type} (a b : Z * A) : Prop := fst b <= fst a.

Definition by_priority {A : Type} (p : Z) (l : list (Z * A)) : list (Z * A) :=
  filter (fun x => fst x =? p) l.

Definition build {A : Type} (q : list (Z * A)) (js : list (Z * A)) : list (Z * A) :=
  fold_left (fun acc x => enqueue (fst x) (snd x) acc) js q.

End PQueue.

(** ** The AtomicMarket handler (src/unnamed/part_000) *)

Module SaleState.
Inductive t : Set := WAITING | LISTED | CANCELED | SOLD.
Definition valueOf (s : t) : Z :=
  match s with WAITING => 0 | LISTED => 1 | CANCELED => 2 | SOLD => 3 end.
End SaleState.

Module AuctionState.
Inductive t : Set := WAITING | LISTED | CANCELED.
Definition valueOf (s : t) : Z :=
  match s with WAITING => 0 | LISTED => 1 | CANCELED => 2 end.
End AuctionState.

Module JobPriority.
Inductive t : Set :=
| TABLE_BALANCES | TABLE_MARKETPLACES | TABLE_CONFIG
| ACTION_CREATE_SALE | ACTION_CREATE_AUCTION
| TABLE_AUCTIONS | TABLE_SALES
| ACTION_UPDATE_SALE | ACTION_UPDATE_AUCTION.
Definition valueOf (p : t) : Z :=
  match p with
  | TABLE_BALANCES => 90 | TABLE_MARKETPLACES => 90 | TABLE_CONFIG => 90
  | ACTION_CREATE_SALE => 80 | ACTION_CREATE_AUCTION => 80
  | TABLE_AUCTIONS => 70 | TABLE_SALES => 70
  | ACTION_UPDATE_SALE => 50 | ACTION_UPDATE_AUCTION => 50
  end.
End JobPriority.

Module Market.

Record AtomicMarketArgs : Type := {
  atomicmarket_account : string;
  atomicassets_account : string;
  delphioracle_account : string
}.

(** The two fields of [ShipBlock] the handler reads. *)
Record ShipBlock : Type := { block_num : Z; block_id : string }.

(** The two fields of [ContractDBTransaction] the handler reads. *)
Record ContractDBTransaction : Type := {
  currentBlock : Z;
  lastIrreversibleBlock : Z
}.

(** The body [fn] of an update job.  A job is a closure of the action and
    table handlers; what it can do to the outside is: run statements on the
    block's database transaction, call [pushNotificiation] on the handler, and
    throw.  The body is the sequence of those steps.  (A body that itself
    calls [addUpdateJob] while the queue drains is not covered.) *)
Inductive stmt : Type :=
| DbWrite (sql : string)
| Notify (block : ShipBlock) (tx : json) (prefix name : string) (data : json) (stack : string)
| Throw (e : string).

(** The closure handed to [updateQueue.add]: [fn] and the stack trace taken
    by [getStackTrace()] when the job was enqueued. *)
Record UpdateJob : Type := { u_fn : list stmt; u_trace : string }.

(** The closure handed to [notificationQueue.add]: the captured arguments of
    [pushNotificiation] and the stack trace. *)
Record NotificationJob : Type := {
  n_block : ShipBlock;
  n_tx : json;
  n_prefix : string;
  n_name : string;
  n_data : json;
  n_trace : string
}.

(** The promise returned by [queue.add], named after the job it settles. *)
Inductive promise (A : Type) : Type := PromiseOf (job : A).
Arguments PromiseOf {A} _.

Definition job_of {A : Type} (p : promise A) : A :=
  match p with PromiseOf j => j end.

Record AtomicMarketHandler : Type := {
  chain_name : string;            (* this.connection.chain.name *)
  reader_name : string;           (* this.reader.name *)
  args : AtomicMarketArgs;
  reversible : bool;
  updateQueue : PQueue.t UpdateJob;
  updateJobs : list (promise UpdateJob);
  notificationQueue : PQueue.t NotificationJob;
  notificationJobs : list (promise NotificationJob)
}.

Definition set_reversible (h : AtomicMarketHandler) (r : bool) : AtomicMarketHandler :=
  {| chain_name := chain_name h; reader_name := reader_name h; args := args h;
     reversible := r;
     updateQueue := updateQueue h; updateJobs := updateJobs h;
     notificationQueue := notificationQueue h; notificationJobs := notificationJobs h |}.

Definition set_update (h : AtomicMarketHandler) (q : PQueue.t UpdateJob)
    (js : list (promise UpdateJob)) : AtomicMarketHandler :=
  {| chain_name := chain_name h; reader_name := reader_name h; args := args h;
     reversible := reversible h;
     updateQueue := q; updateJobs := js;
     notificationQueue := notificationQueue h; notificationJobs := notificationJobs h |}.

Definition set_notification (h : AtomicMarketHandler) (q : PQueue.t NotificationJob)
    (js : list (promise NotificationJob)) : AtomicMarketHandler :=
  {| chain_name := chain_name h; reader_name := reader_name h; args := args h;
     reversible := reversible h;
     updateQueue := updateQueue h; updateJobs := updateJobs h;
     notificationQueue := q; notificationJobs := js |}.

(** Everything the handler does that is visible outside of it. *)
Inductive event : Type :=
| EvJobStart (priority : Z) (job : UpdateJob)  (* the update queue starts a job *)
| EvJobEnd (ok : bool)                         (* the job's promise settles *)
| EvDb (sql : string)
| EvLogError (msg : string)
| EvLogWarn (msg : string) (stack : string)
| EvPublish (channel message : string)         (* ioRedis.publish is called *)
| EvCommit (block : Z)
| EvAbort (block : Z).

(** How a hook ends: it returns, or it throws. *)
Inductive outcome : Type :=
| Returned (h : AtomicMarketHandler) (tr : list event)
| Threw (e : string) (h : AtomicMarketHandler) (tr : list event).

(** The constructor: both queues are created with [autoStart: false] and
    paused, the job lists are empty, [reversible = false]. *)
Definition constructor (chain reader : string) (a : AtomicMarketArgs) : AtomicMarketHandler :=
  {| chain_name := chain; reader_name := reader; args := a;
     reversible := false;
     updateQueue := PQueue.pause PQueue.create; updateJobs := [];
     notificationQueue := PQueue.pause PQueue.create; notificationJobs := [] |}.

Definition addUpdateJob (h : AtomicMarketHandler) (fn : list stmt)
    (priority : JobPriority.t) (stack : string) : AtomicMarketHandler :=
  let job := {| u_fn := fn; u_trace := stack |} in
  set_update h
    (PQueue.add (updateQueue h) job (JobPriority.valueOf priority))
    (updateJobs h ++ [PromiseOf job]).

(** [notificationQueue.add(job)] carries no options: priority 0. *)
Definition pushNotificiation (h : AtomicMarketHandler) (block : ShipBlock) (tx : json)
    (prefix name : string) (data : json) (stack : string) : AtomicMarketHandler :=
  if negb (reversible h) then h
  else
    let job := {| n_block := block; n_tx := tx; n_prefix := prefix;
                  n_name := name; n_data := data; n_trace := stack |} in
    set_notification h
      (PQueue.add (notificationQueue h) job 0)
      (notificationJobs h ++ [PromiseOf job]).

Section Connections.

(** [JSON.stringify], and whether [redis.ioRedis.publish] succeeds for a
    channel and a message (it throws otherwise). *)
Variable JSON_stringify : json -> string.
Variable redis_publish : string -> string -> bool.

Definition channelName (h : AtomicMarketHandler) (prefix : string) : string :=
  String.concat ":"
    ["eosio-contract-api"; chain_name h; reader_name h;
     "atomicmarket"; atomicmarket_account (args h); prefix].

Definition payload (job : NotificationJob) : json :=
  JObj [("transaction", n_tx job);
        ("block", JObj [("block_num", JNum (block_num (n_block job)));
                        ("block_id", JStr (block_id (n_block job)))]);
        ("action", JStr (n_name job));
        ("data", n_data job)].

(** The body of a notification job; a failing publish is caught and logged. *)
Definition run_notification (h : AtomicMarketHandler) (job : NotificationJob) : list event :=
  let channel := channelName h (n_prefix job) in
  let message := JSON_stringify (payload job) in
  if redis_publish channel message then [EvPublish channel message]
  else [EvPublish channel message;
        EvLogWarn "Error while pushing notification" (n_trace job)].

Definition onCommit (h : AtomicMarketHandler) : AtomicMarketHandler * list event :=
  let q := PQueue.start (notificationQueue h) in
  let tr := flat_map (fun pj => run_notification h (snd pj)) (PQueue.queue q) in
  (set_notification h (PQueue.pause (PQueue.emptied q)) [], tr).

Definition onBlockStart (h : AtomicMarketHandler) : AtomicMarketHandler := h.

(** [await fn()]: the steps of the body, up to the first throw. *)
Fixpoint run_fn (h : AtomicMarketHandler) (ss : list stmt)
    : AtomicMarketHandler * list event * option string :=
  match ss with
  | [] => (h, [], None)
  | DbWrite sql :: rest =>
      let '(h', tr, r) := run_fn h rest in (h', EvDb sql :: tr, r)
  | Notify b tx p n d st :: rest =>
      run_fn (pushNotificiation h b tx p n d st) rest
  | Throw e :: _ => (h, [], Some e)
  end.

(** The wrapper of [addUpdateJob]: errors are logged with the recorded stack
    trace and thrown again. *)
Definition run_update_job (h : AtomicMarketHandler) (priority : Z) (job : UpdateJob)
    : AtomicMarketHandler * list event * option string :=
  let '(h', tr, r) := run_fn h (u_fn job) in
  match r with
  | None => (h', EvJobStart priority job :: tr ++ [EvJobEnd true], None)
  | Some e =>
      (h', EvJobStart priority job :: tr
             ++ [EvLogError e; EvLogError (u_trace job); EvJobEnd false], Some e)
  end.

(** The started update queue: one job after the other from the front, until
    the queue is empty.  A job that throws rejects its own promise only: the
    queue takes the next job right after the rejection and runs it.  [drain]
    gives the handler, the trace and the error of the first job that threw
    (if any). *)
Fixpoint drain (h : AtomicMarketHandler) (q : list (Z * UpdateJob))
    : AtomicMarketHandler * list event * option string :=
  match q with
  | [] => (h, [], None)
  | (p, job) :: rest =>
      let '(h1, tr1, r) := run_update_job h p job in
      let '(h2, tr2, r2) := drain h1 rest in
      (h2, tr1 ++ tr2, match r with Some e => Some e | None => r2 end)
  end.

(** [await Promise.all(this.updateJobs)] rejects with the error of the first
    job that threw; [pause()] and the reset of the list are then not reached
    and the hook throws.  The queue is still started: the jobs behind the
    failed one are taken out and run all the same, while the hook has already
    thrown.  The handler and the trace of [Threw] are those of the moment the
    queue has run empty: the queue is empty and not paused, the promise list
    is as it was.  (The promises of the list are read as those of the queued
    jobs, [promises_queued]; a promise that an earlier block has left
    rejected in the list would make the hook throw that error again.) *)
Definition onBlockComplete (h : AtomicMarketHandler) (db : ContractDBTransaction) : outcome :=
  let h1 := set_reversible h (currentBlock db >? lastIrreversibleBlock db) in
  let q := PQueue.start (updateQueue h1) in
  let '(h2, tr, r) := drain (set_update h1 q (updateJobs h1)) (PQueue.queue q) in
  match r with
  | None => Returned (set_update h2 (PQueue.pause (PQueue.emptied q)) []) tr
  | Some e => Threw e (set_update h2 (PQueue.emptied q) (updateJobs h2)) tr
  end.

(** What the action and table handlers ask of the handler while a trace or a
    table delta of the block is dispatched ([onAction], [onTableChange]). *)
Inductive hookCall : Type :=
| CallAddUpdateJob (fn : list stmt) (priority : JobPriority.t) (stack : string)
| CallPushNotificiation (block : ShipBlock) (tx : json) (prefix name : string)
    (data : json) (stack : string).

Definition dispatch (h : AtomicMarketHandler) (c : hookCall) : AtomicMarketHandler :=
  match c with
  | CallAddUpdateJob fn p st => addUpdateJob h fn p st
  | CallPushNotificiation b tx p n d st => pushNotificiation h b tx p n d st
  end.

(** Modelled from the spec: the state receiver (src/filler/receiver.ts) is not
    part of the sources.  Section 4.E: open the transaction for block B,
    [onBlockStart], dispatch traces and deltas, [onBlockComplete(T)]; if a
    step raised, abort; otherwise commit and then call [onCommit]. *)
Definition processBlock (h : AtomicMarketHandler) (B : ShipBlock) (lib : Z)
    (calls : list hookCall) : AtomicMarketHandler * list event :=
  let T := {| currentBlock := block_num B; lastIrreversibleBlock := lib |} in
  let h1 := fold_left dispatch calls (onBlockStart h) in
  match onBlockComplete h1 T with
  | Returned h2 tr =>
      let '(h3, tr') := onCommit h2 in (h3, tr ++ EvCommit (block_num B) :: tr')
  | Threw e h2 tr => (h2, tr ++ [EvAbort (block_num B)])
  end.

End Connections.

(** *** Observations on traces and job lists *)

Definition outcome_handler (o : outcome) : AtomicMarketHandler :=
  match o with Returned h _ => h | Threw _ h _ => h end.

Definition outcome_trace (o : outcome) : list event :=
  match o with Returned _ tr => tr | Threw _ _ tr => tr end.

Definition returned (o : outcome) : bool :=
  match o with Returned _ _ => true | Threw _ _ _ => false end.

Definition is_publish (e : event) : bool :=
  match e with EvPublish _ _ => true | _ => false end.

Definition publishes (tr : list event) : list (string * string) :=
  flat_map (fun e => match e with EvPublish c m => [(c, m)] | _ => [] end) tr.

Definition started (tr : list event) : list (Z * UpdateJob) :=
  flat_map (fun e => match e with EvJobStart p j => [(p, j)] | _ => [] end) tr.

Definition completed (tr : list event) : nat :=
  List.length (filter (fun e => match e with EvJobEnd true => true | _ => false end) tr).

Definition db_writes (tr : list event) : list string :=
  flat_map (fun e => match e with EvDb s => [s] | _ => [] end) tr.

(** No job starts while another one is running. *)
Fixpoint serial_from (running : bool) (tr : list event) : bool :=
  match tr with
  | [] => negb running
  | EvJobStart _ _ :: rest => negb running && serial_from true rest
  | EvJobEnd _ :: rest => running && serial_from false rest
  | _ :: rest => serial_from running rest
  end.

Definition serial (tr : list event) : bool := serial_from false tr.

Definition job_ok (job : UpdateJob) : bool :=
  forallb (fun s => match s with Throw _ => false | _ => true end) (u_fn job).

Definition stmt_writes (ss : list stmt) : list string :=
  flat_map (fun s => match s with DbWrite q => [q] | _ => [] end) ss.

(** The statements a body runs on the database before it throws, if it
    throws; all of them otherwise. *)
Fixpoint writes_until_throw (ss : list stmt) : list string :=
  match ss with
  | [] => []
  | DbWrite q :: rest => q :: writes_until_throw rest
  | Notify _ _ _ _ _ _ :: rest => writes_until_throw rest
  | Throw _ :: _ => []
  end.

(** The jobs a list of hook calls enqueues, in call order. *)
Definition enqueued (calls : list hookCall) : list (Z * UpdateJob) :=
  flat_map (fun c => match c with
                     | CallAddUpdateJob fn p st =>
                         [(JobPriority.valueOf p, {| u_fn := fn; u_trace := st |})]
                     | _ => []
                     end) calls.

(** The promises of the list are those of the jobs in the queue, still to
    be settled: none is left over, rejected, from an earlier block. *)
Definition promises_queued (h : AtomicMarketHandler) : Prop :=
  Permutation (map job_of (updateJobs h)) (map snd (PQueue.queue (updateQueue h))).

(** The state between two blocks: both queues paused and empty, no promise
    pending. *)
Definition idle (h : AtomicMarketHandler) : Prop :=
  updateQueue h = PQueue.mk true [] /\ updateJobs h = [] /\
  notificationQueue h = PQueue.mk true [] /\ notificationJobs h = [].

(** While notifications are staged the notification queue is paused and
    holds, in the order of the promise list, the jobs of those promises. *)
Definition staging (h : AtomicMarketHandler) : Prop :=
  PQueue.isPaused (notificationQueue h) = true /\
  PQueue.queue (notificationQueue h)
    = map (fun j => (0, j)) (map job_of (notificationJobs h)).

(** [h'] differs from [h] in the notification queue and list at most. *)
Definition same_core (h h' : AtomicMarketHandler) : Prop :=
  chain_name h' = chain_name h /\ reader_name h' = reader_name h /\
  args h' = args h /\ reversible h' = reversible h /\
  updateQueue h' = updateQueue h /\ updateJobs h' = updateJobs h.

(** *** Concrete handlers, blocks and jobs for the examples *)

Definition wax_args : AtomicMarketArgs :=
  {| atomicmarket_account := "atomicmarket";
     atomicassets_account := "atomicassets";
     delphioracle_account := "delphioracle" |}.

Definition fresh : AtomicMarketHandler := constructor "wax" "atomic-1" wax_args.

Definition block10 : ShipBlock := {| block_num := 10; block_id := "000a" |}.
Definition block11 : ShipBlock := {| block_num := 11; block_id := "000b" |}.

Definition redis_up (channel message : string) : bool := true.

Definition db10 : ContractDBTransaction :=
  {| currentBlock := 10; lastIrreversibleBlock := 5 |}.

(** Block 11 once it is final: the last irreversible block is 11. *)
Definition db11_final : ContractDBTransaction :=
  {| currentBlock := 11; lastIrreversibleBlock := 11 |}.

(** Block 11 while it can still be forked out. *)
Definition db11_live : ContractDBTransaction :=
  {| currentBlock := 11; lastIrreversibleBlock := 8 |}.

(** The handler after block 10, which was reversible (10 > 5) and had no
    action for it: [onBlockComplete], then [onCommit]. *)
Definition after_block10 : AtomicMarketHandler :=
  fst (onCommit print_json redis_up (outcome_handler (onBlockComplete fresh db10))).

Definition sale5 : json := JObj [("sale_id", JNum 5)].

(** A job that updates sale 5 and announces the change. *)
Definition update_sale5 : list stmt :=
  [DbWrite "UPDATE atomicmarket_sales SET state = 3 WHERE sale_id = 5";
   Notify block11 JNull "sales" "state_change" sale5 "actions.ts:120"].

Definition insert_sale5 : list stmt :=
  [DbWrite "INSERT INTO atomicmarket_sales (sale_id) VALUES (5)"].

Definition block11_calls : list hookCall :=
  [CallAddUpdateJob update_sale5 JobPriority.ACTION_UPDATE_SALE "actions.ts:88";
   CallAddUpdateJob insert_sale5 JobPriority.TABLE_SALES "tables.ts:40"].

(** The handler with the two jobs of block 11 queued. *)
Definition block11_queued : AtomicMarketHandler := fold_left dispatch block11_calls fresh.

(** A notification pushed while a trace of block 11 is dispatched, before
    [onBlockComplete]. *)
Definition pushed_early : AtomicMarketHandler :=
  pushNotificiation after_block10 block11 JNull "sales" "create" sale5 "actions.ts:60".

Definition sale5_created : json :=
  JObj [("transaction", JNull);
        ("block", JObj [("block_num", JNum 11); ("block_id", JStr "000b")]);
        ("action", JStr "create");
        ("data", sale5)].

End Market.

(** ** The deserializer worker
    (src/definitions/views/atomicmarket_stats_markets_master.sql, lines 30 to 102) *)

Module Deserializer.

(** Decoded values; [bytesAsUint8Array: true] leaves byte fields as arrays of
    bytes. *)
Inductive value : Type :=
| VNull
| VBool (b : bool)
| VNum (n : Z)
| VStr (s : string)
| VBytes (bs : list byte)
| VArr (items : list value)
| VObj (fields : list (string * value)).

(** [data: Uint8Array | string] *)
Inductive input : Type :=
| Bytes (a : list byte)
| Hex (s : string).

Inductive error : Type :=
| DeserializationError (type : string)  (* 'Deserialization error: ' + type *)
| UnsupportedDelta (tag : option value) (* 'Unsupported table delta type received ' + delta[0] *)
| LibraryError                          (* thrown inside eosjs or abieos *)
| TypeError.                            (* a value without the accessed shape *)

Inductive result (A : Type) : Type :=
| Ok (a : A)
| Err (e : error).
Arguments Ok {A} _.
Arguments Err {A} _.

Definition bind {A B : Type} (r : result A) (k : A -> result B) : result B :=
  match r with Ok a => k a | Err e => Err e end.

Fixpoint map_result {A B : Type} (f : A -> result B) (l : list A) : result (list B) :=
  match l with
  | [] => Ok []
  | a :: rest =>
      bind (f a) (fun b => bind (map_result f rest) (fun bs => Ok (b :: bs)))
  end.

(** [Buffer.from(data, 'hex')]: two digits a byte, up to the first pair that
    is not hexadecimal; a last single digit is dropped. *)
Definition hex_digit (c : ascii) : option N :=
  let n := N_of_ascii c in
  if ((48 <=? n) && (n <=? 57))%N then Some (n - 48)%N
  else if ((97 <=? n) && (n <=? 102))%N then Some (n - 87)%N
  else if ((65 <=? n) && (n <=? 70))%N then Some (n - 55)%N
  else None.

Definition byte_of_N (n : N) : byte :=
  match Strings.Byte.of_N n with Some b => b | None => x00 end.

Fixpoint from_hex (s : string) : list byte :=
  match s with
  | String a (String b rest) =>
      match hex_digit a, hex_digit b with
      | Some h, Some l => byte_of_N (16 * h + l) :: from_hex rest
      | _, _ => []
      end
  | _ => []
  end.

(** [data.length]: the number of bytes of an array, the number of characters
    of a string. *)
Definition data_length (data : input) : nat :=
  match data with
  | Bytes a => List.length a
  | Hex s => String.length s
  end.

(** An eosjs type: [deserialize(buffer, state)] on a buffer holding the given
    bytes gives the value and the final [readPos], or throws. *)
Definition eosjs_type : Type := list byte -> option (value * nat).

Section Worker.

(** [args.options.ds_experimental && abieosSupported], the two abieos entry
    points, and the types built from the ABI ([None]: [getType] throws). *)
Variable abieos : bool.
Variable hex_to_json : string -> string -> result value.
Variable bin_to_json : string -> list byte -> result value.
Variable eosjsTypes : string -> option eosjs_type.

(** What [deserialize] does when the loop over the deltas hands it
    arguments of other types than its signature names: a type that is no
    string, or data that is neither a string nor a byte array (an array of
    numbers, say).  That is up to the two libraries. *)
Variable deserialize_other : option value -> value -> result value.

Definition deserialize (type : string) (data : input) : result value :=
  if abieos then
    match data with
    | Hex s => hex_to_json type s
    | Bytes a => bin_to_json type a
    end
  else
    let dataArray := match data with Hex s => from_hex s | Bytes a => a end in
    match eosjsTypes type with
    | None => Err LibraryError
    | Some ty =>
        match ty dataArray with
        | None => Err LibraryError
        | Some (result, readPos) =>
            if Nat.eqb readPos (data_length data) then Ok result
            else Err (DeserializationError type)
        end
    end.

Fixpoint lookup (k : string) (fs : list (string * value)) : option value :=
  match fs with
  | [] => None
  | (k', v) :: rest => if String.eqb k' k then Some v else lookup k rest
  end.

(** [{...obj, k: v}] and [obj.k = v]: the key keeps its place if the object
    has it, and is added last otherwise. *)
Fixpoint set_field (k : string) (v : value) (fs : list (string * value))
    : list (string * value) :=
  match fs with
  | [] => [(k, v)]
  | (k', v') :: rest =>
      if String.eqb k' k then (k, v) :: rest else (k', v') :: set_field k v rest
  end.

Definition as_input (v : value) : option input :=
  match v with
  | VBytes a => Some (Bytes a)
  | VStr s => Some (Hex s)
  | _ => None
  end.

Definition index_key (i : nat) : string := NilZero.string_of_uint (Nat.to_uint i).

Definition character (c : ascii) : value := VStr (String c EmptyString).

Definition number (b : byte) : value := VNum (Z.of_N (Strings.Byte.to_N b)).

(** [v[i]] for a [v] that is not null; [None] is undefined. *)
Definition item (i : nat) (v : value) : option value :=
  match v with
  | VArr items => nth_error items i
  | VObj fs => lookup (index_key i) fs
  | VStr s => option_map character (String.get i s)
  | VBytes bs => option_map number (nth_error bs i)
  | _ => None
  end.

(** [v.k] for a [v] that is not null and a name [k] that only an object can
    have; [None] is undefined. *)
Definition property (k : string) (v : value) : option value :=
  match v with VObj fs => lookup k fs | _ => None end.

Fixpoint indexed (i : nat) (items : list value) : list (string * value) :=
  match items with
  | [] => []
  | x :: rest => (index_key i, x) :: indexed (S i) rest
  end.

(** The properties that [{...v}] copies. *)
Definition own_properties (v : value) : list (string * value) :=
  match v with
  | VObj fs => fs
  | VArr items => indexed 0 items
  | VStr s => indexed 0 (map character (list_ascii_of_string s))
  | VBytes bs => indexed 0 (map number bs)
  | _ => []
  end.

(** [deserialize(type, data)] with the values the loop passes, whatever they
    are.  A string type with a string or a byte array is the call of the
    signature.  Data that is undefined or null never decodes: with abieos
    [Buffer.from(data)] throws a TypeError; on the portable path the buffer
    is empty, and if the type is found and reads nothing from it,
    [data.length] throws a TypeError. *)
Definition deserialize_value (type : option value) (data : option value) : result value :=
  match data with
  | None | Some VNull =>
      if abieos then Err TypeError
      else
        match type with
        | Some (VStr n) =>
            match eosjsTypes n with
            | None => Err LibraryError
            | Some ty =>
                match ty [] with
                | None => Err LibraryError
                | Some _ => Err TypeError
                end
            end
        | _ => Err LibraryError
        end
  | Some d =>
      match type, as_input d with
      | Some (VStr n), Some i => deserialize n i
      | _, _ => deserialize_other type d
      end
  end.

(** [({...row, data: deserialize(delta[1].name, row.data)})]; reading
    [row.data] of a row that is null throws a TypeError. *)
Definition decode_row (name : option value) (row : value) : result value :=
  match row with
  | VNull => Err TypeError
  | _ =>
      bind (deserialize_value name (property "data" row))
           (fun v => Ok (VObj (set_field "data" v (own_properties row))))
  end.

(** [rows.map(f)]: an array is mapped element by element; a byte array is
    mapped over its numbers into a byte array, where an object is stored as
    0; anything else has no [map]. *)
Definition map_rows (f : value -> result value) (rows : option value) : result value :=
  match rows with
  | Some (VArr rows) => bind (map_result f rows) (fun rows' => Ok (VArr rows'))
  | Some (VBytes bs) =>
      bind (map_result f (map number bs))
           (fun rows' => Ok (VBytes (map (fun _ => x00) rows')))
  | _ => Err TypeError
  end.

Definition is_v0 (delta : value) : bool :=
  match item 0 delta with
  | Some (VStr tag) => String.eqb tag "table_delta_v0"
  | _ => false
  end.

(** ['...' + v] throws a TypeError instead of giving a string when [v] is an
    object with a property [toString] of its own (a value, not a function)
    or an array that holds such an object. *)
Fixpoint unprintable (v : value) : bool :=
  match v with
  | VObj fs => match lookup "toString" fs with Some _ => true | None => false end
  | VArr items => existsb unprintable items
  | _ => false
  end.

(** [delta[i].rows = rows] where [delta[i]] is the object [fs]: the delta
    with that object changed. *)
Fixpoint replace_nth (i : nat) (x : value) (items : list value) : list value :=
  match i, items with
  | O, _ :: rest => x :: rest
  | S k, y :: rest => y :: replace_nth k x rest
  | _, [] => []
  end.

Definition with_item (i : nat) (x : value) (delta : value) : value :=
  match delta with
  | VArr items => VArr (replace_nth i x items)
  | VObj fs => VObj (set_field (index_key i) x fs)
  | _ => delta
  end.

(** The body of the loop over the deltas.  Reading [delta[0]] of a delta
    that is null throws a TypeError, and so does reading [rows] of a
    [delta[1]] that is undefined or null, and calling [map] on what has
    none. *)
Definition decode_delta (delta : value) : result value :=
  match delta with
  | VNull => Err TypeError
  | _ =>
      if is_v0 delta then
        match item 1 delta with
        | Some (VObj fs) =>
            bind (map_rows (decode_row (lookup "name" fs)) (lookup "rows" fs))
                 (fun rows' => Ok (with_item 1 (VObj (set_field "rows" rows' fs)) delta))
        | _ => Err TypeError
        end
      else
        match item 0 delta with
        | Some tag => if unprintable tag then Err TypeError
                      else Err (UnsupportedDelta (Some tag))
        | None => Err (UnsupportedDelta None)
        end
  end.

(** [for (const delta of data)]: the values the loop sees; null, a number, a
    boolean and a plain object cannot be iterated. *)
Definition iterate (data : value) : result (list value) :=
  match data with
  | VArr items => Ok items
  | VStr s => Ok (map character (list_ascii_of_string s))
  | VBytes bs => Ok (map number bs)
  | _ => Err TypeError
  end.

(** [parentPort.on('message', ...)]: the value posted back, or the error
    thrown.  The deltas of an array are changed in place; a string or a byte
    array gets through the loop only when it is empty. *)
Definition on_message (type : string) (data : option input) : result value :=
  match data with
  | None => Ok VNull
  | Some d =>
      bind (deserialize type d) (fun data =>
        if String.eqb type "table_delta[]" then
          bind (iterate data) (fun deltas =>
            bind (map_result decode_delta deltas) (fun ds =>
              Ok (match data with VArr _ => VArr ds | _ => data end)))
        else Ok data)
  end.

End Worker.

(** *** Vocabulary of the properties *)

Definition is_ok {A : Type} (r : result A) : bool :=
  match r with Ok _ => true | Err _ => false end.

(** The row [r'] is the object [r] with its [data] decoded against the type
    [name]; [decode] is [deserialize] on the two values. *)
Definition row_decoded (decode : option value -> option value -> result value)
    (name : option value) (r r' : value) : Prop :=
  exists fs v,
    r = VObj fs /\ decode name (lookup "data" fs) = Ok v /\
    r' = VObj (set_field "data" v fs).

(** The rows [rows'] are the rows [rows], each one decoded. *)
Definition rows_decoded (decode : option value -> option value -> result value)
    (name : option value) (rows rows' : value) : Prop :=
  (exists rs rs', rows = VArr rs /\ Forall2 (row_decoded decode name) rs rs' /\
                  rows' = VArr rs') \/
  (rows = VBytes [] /\ rows' = VBytes []).

(** [delta[1]] is an object whose [rows] can be mapped. *)
Definition has_rows (d : value) : bool :=
  match item 1 d with
  | Some (VObj fs) =>
      match lookup "rows" fs with
      | Some (VArr _) | Some (VBytes _) => true
      | _ => false
      end
  | _ => false
  end.

(** The delta [d'] is the [table_delta_v0] delta [d] with every row decoded
    against the table type the delta names. *)
Definition delta_decoded (decode : option value -> option value -> result value)
    (d d' : value) : Prop :=
  exists fs rows rows',
    item 0 d = Some (VStr "table_delta_v0") /\
    item 1 d = Some (VObj fs) /\
    lookup "rows" fs = Some rows /\
    rows_decoded decode (lookup "name" fs) rows rows' /\
    d' = with_item 1 (VObj (set_field "rows" rows' fs)) d.

(** *** A small ABI for the examples

    State-history layout on single-byte lengths: [uint8] is one byte; a
    [counter] row is one [uint8]; [table_delta[]] is a count followed by
    variants (index 0: [table_delta_v0], index 1: [table_delta_v1]) of a name
    and rows, a row being a [present] flag and length-prefixed bytes. *)

Definition reader (A : Type) : Type := list byte -> option (A * list byte).

Definition read_byte : reader Z :=
  fun bs => match bs with
            | b :: rest => Some (Z.of_N (Strings.Byte.to_N b), rest)
            | [] => None
            end.

Fixpoint read_n {A : Type} (r : reader A) (n : nat) : reader (list A) :=
  fun bs =>
    match n with
    | O => Some ([], bs)
    | S k =>
        match r bs with
        | Some (a, rest) =>
            match read_n r k rest with
            | Some (l, rest') => Some (a :: l, rest')
            | None => None
            end
        | None => None
        end
    end.

Definition read_array {A : Type} (r : reader A) : reader (list A) :=
  fun bs => match read_byte bs with
            | Some (n, rest) => read_n r (Z.to_nat n) rest
            | None => None
            end.

Definition read_raw : reader byte :=
  fun bs => match bs with b :: rest => Some (b, rest) | [] => None end.

Definition read_string : reader string :=
  fun bs => match read_array read_raw bs with
            | Some (l, rest) => Some (string_of_list_byte l, rest)
            | None => None
            end.

Definition read_row : reader value :=
  fun bs =>
    match read_byte bs with
    | Some (present, rest) =>
        match read_array read_raw rest with
        | Some (data, rest') =>
            Some (VObj [("present", VBool (negb (present =? 0))); ("data", VBytes data)], rest')
        | None => None
        end
    | None => None
    end.

Definition read_delta : reader value :=
  fun bs =>
    match read_byte bs with
    | Some (index, rest) =>
        match read_string rest with
        | Some (name, rest') =>
            match read_array read_row rest' with
            | Some (rows, rest'') =>
                let tag := if index =? 0 then "table_delta_v0" else "table_delta_v1" in
                Some (VArr [VStr tag; VObj [("name", VStr name); ("rows", VArr rows)]], rest'')
            | None => None
            end
        | None => None
        end
    | None => None
    end.

Definition as_type {A : Type} (r : reader A) (wrap : A -> value) : eosjs_type :=
  fun bs => match r bs with
            | Some (a, rest) => Some (wrap a, (List.length bs - List.length rest)%nat)
            | None => None
            end.

Definition ship_types (type : string) : option eosjs_type :=
  if String.eqb type "uint8" then Some (as_type read_byte VNum)
  else if String.eqb type "counter" then
    Some (as_type read_byte (fun n => VObj [("count", VNum n)]))
  else if String.eqb type "table_delta[]" then Some (as_type (read_array read_delta) VArr)
  else None.

Definition no_abieos_hex (type hex : string) : result value := Err LibraryError.
Definition no_abieos_bin (type : string) (bin : list byte) : result value := Err LibraryError.

(** The portable backend on the example ABI. *)
Definition portable : string -> input -> result value :=
  deserialize false no_abieos_hex no_abieos_bin ship_types.

(** The example backend is given nothing but strings and byte arrays. *)
Definition no_other (type : option value) (data : value) : result value := Err LibraryError.

Definition portable_value : option value -> option value -> result value :=
  deserialize_value false no_abieos_hex no_abieos_bin ship_types no_other.

Definition portable_worker : string -> option input -> result value :=
  on_message false no_abieos_hex no_abieos_bin ship_types no_other.

(** One [table_delta_v0] for table [counter] with one row holding the byte 7. *)
Definition one_good_delta : list byte :=
  [x01; x00; x07; x63; x6f; x75; x6e; x74; x65; x72; x01; x01; x01; x07]%byte.

(** One [table_delta_v1] for table [counter], without rows. *)
Definition one_v1_delta : list byte :=
  [x01; x01; x07; x63; x6f; x75; x6e; x74; x65; x72; x00]%byte.

(** A [table_delta_v0] whose row holds two bytes (one too many for a
    [counter]), followed by a [table_delta_v1]. *)
Definition bad_row_then_v1 : list byte :=
  [x02;
   x00; x07; x63; x6f; x75; x6e; x74; x65; x72; x01; x01; x02; x07; x08;
   x01; x07; x63; x6f; x75; x6e; x74; x65; x72; x00]%byte.

End Deserializer.

(** ** The view atomicmarket_stats_markets_master
    (src/definitions/views/atomicmarket_stats_markets_master.sql, lines 1 to 29) *)

Module StatsView.

(** SQL truth values: [None] is NULL (unknown). *)
Definition sql_bool : Type := option bool.

Definition sql_and (a b : sql_bool) : sql_bool :=
  match a, b with
  | Some false, _ => Some false
  | _, Some false => Some false
  | Some true, Some true => Some true
  | _, _ => None
  end.

Definition is_not_null {A : Type} (v : option A) : sql_bool :=
  match v with Some _ => Some true | None => Some false end.

Definition sql_eq (v : option Z) (k : Z) : sql_bool :=
  option_map (fun x => x =? k) v.

(** [end_time < extract(epoch from now())]: [end_time] counts seconds, the
    clock of the database counts microseconds. *)
Definition before_now (v : option Z) (now_us : Z) : sql_bool :=
  option_map (fun x => x * 1000000 <? now_us) v.

(** A WHERE clause keeps the rows on which it is true. *)
Definition holds (c : sql_bool) : bool :=
  match c with Some true => true | _ => false end.

Record sale : Type := {
  s_market_contract : option string;
  s_sale_id : option Z;
  s_maker_marketplace : option string;
  s_taker_marketplace : option string;
  s_assets_contract : option string;
  s_collection_name : option string;
  s_settlement_symbol : option string;
  s_final_price : option Z;
  s_updated_at_time : option Z;
  s_state : option Z
}.

Record auction : Type := {
  a_market_contract : option string;
  a_auction_id : option Z;
  a_maker_marketplace : option string;
  a_taker_marketplace : option string;
  a_assets_contract : option string;
  a_collection_name : option string;
  a_token_symbol : option string;
  a_price : option Z;
  a_end_time : option Z;
  a_buyer : option string;
  a_state : option Z
}.

Record buyoffer : Type := {
  b_market_contract : option string;
  b_buyoffer_id : option Z;
  b_maker_marketplace : option string;
  b_taker_marketplace : option string;
  b_assets_contract : option string;
  b_collection_name : option string;
  b_token_symbol : option string;
  b_price : option Z;
  b_updated_at_time : option Z;
  b_state : option Z
}.

(** A row of the view. *)
Record listing : Type := {
  market_contract : option string;
  listing_type : string;
  listing_id : option Z;
  maker_marketplace : option string;
  taker_marketplace : option string;
  assets_contract : option string;
  collection_name : option string;
  token_symbol : option string;
  price : option Z;
  time : option Z
}.

Definition sale_where (s : sale) : sql_bool :=
  sql_and (is_not_null (s_final_price s)) (sql_eq (s_state s) 3).

Definition sale_select (s : sale) : listing :=
  {| market_contract := s_market_contract s; listing_type := "sale";
     listing_id := s_sale_id s;
     maker_marketplace := s_maker_marketplace s;
     taker_marketplace := s_taker_marketplace s;
     assets_contract := s_assets_contract s; collection_name := s_collection_name s;
     token_symbol := s_settlement_symbol s; price := s_final_price s;
     time := s_updated_at_time s |}.

Definition auction_where (now_us : Z) (a : auction) : sql_bool :=
  sql_and (sql_and (is_not_null (a_buyer a)) (sql_eq (a_state a) 1))
          (before_now (a_end_time a) now_us).

Definition auction_select (a : auction) : listing :=
  {| market_contract := a_market_contract a; listing_type := "auction";
     listing_id := a_auction_id a;
     maker_marketplace := a_maker_marketplace a;
     taker_marketplace := a_taker_marketplace a;
     assets_contract := a_assets_contract a; collection_name := a_collection_name a;
     token_symbol := a_token_symbol a; price := a_price a;
     time := option_map (fun e => e * 1000) (a_end_time a) |}.

Definition buyoffer_where (b : buyoffer) : sql_bool := sql_eq (b_state b) 3.

Definition buyoffer_select (b : buyoffer) : listing :=
  {| market_contract := b_market_contract b; listing_type := "buyoffer";
     listing_id := b_buyoffer_id b;
     maker_marketplace := b_maker_marketplace b;
     taker_marketplace := b_taker_marketplace b;
     assets_contract := b_assets_contract b; collection_name := b_collection_name b;
     token_symbol := b_token_symbol b; price := b_price b;
     time := b_updated_at_time b |}.

(** The three SELECTs joined by UNION ALL, at database time [now_us]. *)
Definition atomicmarket_stats_markets_master
    (sales : list sale) (auctions : list auction) (buyoffers : list buyoffer)
    (now_us : Z) : list listing :=
  map sale_select (filter (fun s => holds (sale_where s)) sales)
  ++ map auction_select (filter (fun a => holds (auction_where now_us a)) auctions)
  ++ map buyoffer_select (filter (fun b => holds (buyoffer_where b)) buyoffers).

(** The rows of the view that stand for auctions. *)
Definition auction_rows (v : list listing) : list listing :=
  filter (fun l => String.eqb (listing_type l) "auction") v.

(** An auction that is listed, has a buyer and has ended. *)
Definition ended_with_buyer (now_us : Z) (a : auction) : Prop :=
  a_state a = Some 1 /\ a_buyer a <> None /\
  exists e, a_end_time a = Some e /\ e * 1000000 < now_us.

(** An auction listed since block time 1700000000 with a bid by alice, still
    stored with state 1; the clock stands one second later. *)
Definition expired_auction : auction :=
  {| a_market_contract := Some "atomicmarket"; a_auction_id := Some 42;
     a_maker_marketplace := Some "market.a"; a_taker_marketplace := None;
     a_assets_contract := Some "atomicassets"; a_collection_name := Some "cards";
     a_token_symbol := Some "WAX"; a_price := Some 1500;
     a_end_time := Some 1700000000; a_buyer := Some "alice"; a_state := Some 1 |}.

Definition one_second_later : Z := 1700000001000000.

End StatsView.

(** ** The single-entity routes
    (src/src/api/namespaces/atomicmarket/routes/auctions.ts, which also holds
    the sales routes, and src/src/api/namespaces/atomicassets/routes/collections.ts,
    which also holds the assets routes) *)

Module Api.

(** What express sends: the status (200 unless [res.status] was called) and
    the JSON body. *)
Record response : Type := { status : Z; body : json }.

(** The rows of a SELECT; [rowCount] is their number. *)
Definition query_result : Type := list json.

Definition rowCount (q : query_result) : Z := Z.of_nat (List.length q).

Definition failure (message : string) : json :=
  JObj [("success", JBool false); ("message", JStr message)].

(** [{success: true, data: xs[0], ...}]: a field whose value is undefined is
    left out of the body. *)
Definition success (first : option json) (more : list (string * json)) : json :=
  JObj (("success", JBool true)
          :: match first with Some x => [("data", x)] | None => [] end ++ more).

(** [rows.map(f)] for an [f] that may throw. *)
Fixpoint map_option {A B : Type} (f : A -> option B) (l : list A) : option (list B) :=
  match l with
  | [] => Some []
  | a :: rest =>
      match f a, map_option f rest with
      | Some b, Some bs => Some (b :: bs)
      | _, _ => None
      end
  end.

(** atomicassets/format.ts *)
Definition formatCollection (row : json) : json := row.

Section Routes.

(** The formatters and fillers of the atomicmarket namespace and
    [formatAsset]; [None] when they throw.  A query is [None] when the
    database call throws. *)
Variable formatAuction : json -> option json.
Variable fillAuctions : list json -> option (list json).
Variable formatSale : json -> option json.
Variable fillSales : list json -> option (list json).
Variable formatAsset : json -> option json.

(** GET /v1/auctions/:auction_id *)
Definition get_auction (query : option query_result) : response :=
  match query with
  | None => {| status := 500; body := failure "Internal Server Error" |}
  | Some q =>
      if rowCount q =? 0 then {| status := 500; body := failure "Auction not found" |}
      else
        match map_option formatAuction q with
        | Some formatted =>
            match fillAuctions formatted with
            | Some auctions => {| status := 200; body := success (hd_error auctions) [] |}
            | None => {| status := 500; body := failure "Internal Server Error" |}
            end
        | None => {| status := 500; body := failure "Internal Server Error" |}
        end
  end.

(** GET /v1/sales/:sale_id *)
Definition get_sale (query : option query_result) (now : Z) : response :=
  match query with
  | None => {| status := 500; body := failure "Internal Server Error" |}
  | Some q =>
      if rowCount q =? 0 then {| status := 416; body := failure "Sale not found" |}
      else
        match map_option formatSale q with
        | Some formatted =>
            match fillSales formatted with
            | Some sales =>
                {| status := 200;
                   body := success (hd_error sales) [("query_time", JNum now)] |}
            | None => {| status := 500; body := failure "Internal Server Error" |}
            end
        | None => {| status := 500; body := failure "Internal Server Error" |}
        end
  end.

(** GET /v1/collections/:collection_name *)
Definition get_collection (query : option query_result) (now : Z) : response :=
  match query with
  | None => {| status := 500; body := failure "Internal Server Error" |}
  | Some q =>
      if rowCount q =? 0 then {| status := 416; body := failure "Collection not found" |}
      else
        {| status := 200;
           body := success (option_map formatCollection (hd_error q))
                           [("query_time", JNum now)] |}
  end.

(** GET /v1/assets/:asset_id *)
Definition get_asset (query : option query_result) (now : Z) : response :=
  match query with
  | None => {| status := 500; body := failure "Internal Server Error" |}
  | Some q =>
      if rowCount q =? 0 then {| status := 500; body := failure "Asset not found" |}
      else
        match option_map formatAsset (hd_error q) with
        | Some (Some data) =>
            {| status := 200; body := success (Some data) [("query_time", JNum now)] |}
        | _ => {| status := 500; body := failure "Internal Server Error" |}
        end
  end.

End Routes.

(** The [success] field of a body. *)
Definition succeeded (r : response) : option json :=
  match body r with
  | JObj (("success", v) :: _) => Some v
  | _ => None
  end.

Definition as_is (row : json) : option json := Some row.

Definition keep (l : list json) : option (list json) := Some l.

End Api.

(** ** The token route (src/src/api/namespaces/authentication/routes.ts) *)

Module Auth.

(** The fields of [req.body] the route reads; [None] is undefined. *)
Record request : Type := {
  block_num : option json;
  nonce : option json;
  account : option json;
  permission : option json;
  signatures : option json
}.

(** A row of [auth_tokens]. *)
Record token_row : Type := {
  t_token : string;
  t_account : string;
  t_nonce : string;
  t_created : Z;
  t_expire : Z
}.

(** What [chain.rpc.get_block] gives, with the instant (in milliseconds) that
    [new Date(block.timestamp + '+0000').getTime()] reads from the timestamp;
    [None] when the date does not parse (NaN). *)
Record block_info : Type := {
  timestamp : string;
  time_ms : option Z;
  number : Z;
  ref_block_prefix : Z
}.

(** The verdict of the signature check ([api.transact], [ecc.recover] and
    [get_required_keys]): the keys are accepted, the chain answers with an
    error code, or one of the calls throws. *)
Inductive verdict : Set := Accepted | Refused | Crashed.

(** The world around one request: the chain, the three readings of
    [Date.now()], the random token (in hexadecimal) and its hash.  The
    database is taken to answer its queries. *)
Record world : Type := {
  get_block : Z -> option block_info;
  check : string -> string -> string -> list json -> block_info -> verdict;
  now_at_check : Z;
  now_at_expire : Z;
  now_at_insert : Z;
  token_hex : string;
  token_hash : string
}.

Definition failure (message : string) : json :=
  JObj [("success", JBool false); ("message", JStr message)].

Definition is_digit (c : ascii) : option Z :=
  let n := Z.of_N (N_of_ascii c) in
  if (48 <=? n) && (n <=? 57) then Some (n - 48) else None.

Definition is_space (c : ascii) : bool :=
  let n := N_of_ascii c in
  ((n =? 32) || ((9 <=? n) && (n <=? 13)))%N.

Fixpoint skip_spaces (s : string) : string :=
  match s with
  | String c rest => if is_space c then skip_spaces rest else s
  | EmptyString => s
  end.

Fixpoint digits (s : string) (acc : option Z) : option Z :=
  match s with
  | String c rest =>
      match is_digit c with
      | Some d => digits rest (Some (10 * match acc with Some a => a | None => 0 end + d))
      | None => acc
      end
  | EmptyString => acc
  end.

(** Numbers are doubles.  An integer is held as it is when it is a double;
    Infinity is held as [2 ^ 1024], which is the first power of two that is
    no double. *)
Definition infinity : Z := 2 ^ 1024.

(** The double nearest to an integer, ties to the even mantissa. *)
Definition to_double (z : Z) : Z :=
  let a := Z.abs z in
  if a <? 2 ^ 53 then z
  else
    let e := Z.log2 a - 52 in
    let q := Z.shiftr a e in
    let r := a - Z.shiftl q e in
    let half := Z.shiftl 1 (e - 1) in
    let q' := if (half <? r) || ((r =? half) && Z.odd q) then q + 1 else q in
    let d := Z.shiftl q' e in
    Z.sgn z * (if infinity <=? d then infinity else d).

Definition decimal_digits (a : Z) : Z :=
  Z.of_nat (Decimal.nb_digits (Pos.to_uint (Z.to_pos a))).

(** The first digit of [String(a)] for a double [a] of [size] decimal digits
    that is printed with an exponent (from 1e21 on): the digits printed are
    the fewest, [k] of them, that read back as [a]. *)
Fixpoint first_printed_digit (fuel : nat) (k : Z) (a size : Z) : Z :=
  match fuel with
  | O => a / 10 ^ (size - 1)
  | S f =>
      let p := 10 ^ (size - k) in
      let lo := (a / p) * p in
      let hi := lo + p in
      if to_double lo =? a then lo / 10 ^ (size - 1)
      else if to_double hi =? a then
        (if hi <? 10 ^ size then hi / 10 ^ (size - 1) else 1)
      else first_printed_digit f (k + 1) a size
  end.

(** [parseInt(text, 10)]; [None] is NaN. *)
Definition parseInt_string (text : string) : option Z :=
  option_map to_double
    match skip_spaces text with
    | String "-" rest => option_map Z.opp (digits rest None)
    | String "+" rest => digits rest None
    | s => digits s None
    end.

(** [parseInt(n, 10)] on a number: the number is first printed.  Below 1e21
    it is printed with all its digits and reads back as itself; from 1e21 on
    it is printed with an exponent, and what is read is the one digit before
    the point; Infinity reads as NaN. *)
Definition parseInt_number (n : Z) : option Z :=
  let d := to_double n in
  let a := Z.abs d in
  if infinity <=? a then None
  else if a <? 10 ^ 21 then Some d
  else Some (Z.sgn d * first_printed_digit 17 1 a (decimal_digits a)).

(** [parseInt(v, 10)] on a body field: the argument is first turned into a
    string; an array reads as its first element followed by a comma. *)
Fixpoint parseInt (v : json) : option Z :=
  match v with
  | JNum n => parseInt_number n
  | JStr s => parseInt_string s
  | JArr (x :: _) => parseInt x
  | _ => None
  end.

(** [typeof v === 'string'].  The length of a nonce is counted in
    characters of the string as it is held here. *)
Definition is_string (v : option json) : option string :=
  match v with Some (JStr s) => Some s | _ => None end.

(** The five checks on the body, in the order of the source; the text of the
    first one that fails, or the values read.  ([req.body.nonce.account] and
    [req.body.nonce.permission] are undefined, so the lengths of the account
    and of the permission are not bounded.) *)
Definition validate (req : request) : string + (Z * string * string * string * list json) :=
  match option_map parseInt (block_num req) with
  | Some (Some blockNum) =>
      if blockNum <=? 0 then inl "Invalid block num received"
      else
        match is_string (nonce req) with
        | Some n =>
            if (64 <? String.length n)%nat then inl "Invalid nonce provided"
            else
              match is_string (account req) with
              | Some a =>
                  match is_string (permission req) with
                  | Some p =>
                      match signatures req with
                      | Some (JArr sigs) => inr (blockNum, n, a, p, sigs)
                      | _ => inl "Invalid signatures provided"
                      end
                  | None => inl "Invalid permission name provided"
                  end
              | None => inl "Invalid account name provided"
              end
        | None => inl "Invalid nonce provided"
        end
  | _ => inl "Invalid block num received"
  end.

(** [SELECT nonce FROM auth_tokens WHERE nonce = $1] *)
Definition nonce_rows (table : list token_row) (n : string) : list token_row :=
  filter (fun r => String.eqb (t_nonce r) n) table.

(** [Date.now() - new Date(...).getTime() > 3600 * 24 * 1000] *)
Definition older_than_a_day (now : Z) (b : block_info) : bool :=
  match time_ms b with
  | Some t => now - t >? 3600 * 24 * 1000
  | None => false
  end.

(** POST /v1/token: the body sent (always with status 200) and the table
    afterwards. *)
Definition post_token (w : world) (table : list token_row) (req : request)
    : json * list token_row :=
  match validate req with
  | inl message => (failure message, table)
  | inr (blockNum, n, a, p, sigs) =>
      if (0 <? List.length (nonce_rows table n))%nat then
        (failure "Nonce already used", table)
      else
        match get_block w blockNum with
        | None => (failure "Internal Server Error", table)
        | Some block =>
            if older_than_a_day (now_at_check w) block then
              (failure "Reference block older than a day", table)
            else
              match check w n a p sigs block with
              | Crashed => (failure "Internal Server Error", table)
              | Refused => (failure "Authentication failed", table)
              | Accepted =>
                  let expire := now_at_expire w + 24 * 3600 * 30 * 1000 in
                  (JObj [("success", JBool true);
                         ("data", JObj [("token", JStr (token_hex w));
                                        ("expire", JNum expire)])],
                   table ++ [{| t_token := token_hash w; t_account := a; t_nonce := n;
                                t_created := now_at_insert w; t_expire := expire |}])
              end
        end
  end.

Definition well_formed (req : request) : bool :=
  match validate req with inr _ => true | inl _ => false end.




(** *** A world and requests for the examples *)

Definition day_two : Z := 1700172800000.

Definition old_block : block_info :=
  {| timestamp := "2023-11-14T22:13:20.000"; time_ms := Some 1700000000000;
     number := 100; ref_block_prefix := 7 |}.

Definition recent_block : block_info :=
  {| timestamp := "2023-11-16T21:13:20.000"; time_ms := Some 1700169200000;
     number := 200; ref_block_prefix := 9 |}.

Definition chain (n : Z) : option block_info :=
  if n =? 100 then Some old_block else if n =? 200 then Some recent_block else None.

Definition accept_all (n a p : string) (sigs : list json) (b : block_info) : verdict :=
  Accepted.

Definition the_world : world :=
  {| get_block := chain; check := accept_all;
     now_at_check := day_two; now_at_expire := day_two; now_at_insert := day_two;
     token_hex := "c0ffee"; token_hash := "5f70bf18" |}.

Definition stored : list token_row :=
  [{| t_token := "9a0364b9"; t_account := "alice"; t_nonce := "n-1";
      t_created := 1700000000000; t_expire := 1702592000000 |}].

Definition ask (block : json) (n : string) : request :=
  {| block_num := Some block; nonce := Some (JStr n);
     account := Some (JStr "alice"); permission := Some (JStr "active");
     signatures := Some (JArr [JStr "SIG_K1_example"]) |}.

End Auth.

(** ** The AtomicMarket handler: what a block leaves behind *)

Module MarketFacts.

Import Market.

(** The notifications a job body pushes, in order, up to its first throw. *)
Fixpoint stmt_pushes (ss : list stmt) : list NotificationJob :=
  match ss with
  | [] => []
  | DbWrite _ :: rest => stmt_pushes rest
  | Notify b tx p n d st :: rest =>
      {| n_block := b; n_tx := tx; n_prefix := p; n_name := n; n_data := d; n_trace := st |}
        :: stmt_pushes rest
  | Throw _ :: _ => []
  end.

(** The error a job body throws, if it throws. *)
Fixpoint first_throw (ss : list stmt) : option string :=
  match ss with
  | [] => None
  | Throw e :: _ => Some e
  | _ :: rest => first_throw rest
  end.

(** What the wrapper of a job logs when the body throws: the error, then the
    stack trace taken when the job was enqueued. *)
Definition job_errors (job : UpdateJob) : list string :=
  match first_throw (u_fn job) with
  | Some e => [e; u_trace job]
  | None => []
  end.

(** The error of the first job of a queue that throws. *)
Fixpoint first_error (q : list (Z * UpdateJob)) : option string :=
  match q with
  | [] => None
  | (_, job) :: rest =>
      match first_throw (u_fn job) with
      | Some e => Some e
      | None => first_error rest
      end
  end.

(** The stack traces of the warnings logged. *)
Definition warnings (tr : list event) : list string :=
  flat_map (fun e => match e with EvLogWarn _ st => [st] | _ => [] end) tr.

Definition errors_logged (tr : list event) : list string :=
  flat_map (fun e => match e with EvLogError m => [m] | _ => [] end) tr.

(** A redis connection that is down. *)
Definition redis_down (channel message : string) : bool := false.

(** Block 11 with a first job that fails after writing; the job that
    updates sale 5 is queued behind it. *)
Definition failing_job : list stmt :=
  [DbWrite "UPDATE atomicmarket_auctions SET state = 1 WHERE auction_id = 9";
   Throw "auction 9 not found"].

Definition failing_calls : list hookCall :=
  [CallAddUpdateJob update_sale5 JobPriority.ACTION_UPDATE_SALE "actions.ts:88";
   CallAddUpdateJob failing_job JobPriority.TABLE_AUCTIONS "tables.ts:52"].

Definition failing_queued : AtomicMarketHandler := fold_left dispatch failing_calls fresh.

End MarketFacts.

(** ** The deserializer worker: what a decoded delta keeps *)

Module WorkerShape.

Import Deserializer.

(** [v.k] for a decoded value; [None] is undefined. *)
Definition field (k : string) (v : value) : option value :=
  match v with VObj fs => lookup k fs | _ => None end.

(** [v[i]] of an array, null where there is none. *)
Definition element (i : nat) (v : value) : value :=
  match v with VArr items => nth i items VNull | _ => VNull end.

(** [delta[1].rows], when it is an array. *)
Definition rows_of (delta : value) : list value :=
  match field "rows" (element 1 delta) with
  | Some (VArr rows) => rows
  | _ => []
  end.

(** Two rows that agree on every field but [data]. *)
Definition same_but_data (r r' : value) : Prop :=
  forall k, k <> "data" -> field k r' = field k r.

(** Two deltas with the same tag, the same fields apart from [rows], and
    rows that agree one by one on every field but [data]. *)
Definition same_shape (d d' : value) : Prop :=
  element 0 d' = element 0 d /\
  (forall k, k <> "rows" -> field k (element 1 d') = field k (element 1 d)) /\
  Forall2 same_but_data (rows_of d) (rows_of d').

End WorkerShape.

(** ** The view: the rows by listing type *)

Module StatsRows.

Import StatsView.

(** A sale that is stored as sold (state 3) with a final price. *)
Definition sold_with_price (s : sale) : bool :=
  match s_final_price s, s_state s with
  | Some _, Some st => st =? 3
  | _, _ => false
  end.

Definition accepted (b : buyoffer) : bool :=
  match b_state b with Some st => st =? 3 | None => false end.

Definition rows_of_type (t : string) (v : list listing) : list listing :=
  filter (fun l => String.eqb (listing_type l) t) v.

(** A sale in state 3 whose final price was never written. *)
Definition sale_without_price : sale :=
  {| s_market_contract := Some "atomicmarket"; s_sale_id := Some 5;
     s_maker_marketplace := None; s_taker_marketplace := None;
     s_assets_contract := Some "atomicassets"; s_collection_name := Some "cards";
     s_settlement_symbol := Some "WAX"; s_final_price := None;
     s_updated_at_time := Some 1700000000000; s_state := Some 3 |}.

End StatsRows.

(** ** The token route: requests that are alike *)

Module AuthFacts.

Import Auth.

(** The request with another account and permission. *)
Definition signed_as (req : request) (a p : string) : request :=
  {| block_num := block_num req; nonce := nonce req;
     account := Some (JStr a); permission := Some (JStr p);
     signatures := signatures req |}.




(** A world in which nothing works any more. *)
Definition dead_world : world :=
  {| get_block := fun _ => None; check := fun _ _ _ _ _ => Crashed;
     now_at_check := 0; now_at_expire := 0; now_at_insert := 0;
     token_hex := ""; token_hash := "" |}.

End AuthFacts.

(** ** The formatters (src/src/api/namespaces/atomicassets/format.ts, lines 1 to 60) *)

Module Format.

(** A JavaScript object as the list of its properties; a name is read at its
    first entry. *)
Definition obj : Type := list (string * json).

(** [o[k]]; [None] is undefined. *)
Fixpoint get (k : string) (o : obj) : option json :=
  match o with
  | [] => None
  | (k', v) :: rest => if String.eqb k' k then Some v else get k rest
  end.

(** [delete o[k]] *)
Fixpoint remove (k : string) (o : obj) : obj :=
  match o with
  | [] => []
  | (k', v) :: rest => if String.eqb k' k then remove k rest else (k', v) :: remove k rest
  end.

(** [o[k] = v]: the property keeps its place, a new one comes last. *)
Fixpoint put (k : string) (v : json) (o : obj) : obj :=
  match o with
  | [] => [(k, v)]
  | (k', v') :: rest => if String.eqb k' k then (k, v) :: rest else (k', v') :: put k v rest
  end.

(** [o[k] = v] for a [v] that may be undefined.  A property set to undefined
    reads as undefined and is left out by [JSON.stringify]; it is modelled as
    absent. *)
Definition put_opt (k : string) (v : option json) (o : obj) : obj :=
  match v with Some x => put k x o | None => remove k o end.

(** Every name once, at its first entry. *)
Fixpoint first_wins (o : obj) : obj :=
  match o with
  | [] => []
  | (k, v) :: rest => (k, v) :: remove k (first_wins rest)
  end.

Definition decimal (n : nat) : string := NilZero.string_of_uint (Nat.to_uint n).

Fixpoint indexed (i : nat) (items : list json) : obj :=
  match items with
  | [] => []
  | x :: rest => (decimal i, x) :: indexed (S i) rest
  end.

Definition characters (s : string) : list json :=
  map (fun c => JStr (String c EmptyString)) (list_ascii_of_string s).

(** The own enumerable properties of a value, as [{...v}] and
    [Object.assign] see them: those of an object, the indices of an array or
    of a string, none for the other values and for undefined. *)
Definition own_fields (v : option json) : obj :=
  match v with
  | Some (JObj fs) => first_wins fs
  | Some (JArr items) => first_wins (indexed 0 items)
  | Some (JStr s) => first_wins (indexed 0 (characters s))
  | _ => []
  end.

(** The prototype of an object: [Object.prototype], which every object
    starts with, null, or the object or array that an assignment to
    [__proto__] has put there. *)
Inductive prototype : Type :=
| ObjectPrototype
| NullPrototype
| ValuePrototype (v : json).

Definition has_own (k : string) (o : obj) : bool :=
  match get k o with Some _ => true | None => false end.

(** Whether [o.__proto__ = v] runs the setter that [Object.prototype] has
    for [__proto__].  It does unless a property of that name is found
    before: on the object itself, or on its prototype when that is an object
    of JSON with such a property; and unless the prototype is null.  (An
    object of JSON has [Object.prototype] behind it, an array
    [Array.prototype] and then [Object.prototype].) *)
Definition reaches_setter (own : obj) (p : prototype) : bool :=
  negb (has_own "__proto__" own) &&
  match p with
  | ObjectPrototype => true
  | NullPrototype => false
  | ValuePrototype (JObj fs) => negb (has_own "__proto__" fs)
  | ValuePrototype _ => true
  end.

(** [o[k] = v] on an object with its prototype.  For the name [__proto__]
    the setter, when it is reached, makes [v] the prototype if [v] is an
    object, an array or null and does nothing for any other [v]; the object
    gets no property.  Every other assignment sets a property of the object
    itself. *)
Definition set (k : string) (v : json) (o : obj * prototype) : obj * prototype :=
  let '(own, p) := o in
  if String.eqb k "__proto__" && reaches_setter own p then
    match v with
    | JObj _ | JArr _ => (own, ValuePrototype v)
    | JNull => (own, NullPrototype)
    | _ => (own, p)
    end
  else (put k v own, p).

(** [Object.assign(target, source)]: every own property of the source is
    assigned to the target, one after the other. *)
Definition assign (target : obj * prototype) (source : option json) : obj * prototype :=
  fold_left (fun t kv => set (fst kv) (snd kv) t) (own_fields source) target.

(** [if (v)] *)
Definition truthy (v : option json) : bool :=
  match v with
  | None => false
  | Some JNull => false
  | Some (JBool b) => b
  | Some (JNum n) => negb (n =? 0)
  | Some (JStr s) => negb (String.eqb s "")
  | Some _ => true
  end.

(** [v.k] for a name [k] that strings and arrays do not have. *)
Definition prop (k : string) (v : option json) : option json :=
  match v with Some (JObj fs) => get k fs | _ => None end.

(** The result is the object [data] by its own properties; of [data.data]
    too the own properties are kept, which is what [JSON.stringify] and the
    formatters read of it. *)
Definition formatAsset (row : json) : obj :=
  let data := own_fields (Some row) in
  let data := put_opt "collection" (option_map Api.formatCollection (get "collection" data)) data in
  let merged :=
    assign (assign ([], ObjectPrototype) (get "mutable_data" data))
           (get "immutable_data" data) in
  let merged :=
    if truthy (get "template" data)
    then assign merged (prop "immutable_data" (get "template" data))
    else merged in
  let data := put "data" (JObj (fst merged)) data in
  remove "authorized_accounts"
    (remove "collection_name" (remove "schema_name" (remove "template_id" data))).

Definition formatTemplate (row : json) : obj :=
  let data := own_fields (Some row) in
  let data := put_opt "collection" (option_map Api.formatCollection (get "collection" data)) data in
  remove "authorized_accounts" (remove "collection_name" (remove "schema_name" data)).

Definition formatSchema (row : json) : obj :=
  let data := own_fields (Some row) in
  let data := put_opt "collection" (option_map Api.formatCollection (get "collection" data)) data in
  remove "authorized_accounts" (remove "collection_name" data).

Definition formatOffer (row : json) : obj := own_fields (Some row).

Definition formatTransfer (row : json) : obj :=
  remove "transfer_id" (own_fields (Some row)).

(** *** Vocabulary of the properties *)

(** The last entry of a name. *)
Fixpoint get_last (k : string) (o : obj) : option json :=
  match o with
  | [] => None
  | (k', v) :: rest =>
      match get_last k rest with
      | Some x => Some x
      | None => if String.eqb k' k then Some v else None
      end
  end.

(** Reading [k] in [a] first and in [b] if [a] has no [k]. *)
Definition or_else (a b : option json) : option json :=
  match a with Some x => Some x | None => b end.

Definition hidden_in_assets : list string :=
  ["template_id"; "schema_name"; "collection_name"; "authorized_accounts"].

Definition is_in (k : string) (l : list string) : bool := existsb (String.eqb k) l.

(** An asset whose mutable data names [__proto__]. *)
Definition poisoned_row : json :=
  JObj [("asset_id", JStr "7");
        ("mutable_data", JObj [("__proto__", JObj [("polluted", JBool true)]);
                               ("name", JStr "draft")])].

(** An asset row with a template that overrides its name. *)
Definition asset_row : json :=
  JObj [("asset_id", JStr "1099511627776"); ("owner", JStr "alice");
        ("template_id", JNum 7); ("schema_name", JStr "cards");
        ("collection_name", JStr "heroes");
        ("collection", JObj [("collection_name", JStr "heroes")]);
        ("mutable_data", JObj [("level", JNum 3); ("name", JStr "draft")]);
        ("immutable_data", JObj [("name", JStr "Knight"); ("rarity", JStr "rare")]);
        ("template", JObj [("template_id", JNum 7);
                           ("immutable_data", JObj [("name", JStr "Knight of the North")])])].

End Format.

(** ** The data conditions
    (src/src/api/namespaces/atomicassets/format.ts, lines 83 to 107) *)

Module DataConditions.

Import Format.

Fixpoint drop (n : nat) (s : string) : string :=
  match n, s with
  | S k, String _ rest => drop k rest
  | _, _ => s
  end.

Section Conversions.

(** [String(v)], [parseFloat(v)] (a number, or NaN) and [JSON.stringify]. *)
Variable js_String : json -> string.
Variable parseFloat : json -> json.
Variable JSON_stringify : json -> string.

(** What one key of the query string adds to the [query] object. *)
Definition data_entry (key : string) (v : json) : option (string * json) :=
  if String.prefix "data::text." key then Some (drop 11 key, JStr (js_String v))
  else if String.prefix "data::number." key then Some (drop 13 key, parseFloat v)
  else if String.prefix "data." key then Some (drop 5 key, JStr (js_String v))
  else None.

(** [query[k] = v] in the loop, for [v] a string or a number: for the name
    [__proto__] the assignment runs the setter of [Object.prototype], which
    does nothing for such a value, and [query] gets no property. *)
Definition data_query (args : json) : obj :=
  fold_left (fun query kv =>
               match data_entry (fst kv) (snd kv) with
               | Some (k, v) => if String.eqb k "__proto__" then query else put k v query
               | None => query
               end)
            (own_fields (Some args)) [].

(** [None] is null; otherwise [str] and [values].  ([args] is the query of
    the request, an object; [Object.keys] of null would throw.) *)
Definition buildDataConditions (args : json) (varCounter : Z) (column : string)
    : option (string * list json) :=
  let query := data_query args in
  if (0 <? List.length query)%nat then
    Some (" " ++ column ++ " @> $" ++ NilZero.string_of_int (Z.to_int (varCounter + 1))
              ++ "::jsonb ",
          [JStr (JSON_stringify (JObj query))])%string
  else None.

End Conversions.

Definition is_data_key (key : string) : bool :=
  String.prefix "data::text." key || String.prefix "data::number." key
  || String.prefix "data." key.



(** The conversions of the examples: strings as they are, numbers kept. *)
Definition as_text (v : json) : string :=
  match v with JStr s => s | _ => print_json v end.

Definition as_number (v : json) : json :=
  match v with JNum n => JNum n | _ => JNull end.

Definition asset_query : json :=
  JObj [("collection_name", JStr "heroes"); ("data.name", JStr "Knight");
        ("data::number.level", JNum 3); ("page", JStr "2")].


End DataConditions.

(** ** The formatters and the data conditions: vocabulary *)

Module FormatFacts.

Import Format.

(** The [data] object of an asset whose row has the properties [fs]. *)
Definition merged_of (fs : obj) : obj :=
  let merged :=
    assign (assign ([], ObjectPrototype) (get "mutable_data" fs)) (get "immutable_data" fs) in
  fst (if truthy (get "template" fs)
       then assign merged (prop "immutable_data" (get "template" fs))
       else merged).

Definition hidden_in_templates : list string :=
  ["schema_name"; "collection_name"; "authorized_accounts"].

Definition hidden_in_schemas : list string := ["collection_name"; "authorized_accounts"].

(** A row as the formatter of a kind of rows shows it: the hidden columns
    are gone, every other column is as in the row. *)
Definition shows (hidden : list string) (fs shown : obj) : Prop :=
  forall k, get k shown = if is_in k hidden then None else get k fs.

End FormatFacts.

(** ** The sockets
    (assetsSockets: src/src/api/namespaces/atomicassets/routes/collections.ts,
    lines 615 to 693; salesSockets:
    src/src/api/namespaces/atomicmarket/routes/auctions.ts, lines 296 to 370) *)

Module Sockets.

Import Format.

(** What a handler does to its socket and to the log. *)
Inductive action : Type :=
| LeaveAll
| Join (room : string)
| Emit (event : string) (payload : json)
| LogError (message : string).

(** [typeof v === 'object'] *)
Definition is_object (v : json) : bool :=
  match v with
  | JObj _ | JArr _ | JNull => true
  | _ => false
  end.

Definition limit_event (limit : Z) : action :=
  Emit "subscribe_limit" (JObj [("max_subscriptions", JNum limit)]).

(** One of the two loops over an array of the options: the actions, and the
    counter afterwards, or [None] when the handler has returned. *)
Fixpoint join_each (limit : Z) (prefix : string) (items : list json) (counter : Z)
    : list action * option Z :=
  match items with
  | [] => ([], Some counter)
  | JStr id :: rest =>
      if counter >? limit then ([limit_event limit], None)
      else
        let '(acts, c) := join_each limit prefix rest (counter + 1) in
        (Join (prefix ++ id) :: acts, c)
  | _ :: rest => join_each limit prefix rest counter
  end.

(** One of the two flags of the options. *)
Definition join_if (limit : Z) (room : string) (flag : bool) (counter : Z)
    : list action * option Z :=
  if flag then
    if counter >? limit then ([limit_event limit], None)
    else ([Join room], Some (counter + 1))
  else ([], Some counter).

Definition and_then (r : list action * option Z) (k : Z -> list action * option Z)
    : list action * option Z :=
  match r with
  | (acts, Some c) => let '(acts', c') := k c in (acts ++ acts', c')
  | (acts, None) => (acts, None)
  end.

(** [Array.isArray(v)] and the elements. *)
Definition array_items (v : option json) : list json :=
  match v with Some (JArr items) => items | _ => [] end.

(** [socket.on('subscribe', ...)] with the configured limit: the actions, and
    whether the handler threw (reading a property of null). *)
Definition subscribe (subscribeLimit : Z) (options : json) : list action * bool :=
  if negb (is_object options) then ([], false)
  else
    match options with
    | JNull => ([LeaveAll], true)
    | _ =>
        let field := fun k => prop k (Some options) in
        let r :=
          and_then (join_each subscribeLimit "assets:asset_id:"
                      (array_items (field "asset_ids")) 0) (fun c =>
          and_then (join_each subscribeLimit "assets:owner:"
                      (array_items (field "owners")) c) (fun c =>
          and_then (join_if subscribeLimit "assets:new_assets"
                      (truthy (field "new_assets")) c) (fun c =>
          join_if subscribeLimit "assets:updates" (truthy (field "updates")) c))) in
        (LeaveAll :: fst r, false)
    end.

(** *** Vocabulary of the properties *)

Definition strings (items : list json) : list string :=
  flat_map (fun x => match x with JStr s => [s] | _ => [] end) items.

(** The rooms the options ask for, in the order in which they are tried. *)
Definition requested (options : json) : list string :=
  map (String.append "assets:asset_id:") (strings (array_items (prop "asset_ids" (Some options))))
  ++ map (String.append "assets:owner:") (strings (array_items (prop "owners" (Some options))))
  ++ (if truthy (prop "new_assets" (Some options)) then ["assets:new_assets"] else [])
  ++ (if truthy (prop "updates" (Some options)) then ["assets:updates"] else []).

(** Joining a list of rooms one after the other under the limit. *)
Fixpoint join_rooms (limit : Z) (rooms : list string) (counter : Z) : list action * option Z :=
  match rooms with
  | [] => ([], Some counter)
  | room :: rest =>
      if counter >? limit then ([limit_event limit], None)
      else
        let '(acts, c) := join_rooms limit rest (counter + 1) in
        (Join room :: acts, c)
  end.

Definition joined (acts : list action) : list string :=
  flat_map (fun a => match a with Join r => [r] | _ => [] end) acts.

(** *** The sales socket *)

Definition saleChannelName (chain connected_reader atomicmarket_account : string) : string :=
  String.concat ":"
    ["eosio-contract-api"; chain; connected_reader; "atomicmarket"; atomicmarket_account;
     "sales"].

(** A property of an emitted record; undefined values are left out. *)
Definition optional (k : string) (v : option json) : list (string * json) :=
  match v with Some x => [(k, x)] | None => [] end.

Section SaleMessages.

(** [JSON.parse] ([None]: it throws), the SELECT of the sale with the given
    [sale_id] ([None]: it throws), and the formatter and the filler of
    sales. *)
Variable JSON_parse : string -> option json.
Variable find_sale : option json -> option (list json).
Variable formatSale : json -> option json.
Variable fillSales : list json -> option (list json).

(** The handler of a redis message; [None] when it throws. *)
Definition on_sale_message (saleChannel channel message : string) : option (list action) :=
  if negb (String.eqb channel saleChannel) then Some []
  else
    match JSON_parse message with
    | None => None
    | Some msg =>
        match prop "data" (Some msg) with
        | None => None
        | Some JNull => None
        | Some data =>
            match find_sale (prop "sale_id" (Some data)) with
            | None => None
            | Some [] =>
                Some [LogError "Received sale notification but did not find sale in database"]
            | Some rows =>
                match Api.map_option formatSale rows with
                | None => None
                | Some formatted =>
                    match fillSales formatted with
                    | None => None
                    | Some sales =>
                        let named := fun name =>
                          match prop "action" (Some msg) with
                          | Some (JStr a) => String.eqb a name
                          | _ => false
                          end in
                        if named "create" then
                          match hd_error sales with
                          | None | Some JNull => None
                          | Some sale =>
                              Some [Emit "new_sale"
                                      (JObj (optional "transaction" (prop "transaction" (Some msg))
                                             ++ optional "block" (prop "block" (Some msg))
                                             ++ optional "sale_id" (prop "sale_id" (Some sale))
                                             ++ [("sale", sale)]))]
                          end
                        else if named "state_change" then
                          match hd_error sales with
                          | None | Some JNull => None
                          | Some sale =>
                              Some [Emit "state_change"
                                      (JObj (optional "transaction" (prop "transaction" (Some msg))
                                             ++ optional "block" (prop "block" (Some msg))
                                             ++ optional "sale_id" (prop "sale_id" (Some sale))
                                             ++ optional "state" (prop "state" (Some sale))
                                             ++ [("sale", sale)]))]
                          end
                        else Some []
                    end
                end
            end
        end
    end.

End SaleMessages.

(** *** Examples *)

Definition many_rooms : json :=
  JObj [("asset_ids", JArr [JStr "1"; JNum 2; JStr "3"]);
        ("owners", JArr [JStr "alice"]);
        ("updates", JBool true)].

Definition sale5_row : json := JObj [("sale_id", JNum 5); ("state", JNum 1)].

(** A parser that knows the one message of the example. *)
Definition parse_created (message : string) : option json :=
  if String.eqb message (print_json Market.sale5_created) then Some Market.sale5_created
  else None.

Definition find_sale5 (sale_id : option json) : option (list json) :=
  match sale_id with
  | Some (JNum 5) => Some [sale5_row]
  | _ => Some []
  end.

Definition created_job : Market.NotificationJob :=
  {| Market.n_block := Market.block11; Market.n_tx := JNull; Market.n_prefix := "sales";
     Market.n_name := "create"; Market.n_data := Market.sale5;
     Market.n_trace := "actions.ts:60" |}.

End Sockets.

(** ** deleteDB (AtomicMarket: src/unnamed/part_000, lines 201 to 214;
    eosio.token: src/src/filler/handlers/eosio.token/index.ts, lines 64 to 75) *)

Module Db.

Import Format.

(** The tables of the database by name, each with its rows; [None] for a
    table that does not exist (a statement on it throws). *)
Definition database : Type := string -> option (list obj).

(** [column = $1] on a row, for a text value. *)
Definition column_is (column value : string) (r : obj) : bool :=
  match get column r with
  | Some (JStr s) => String.eqb s value
  | _ => false
  end.

(** [DELETE FROM table WHERE column = $1]: the rows whose column is the
    value go, the others stay in their order; the statement throws on a
    table that does not exist.  The tables are taken to have the column and
    no constraint to stop the removal of a row. *)
Definition delete_where (db : database) (table column value : string) : option database :=
  match db table with
  | None => None
  | Some rows =>
      Some (fun t => if String.eqb t table
                     then Some (filter (fun r => negb (column_is column value r)) rows)
                     else db t)
  end.

(** The loop over the tables; [None] when a statement throws. *)
Fixpoint delete_from_all (tables : list string) (column value : string) (db : database)
    : option database :=
  match tables with
  | [] => Some db
  | table :: rest =>
      match delete_where db table column value with
      | Some db' => delete_from_all rest column value db'
      | None => None
      end
  end.

Definition atomicmarket_tables : list string :=
  ["atomicmarket_auctions"; "atomicmarket_auctions_bids"; "atomicmarket_config";
   "atomicmarket_delphi_pairs"; "atomicmarket_marketplaces"; "atomicmarket_sales";
   "atomicmarket_token_symbols"].

Definition AtomicMarket_deleteDB (a : Market.AtomicMarketArgs) (db : database)
    : option database :=
  delete_from_all atomicmarket_tables "market_contract" (Market.atomicmarket_account a) db.

Definition token_tables : list string :=
  ["token_stats"; "token_supply_deltas"; "token_transfers"; "token_balances"].

(** [token_account] of the arguments of the eosio.token handler. *)
Definition EosioToken_deleteDB (token_account : string) (db : database) : option database :=
  delete_from_all token_tables "contract" token_account db.

(** *** Vocabulary of the properties *)

Definition kept (column value : string) (rows : list obj) : list obj :=
  filter (fun r => negb (column_is column value r)) rows.

(** [result] is [db] without the rows of [value] in [tables], or a throw
    because one of [tables] is missing. *)
Definition removes_only (tables : list string) (column value : string)
    (db : database) (result : option database) : Prop :=
  (result = None <-> exists t, In t tables /\ db t = None) /\
  forall db', result = Some db' ->
    (forall t, ~ In t tables -> db' t = db t) /\
    (forall t rows, In t tables -> db t = Some rows ->
       db' t = Some (kept column value rows) /\
       forall r, In r (kept column value rows) <->
                 In r rows /\ get column r <> Some (JStr value)).

(** *** A database for the examples: two markets side by side *)

Definition sale_of (market : string) (id : Z) : obj :=
  [("market_contract", JStr market); ("sale_id", JNum id)].

Definition two_markets : database :=
  fun t =>
    if String.eqb t "atomicmarket_sales"
    then Some [sale_of "atomicmarket" 1; sale_of "othermarket" 2; sale_of "atomicmarket" 3]
    else if String.eqb t "atomicmarket_tokens"
    then Some [[("market_contract", JStr "atomicmarket"); ("token_symbol", JStr "WAX")]]
    else if Format.is_in t atomicmarket_tables then Some []
    else None.

Definition token_row_of (contract : string) (owner : string) : obj :=
  [("contract", JStr contract); ("owner", JStr owner)].

Definition two_tokens : database :=
  fun t =>
    if String.eqb t "token_balances"
    then Some [token_row_of "eosio.token" "alice"; token_row_of "other.token" "bob"]
    else if Format.is_in t token_tables then Some []
    else None.

End Db.

(** ** init (src/unnamed/part_000, lines 97 to 199) *)

Module MarketInit.

(** The row of the contract's [config] table, as far as [init] reads it. *)
Record ConfigTableRow : Type := {
  version : string;
  atomicassets_account : string;
  delphioracle_account : string;
  maker_market_fee : json;
  taker_market_fee : json;
  minimum_auction_duration : json;
  maximum_auction_duration : json;
  minimum_bid_increase : json;
  auction_reset_duration : json
}.

(** A row of [atomicmarket_config]. *)
Record config_row : Type := {
  market_contract : string;
  asset_contract : string;
  delphi_contract : string;
  r_version : string;
  r_maker_market_fee : json;
  r_taker_market_fee : json;
  r_minimum_auction_duration : json;
  r_maximum_auction_duration : json;
  r_minimum_bid_increase : json;
  r_auction_reset_duration : json
}.

Record token_row : Type := {
  t_market_contract : string;
  t_token_contract : string;
  t_token_symbol : string;
  t_token_precision : Z
}.

Record pair_row : Type := {
  p_market_contract : string;
  p_listing_symbol : string;
  p_settlement_symbol : string;
  p_invert_delphi_pair : bool;
  p_delphi_pair_name : string
}.

(** The tables [init] touches; without [has_tables] they do not exist yet. *)
Record database : Type := {
  has_tables : bool;
  config_table : list config_row;
  tokens_table : list token_row;
  pairs_table : list pair_row
}.

Record symbol_pair : Type := {
  listing_symbol : string;
  settlement_symbol : string;
  invert_delphi_pair : bool;
  delphi_pair_name : string
}.

Record supported_token : Type := { token_contract : string; token_symbol : string }.

(** [this.config], as far as the two branches of [init] both fill it. *)
Record config : Type := {
  cfg_version : string;
  cfg_atomicassets_account : string;
  cfg_delphioracle_account : string;
  cfg_maker_market_fee : json;
  cfg_taker_market_fee : json;
  supported_symbol_pairs : list symbol_pair;
  supported_tokens : list supported_token
}.

Inductive outcome : Type :=
| Ready (args : Market.AtomicMarketArgs) (cfg : config) (db : database)
| Threw (message : string).

(** Running definitions/tables/atomicmarket_tables.sql. *)
Definition create_tables (db : database) : database :=
  {| has_tables := true; config_table := []; tokens_table := []; pairs_table := [] |}.

Definition stored_config (account : string) (db : database) : list config_row :=
  filter (fun r => String.eqb (market_contract r) account) (config_table db).

Definition precision_symbol (precision : Z) (symbol : string) : string :=
  (NilZero.string_of_int (Z.to_int precision) ++ "," ++ symbol)%string.

(** [rpc] is what [get_table_rows] of the chain gives for the contract's
    config table, [None] when the call throws. *)
Definition init (args : Market.AtomicMarketArgs) (db : database)
    (rpc : option (list ConfigTableRow)) : outcome :=
  let account := Market.atomicmarket_account args in
  let db := if has_tables db then db else create_tables db in
  match stored_config account db with
  | [] =>
      match rpc with
      | None => Threw "get_table_rows"
      | Some [] => Threw "AtomicMarket: Unable to fetch atomicmarket version"
      | Some (c :: _) =>
          let args' :=
            {| Market.atomicmarket_account := account;
               Market.atomicassets_account := atomicassets_account c;
               Market.delphioracle_account := delphioracle_account c |} in
          let row :=
            {| market_contract := account;
               asset_contract := Market.atomicassets_account args';
               delphi_contract := delphioracle_account c;
               r_version := version c;
               r_maker_market_fee := maker_market_fee c;
               r_taker_market_fee := taker_market_fee c;
               r_minimum_auction_duration := minimum_auction_duration c;
               r_maximum_auction_duration := maximum_auction_duration c;
               r_minimum_bid_increase := minimum_bid_increase c;
               r_auction_reset_duration := auction_reset_duration c |} in
          Ready args'
            {| cfg_version := version c;
               cfg_atomicassets_account := atomicassets_account c;
               cfg_delphioracle_account := delphioracle_account c;
               cfg_maker_market_fee := maker_market_fee c;
               cfg_taker_market_fee := taker_market_fee c;
               supported_symbol_pairs := [];
               supported_tokens := [] |}
            {| has_tables := true;
               config_table := config_table db ++ [row];
               tokens_table := tokens_table db;
               pairs_table := pairs_table db |}
      end
  | row :: _ =>
      let args' :=
        {| Market.atomicmarket_account := account;
           Market.atomicassets_account := asset_contract row;
           Market.delphioracle_account := delphi_contract row |} in
      Ready args'
        {| cfg_version := r_version row;
           cfg_atomicassets_account := Market.atomicassets_account args';
           cfg_delphioracle_account := Market.delphioracle_account args';
           cfg_maker_market_fee := r_maker_market_fee row;
           cfg_taker_market_fee := r_taker_market_fee row;
           supported_symbol_pairs :=
             map (fun p => {| listing_symbol := "X," ++ p_listing_symbol p;
                              settlement_symbol := "X," ++ p_settlement_symbol p;
                              invert_delphi_pair := p_invert_delphi_pair p;
                              delphi_pair_name := p_delphi_pair_name p |})
                 (filter (fun p => String.eqb (p_market_contract p) account) (pairs_table db));
           supported_tokens :=
             map (fun t => {| token_contract := t_token_contract t;
                              token_symbol := precision_symbol (t_token_precision t)
                                                (t_token_symbol t) |})
                 (filter (fun t => String.eqb (t_market_contract t) account) (tokens_table db)) |}
        db
  end%string.

(** *** Examples *)

Definition empty_database : database :=
  {| has_tables := false; config_table := []; tokens_table := []; pairs_table := [] |}.

Definition chain_config : ConfigTableRow :=
  {| version := "1.0.0"; atomicassets_account := "atomicassets";
     delphioracle_account := "delphioracle";
     maker_market_fee := JStr "0.01"; taker_market_fee := JStr "0.01";
     minimum_auction_duration := JNum 120; maximum_auction_duration := JNum 2592000;
     minimum_bid_increase := JStr "0.1"; auction_reset_duration := JNum 120 |}.

Definition first_start : Market.AtomicMarketArgs :=
  {| Market.atomicmarket_account := "atomicmarket";
     Market.atomicassets_account := ""; Market.delphioracle_account := "" |}.

End MarketInit.

(** ** The query filters (src/src/api/namespaces/atomicassets/format.ts,
    buildAssetFilter, lines 109 to 194, and buildGreylistFilter, lines 196
    to 232) *)

Module Filters.

Import Format.

Definition number (n : Z) : string := NilZero.string_of_int (Z.to_int n).

(** [s.split(',')] *)
Fixpoint split_commas (s : string) : list string :=
  match s with
  | EmptyString => [EmptyString]
  | String c rest =>
      if Ascii.eqb c ","%char then EmptyString :: split_commas rest
      else match split_commas rest with
           | first :: others => String c first :: others
           | [] => [String c EmptyString]
           end
  end.

Definition csv (s : string) : json := JArr (map JStr (split_commas s)).

(** [if (a)] on an argument that is a string or undefined. *)
Definition given (a : option string) : option string :=
  match a with
  | Some EmptyString => None
  | _ => a
  end.

(** A table name put into a string: undefined reads as its name. *)
Definition named (table : option string) : string :=
  match table with Some t => t | None => "undefined" end.

Record filter : Type := { str : string; values : list json }.

(** The arguments [filterQueryArgs] hands to buildGreylistFilter. *)
Record greylist_args : Type := {
  collection_blacklist : option string;
  collection_whitelist : option string;
  account_blacklist : option string
}.

Fixpoint account_conditions (varCount : Z) (accountColumns : list string) : string :=
  match accountColumns with
  | [] => ""
  | column :: rest =>
      "AND NOT (" ++ column ++ " = ANY ($" ++ number varCount ++ ")) "
        ++ account_conditions varCount rest
  end%string.

Definition buildGreylistFilter (args : greylist_args) (varOffset : Z)
    (collectionColumn : string) (accountColumns : list string) : filter :=
  let queryString := "" in
  let queryValues := [] in
  let varCounter := varOffset in
  let '(queryString, queryValues, varCounter) :=
    match given (collection_blacklist args) with
    | Some l =>
        ((queryString ++ "AND NOT (" ++ collectionColumn ++ " = ANY ($"
            ++ number (varCounter + 1) ++ ")) ")%string,
         queryValues ++ [csv l], varCounter + 1)
    | None => (queryString, queryValues, varCounter)
    end in
  let '(queryString, queryValues, varCounter) :=
    match given (collection_whitelist args) with
    | Some l =>
        ((queryString ++ "AND " ++ collectionColumn ++ " = ANY ($"
            ++ number (varCounter + 1) ++ ") ")%string,
         queryValues ++ [csv l], varCounter + 1)
    | None => (queryString, queryValues, varCounter)
    end in
  let '(queryString, queryValues, varCounter) :=
    match given (account_blacklist args) with
    | Some l =>
        let varCount := varCounter + 1 in
        ((queryString ++ account_conditions varCount accountColumns)%string,
         queryValues ++ [csv l], varCounter + 1)
    | None => (queryString, queryValues, varCounter)
    end in
  {| str := queryString; values := queryValues |}.

(** The arguments [filterQueryArgs] hands to buildAssetFilter. *)
Record asset_args : Type := {
  owner : option string;
  template_id : option string;
  collection_name : option string;
  schema_name : option string;
  match_ : option string;
  is_transferable : option bool;
  is_burnable : option bool
}.

(** [conditions.join(' AND ')] *)
Fixpoint join_and (conditions : list string) : string :=
  match conditions with
  | [] => ""
  | [c] => c
  | c :: rest => c ++ " AND " ++ join_and rest
  end%string.

Definition data_table : string := (dquote ++ "data_table" ++ dquote)%string.

Section AssetFilter.

Variable js_String : json -> string.
Variable parseFloat : json -> json.
Variable JSON_stringify : json -> string.
Variable toLowerCase : string -> string.

(** [query] is [req.query]. *)
Definition buildAssetFilter (args : asset_args) (query : json) (varOffset : Z)
    (assetTable templateTable : option string) : filter :=
  let queryString := "" in
  let queryValues := [] in
  let varCounter := varOffset in
  let conditions := [] in
  let '(queryValues, varCounter, conditions) :=
    match given (collection_name args) with
    | Some _ =>
        match DataConditions.buildDataConditions js_String parseFloat JSON_stringify
                query varCounter (data_table ++ ".data")%string with
        | Some (dstr, dvalues) =>
            (queryValues ++ dvalues, varCounter + Z.of_nat (List.length dvalues),
             conditions ++ [dstr])
        | None => (queryValues, varCounter, conditions)
        end
    | None => (queryValues, varCounter, conditions)
    end in
  let '(queryValues, varCounter, conditions) :=
    match given (match_ args) with
    | Some m =>
        (queryValues ++ [JStr (toLowerCase m)], varCounter + 1,
         conditions ++
           [(data_table ++ ".data->>'name' IS NOT NULL AND "
               ++ "POSITION($" ++ number (varCounter + 1) ++ " IN LOWER(" ++ data_table
               ++ ".data->>'name')) > 0")%string])
    | None => (queryValues, varCounter, conditions)
    end in
  let queryString :=
    if (0 <? List.length conditions)%nat
    then (queryString ++ "AND EXISTS ("
            ++ "SELECT * FROM atomicassets_asset_data " ++ data_table ++ " "
            ++ "WHERE " ++ data_table ++ ".contract = " ++ named assetTable ++ ".contract AND "
            ++ data_table ++ ".asset_id = " ++ named assetTable ++ ".asset_id AND "
            ++ join_and conditions ++ ") ")%string
    else queryString in
  let '(queryString, queryValues, varCounter) :=
    match given (owner args) with
    | Some l =>
        ((queryString ++ "AND " ++ named assetTable ++ ".owner = ANY($"
            ++ number (varCounter + 1) ++ ") ")%string,
         queryValues ++ [csv l], varCounter + 1)
    | None => (queryString, queryValues, varCounter)
    end in
  let '(queryString, queryValues, varCounter) :=
    match given (template_id args) with
    | Some l =>
        ((queryString ++ "AND " ++ named assetTable ++ ".template_id = ANY($"
            ++ number (varCounter + 1) ++ ") ")%string,
         queryValues ++ [csv l], varCounter + 1)
    | None => (queryString, queryValues, varCounter)
    end in
  let '(queryString, queryValues, varCounter) :=
    match given (collection_name args) with
    | Some l =>
        ((queryString ++ "AND " ++ named assetTable ++ ".collection_name = ANY ($"
            ++ number (varCounter + 1) ++ ") ")%string,
         queryValues ++ [csv l], varCounter + 1)
    | None => (queryString, queryValues, varCounter)
    end in
  let '(queryString, queryValues, varCounter) :=
    match given (schema_name args) with
    | Some l =>
        ((queryString ++ "AND " ++ named assetTable ++ ".schema_name = ANY($"
            ++ number (varCounter + 1) ++ ") ")%string,
         queryValues ++ [csv l], varCounter + 1)
    | None => (queryString, queryValues, varCounter)
    end in
  let queryString :=
    match given templateTable, is_transferable args with
    | Some t, Some true =>
        (queryString ++ "AND (" ++ t ++ ".transferable IS NULL OR  " ++ t
           ++ ".transferable = TRUE) ")%string
    | Some t, Some false => (queryString ++ "AND " ++ t ++ ".transferable = FALSE ")%string
    | _, _ => queryString
    end in
  let queryString :=
    match given templateTable, is_burnable args with
    | Some t, Some true =>
        (queryString ++ "AND (" ++ t ++ ".burnable IS NULL OR  " ++ t
           ++ ".burnable = TRUE) ")%string
    | Some t, Some false => (queryString ++ "AND " ++ t ++ ".burnable = FALSE ")%string
    | _, _ => queryString
    end in
  {| values := queryValues; str := queryString |}.

End AssetFilter.

(** *** The text of a filter in pieces

    The same two builders with the text kept in pieces, a placeholder
    [$n] being a piece of its own; [render] gives the text back. *)

Inductive piece : Type :=
| Text (s : string)
| Var (n : Z).

Definition render_piece (p : piece) : string :=
  match p with
  | Text s => s
  | Var n => "$" ++ number n
  end%string.

Fixpoint render (ps : list piece) : string :=
  match ps with
  | [] => ""
  | p :: rest => render_piece p ++ render rest
  end%string.

(** The numbers of the placeholders of a text, in the order they stand. *)
Fixpoint vars (ps : list piece) : list Z :=
  match ps with
  | [] => []
  | Var n :: rest => n :: vars rest
  | Text _ :: rest => vars rest
  end.

(** [n + 1], ..., [n + k] *)
Fixpoint consecutive (n : Z) (k : nat) : list Z :=
  match k with
  | O => []
  | S k' => (n + 1) :: consecutive (n + 1) k'
  end.

Fixpoint account_pieces (varCount : Z) (accountColumns : list string) : list piece :=
  match accountColumns with
  | [] => []
  | column :: rest =>
      [Text "AND NOT ("; Text column; Text " = ANY ("; Var varCount; Text ")) "]
        ++ account_pieces varCount rest
  end.

Definition greylist_pieces (args : greylist_args) (varOffset : Z)
    (collectionColumn : string) (accountColumns : list string) : list piece :=
  let varCounter := varOffset in
  let '(ps1, varCounter) :=
    match given (collection_blacklist args) with
    | Some _ =>
        ([Text "AND NOT ("; Text collectionColumn; Text " = ANY ("; Var (varCounter + 1);
          Text ")) "], varCounter + 1)
    | None => ([], varCounter)
    end in
  let '(ps2, varCounter) :=
    match given (collection_whitelist args) with
    | Some _ =>
        ([Text "AND "; Text collectionColumn; Text " = ANY ("; Var (varCounter + 1);
          Text ") "], varCounter + 1)
    | None => ([], varCounter)
    end in
  let ps3 :=
    match given (account_blacklist args) with
    | Some _ => account_pieces (varCounter + 1) accountColumns
    | None => []
    end in
  ps1 ++ ps2 ++ ps3.

Fixpoint join_pieces (conditions : list (list piece)) : list piece :=
  match conditions with
  | [] => []
  | [c] => c
  | c :: rest => c ++ [Text " AND "] ++ join_pieces rest
  end.

(** The state of the builder between two steps: the text and the values
    so far, and the counter. *)
Definition builder : Type := (string * list json * Z)%type.

Definition pieces_so_far : Type := (list piece * Z)%type.

(** One of the four [= ANY($n)] conditions on a column of the asset table,
    in text and in pieces. *)
Definition any_step (assetTable : option string) (column : string) (arg : option string)
    (st : builder) : builder :=
  let '(queryString, queryValues, varCounter) := st in
  match given arg with
  | Some l =>
      ((queryString ++ "AND " ++ named assetTable ++ column
          ++ number (varCounter + 1) ++ ") ")%string,
       queryValues ++ [csv l], varCounter + 1)
  | None => (queryString, queryValues, varCounter)
  end.

Definition any_pieces (assetTable : option string) (column : string) (arg : option string)
    (st : pieces_so_far) : pieces_so_far :=
  let '(ps, varCounter) := st in
  match given arg with
  | Some _ =>
      (ps ++ [Text "AND "; Text (named assetTable); Text column; Var (varCounter + 1);
              Text ") "], varCounter + 1)
  | None => (ps, varCounter)
  end.

(** The conditions on the template table, which have no placeholder. *)
Definition flags_step (templateTable : option string) (args : asset_args)
    (queryString : string) : string :=
  let queryString :=
    match given templateTable, is_transferable args with
    | Some t, Some true =>
        (queryString ++ "AND (" ++ t ++ ".transferable IS NULL OR  " ++ t
           ++ ".transferable = TRUE) ")%string
    | Some t, Some false => (queryString ++ "AND " ++ t ++ ".transferable = FALSE ")%string
    | _, _ => queryString
    end in
  let queryString :=
    match given templateTable, is_burnable args with
    | Some t, Some true =>
        (queryString ++ "AND (" ++ t ++ ".burnable IS NULL OR  " ++ t
           ++ ".burnable = TRUE) ")%string
    | Some t, Some false => (queryString ++ "AND " ++ t ++ ".burnable = FALSE ")%string
    | _, _ => queryString
    end in
  queryString.

Definition flag_pieces (templateTable : option string) (args : asset_args) : list piece :=
  match given templateTable, is_transferable args with
  | Some t, Some true =>
      [Text ("AND (" ++ t ++ ".transferable IS NULL OR  " ++ t ++ ".transferable = TRUE) ")%string]
  | Some t, Some false => [Text ("AND " ++ t ++ ".transferable = FALSE ")%string]
  | _, _ => []
  end ++
  match given templateTable, is_burnable args with
  | Some t, Some true =>
      [Text ("AND (" ++ t ++ ".burnable IS NULL OR  " ++ t ++ ".burnable = TRUE) ")%string]
  | Some t, Some false => [Text ("AND " ++ t ++ ".burnable = FALSE ")%string]
  | _, _ => []
  end.

Section AssetPieces.

Variable js_String : json -> string.
Variable parseFloat : json -> json.
Variable JSON_stringify : json -> string.
Variable toLowerCase : string -> string.

(** The first step, up to the [EXISTS] condition on the data of the asset. *)
Definition exists_step (args : asset_args) (query : json) (varOffset : Z)
    (assetTable : option string) : builder :=
  let queryString := "" in
  let queryValues := [] in
  let varCounter := varOffset in
  let conditions := [] in
  let '(queryValues, varCounter, conditions) :=
    match given (collection_name args) with
    | Some _ =>
        match DataConditions.buildDataConditions js_String parseFloat JSON_stringify
                query varCounter (data_table ++ ".data")%string with
        | Some (dstr, dvalues) =>
            (queryValues ++ dvalues, varCounter + Z.of_nat (List.length dvalues),
             conditions ++ [dstr])
        | None => (queryValues, varCounter, conditions)
        end
    | None => (queryValues, varCounter, conditions)
    end in
  let '(queryValues, varCounter, conditions) :=
    match given (match_ args) with
    | Some m =>
        (queryValues ++ [JStr (toLowerCase m)], varCounter + 1,
         conditions ++
           [(data_table ++ ".data->>'name' IS NOT NULL AND "
               ++ "POSITION($" ++ number (varCounter + 1) ++ " IN LOWER(" ++ data_table
               ++ ".data->>'name')) > 0")%string])
    | None => (queryValues, varCounter, conditions)
    end in
  let queryString :=
    if (0 <? List.length conditions)%nat
    then (queryString ++ "AND EXISTS ("
            ++ "SELECT * FROM atomicassets_asset_data " ++ data_table ++ " "
            ++ "WHERE " ++ data_table ++ ".contract = " ++ named assetTable ++ ".contract AND "
            ++ data_table ++ ".asset_id = " ++ named assetTable ++ ".asset_id AND "
            ++ join_and conditions ++ ") ")%string
    else queryString in
  (queryString, queryValues, varCounter).

(** [buildAssetFilter] as the sequence of its steps. *)
Definition buildAssetFilter_steps (args : asset_args) (query : json) (varOffset : Z)
    (assetTable templateTable : option string) : filter :=
  let '(queryString, queryValues, _) :=
    any_step assetTable ".schema_name = ANY($" (schema_name args)
      (any_step assetTable ".collection_name = ANY ($" (collection_name args)
         (any_step assetTable ".template_id = ANY($" (template_id args)
            (any_step assetTable ".owner = ANY($" (owner args)
               (exists_step args query varOffset assetTable)))) in
  {| values := queryValues; str := flags_step templateTable args queryString |}.

Definition exists_pieces (args : asset_args) (query : json) (varOffset : Z)
    (assetTable : option string) : pieces_so_far :=
  let varCounter := varOffset in
  let '(varCounter, conditions) :=
    match given (collection_name args) with
    | Some _ =>
        match DataConditions.buildDataConditions js_String parseFloat JSON_stringify
                query varCounter (data_table ++ ".data")%string with
        | Some (_, dvalues) =>
            (varCounter + Z.of_nat (List.length dvalues),
             [[Text " "; Text (data_table ++ ".data")%string; Text " @> ";
               Var (varCounter + 1); Text "::jsonb "]])
        | None => (varCounter, [])
        end
    | None => (varCounter, [])
    end in
  let '(varCounter, conditions) :=
    match given (match_ args) with
    | Some _ =>
        (varCounter + 1,
         conditions ++
           [[Text (data_table ++ ".data->>'name' IS NOT NULL AND " ++ "POSITION(")%string;
             Var (varCounter + 1);
             Text (" IN LOWER(" ++ data_table ++ ".data->>'name')) > 0")%string]])
    | None => (varCounter, conditions)
    end in
  (if (0 <? List.length conditions)%nat
   then [Text ("AND EXISTS ("
                 ++ "SELECT * FROM atomicassets_asset_data " ++ data_table ++ " "
                 ++ "WHERE " ++ data_table ++ ".contract = " ++ named assetTable
                 ++ ".contract AND "
                 ++ data_table ++ ".asset_id = " ++ named assetTable ++ ".asset_id AND ")%string]
          ++ join_pieces conditions ++ [Text ") "]
   else [],
   varCounter).

Definition asset_pieces (args : asset_args) (query : json) (varOffset : Z)
    (assetTable templateTable : option string) : list piece :=
  let '(ps, _) :=
    any_pieces assetTable ".schema_name = ANY(" (schema_name args)
      (any_pieces assetTable ".collection_name = ANY (" (collection_name args)
         (any_pieces assetTable ".template_id = ANY(" (template_id args)
            (any_pieces assetTable ".owner = ANY(" (owner args)
               (exists_pieces args query varOffset assetTable)))) in
  ps ++ flag_pieces templateTable args.

End AssetPieces.

(** *** Examples *)

Definition no_greylist : greylist_args :=
  {| collection_blacklist := None; collection_whitelist := None; account_blacklist := None |}.

Definition accounts_only : greylist_args :=
  {| collection_blacklist := None; collection_whitelist := None;
     account_blacklist := Some "mallory,eve" |}.

Definition whole_greylist : greylist_args :=
  {| collection_blacklist := Some "spam"; collection_whitelist := Some "heroes,villains";
     account_blacklist := Some "mallory" |}.

Definition heroes_of_alice : asset_args :=
  {| owner := Some "alice"; template_id := None; collection_name := Some "heroes";
     schema_name := None; match_ := Some "Knight"; is_transferable := Some true;
     is_burnable := None |}.

(** A [toLowerCase] for the examples, on the letters A to Z. *)
Fixpoint lower (s : string) : string :=
  match s with
  | EmptyString => EmptyString
  | String c rest =>
      let n := Ascii.nat_of_ascii c in
      String (if ((65 <=? n) && (n <=? 90))%nat then Ascii.ascii_of_nat (n + 32) else c)
             (lower rest)
  end.

End Filters.

(** ** The asset events of the assets socket
    (src/src/api/namespaces/atomicassets/routes/collections.ts, lines 702 to
    771) *)

Module AssetEvents.

Import Format Sockets.

(** What the handler of a message does: an event to the sockets of some
    rooms, or a line in the log. *)
Inductive effect : Type :=
| To (rooms : list string) (event : string) (payload : json)
| Logged (message : string).

Definition assetChannelName (chain atomicassets_account : string) : string :=
  String.concat ":" ["eosio-contract-api"; chain; "atomicassets"; atomicassets_account; "assets"].

(** [msg.action === name] *)
Definition is_action (msg : json) (name : string) : bool :=
  match prop "action" (Some msg) with
  | Some (JStr a) => String.eqb a name
  | _ => false
  end.

Section AssetMessages.

(** [JSON.parse] ([None]: it throws), the SELECT of the asset with the given
    [asset_id] ([None]: it throws), and the text of a number, an array or an
    object when it is added to a string. *)
Variable JSON_parse : string -> option json.
Variable find_asset : option json -> option (list json).
Variable js_String : option json -> string.

(** ['prefix' + v]: what [v] adds to the string.  The owner of a burned
    asset is NULL in the database and reads as null. *)
Definition text (v : option json) : string :=
  match v with
  | Some (JStr s) => s
  | Some JNull => "null"
  | None => "undefined"
  | Some (JBool true) => "true"
  | Some (JBool false) => "false"
  | _ => js_String v
  end.

Definition event_body (msg asset : json) (more : list (string * json)) : json :=
  JObj (optional "transaction" (prop "transaction" (Some msg))
        ++ optional "block" (prop "block" (Some msg))
        ++ [("asset", JObj (formatAsset asset))]
        ++ more).

(** The handler of a redis message; [None] when it throws. *)
Definition on_asset_message (assetChannel channel message : string) : option (list effect) :=
  if negb (String.eqb channel assetChannel) then Some []
  else
    match JSON_parse message with
    | None => None
    | Some msg =>
        match prop "data" (Some msg) with
        | None => None
        | Some JNull => None
        | Some data =>
            match find_asset (prop "asset_id" (Some data)) with
            | None => None
            | Some [] =>
                Some [Logged "Received asset notification but did not find it in database"]
            | Some (JNull :: _) => None
            | Some (asset :: _) =>
                let rooms :=
                  [("assets:owner:" ++ text (prop "owner" (Some asset)))%string;
                   ("assets:asset_id:" ++ text (prop "asset_id" (Some asset)))%string] in
                if is_action msg "mint" then
                  Some [To (rooms ++ ["assets:new_assets"]) "new_asset"
                          (event_body msg asset [])]
                else if is_action msg "burn" then
                  Some [To (rooms ++ ["assets:updates"]) "burn" (event_body msg asset [])]
                else if is_action msg "back" then
                  Some [To (rooms ++ ["assets:updates"]) "back"
                          (event_body msg asset (optional "trace" (prop "trace" (Some data))))]
                else if is_action msg "update" then
                  Some [To (rooms ++ ["assets:updates"]) "update"
                          (event_body msg asset (optional "delta" (prop "delta" (Some data))))]
                else Some []
            end
        end
    end.

End AssetMessages.

(** *** Vocabulary of the properties *)

(** An event to [rooms] reaches a socket that is in the rooms [mine]. *)
Definition reaches (mine rooms : list string) : bool :=
  existsb (fun r => is_in r mine) rooms.

(** The rooms of a socket after it has subscribed with [options]. *)
Definition rooms_after (subscribeLimit : Z) (options : json) : list string :=
  joined (fst (subscribe subscribeLimit options)).

(** *** Examples *)

Definition minted : json :=
  JObj [("transaction", JStr "ab12"); ("block", JObj [("block_num", JNum 11)]);
        ("action", JStr "mint"); ("data", JObj [("asset_id", JStr "1099511627776")])].

Definition updated : json :=
  JObj [("action", JStr "update");
        ("data", JObj [("asset_id", JStr "1099511627776"); ("delta", JArr [])])].

Definition burned : json :=
  JObj [("action", JStr "burn"); ("data", JObj [("asset_id", JStr "42")])].

Definition parse_asset_event (message : string) : option json :=
  if String.eqb message "mint" then Some minted
  else if String.eqb message "update" then Some updated
  else if String.eqb message "burn" then Some burned
  else None.

(** Asset 42 as it is stored once it is burned: without an owner. *)
Definition burned_row : json :=
  JObj [("asset_id", JStr "42"); ("owner", JNull)].

Definition find_knight (asset_id : option json) : option (list json) :=
  match asset_id with
  | Some (JStr "1099511627776") => Some [asset_row]
  | Some (JStr "42") => Some [burned_row]
  | _ => Some []
  end.

(** A subscription to the assets of the account named null. *)
Definition watch_null : json := JObj [("owners", JArr [JStr "null"])].

Definition only_new_assets : json := JObj [("new_assets", JBool true)].

Definition watch_knight : json :=
  JObj [("asset_ids", JArr [JStr "1099511627776"])].

End AssetEvents.

(** * Properties *)

(** Splits a conjunction into its parts, without unfolding definitions. *)
Ltac parts := repeat match goal with |- _ /\ _ => split end.

(** ** The priority queue *)

Section EnqueueFacts.

Context {A : Type}.

Import PQueue.

Lemma enqueue_perm (p : Z) (r : A) (l : list (Z * A)) :
  Permutation (PQueue.enqueue p r l) ((p, r) :: l).
Proof.
  induction l as [|[p' r'] l IH]; simpl.
  - apply Permutation_refl.
  - destruct (p' <? p).
    + apply Permutation_refl.
    + eapply perm_trans; [apply perm_skip, IH | apply perm_swap].
Qed.

Lemma enqueue_In (p : Z) (r : A) (l : list (Z * A)) (x : Z * A) :
  In x (PQueue.enqueue p r l) -> x = (p, r) \/ In x l.
Proof.
  intros H. apply (Permutation_in _ (enqueue_perm p r l)) in H.
  destruct H as [H|H]; auto.
Qed.

Lemma enqueue_sorted (p : Z) (r : A) (l : list (Z * A)) :
  StronglySorted prio_ge l -> StronglySorted prio_ge (PQueue.enqueue p r l).
Proof.
  induction 1 as [|[p' r'] l Hs IH Hall]; simpl.
  - repeat constructor.
  - destruct (p' <? p) eqn:E.
    + apply Z.ltb_lt in E. constructor.
      * constructor; assumption.
      * constructor; [unfold prio_ge; simpl; lia|].
        rewrite Forall_forall in *. intros x Hx. specialize (Hall x Hx).
        unfold prio_ge in *; simpl in *; lia.
    + apply Z.ltb_ge in E. constructor; [exact IH|].
      rewrite Forall_forall in *. intros x Hx.
      destruct (enqueue_In _ _ _ _ Hx) as [->|Hin].
      * unfold prio_ge; simpl; lia.
      * apply Hall, Hin.
Qed.

Lemma by_priority_none (p : Z) (l : list (Z * A)) :
  Forall (fun x => fst x < p) l -> by_priority p l = [].
Proof.
  induction 1 as [|x l Hx _ IH]; simpl; [reflexivity|].
  destruct (fst x =? p) eqn:E; [apply Z.eqb_eq in E; lia | exact IH].
Qed.

(** Among equal priorities the new job goes last. *)
Lemma enqueue_fifo (p : Z) (r : A) (l : list (Z * A)) (k : Z) :
  StronglySorted prio_ge l ->
  by_priority k (PQueue.enqueue p r l) = by_priority k (l ++ [(p, r)]).
Proof.
  induction 1 as [|[p' r'] l Hs IH Hall]; simpl; [reflexivity|].
  destruct (p' <? p) eqn:E.
  - apply Z.ltb_lt in E. simpl.
    destruct (p =? k) eqn:Ek.
    + apply Z.eqb_eq in Ek; subst k.
      assert (Hp' : (p' =? p) = false) by (apply Z.eqb_neq; lia).
      rewrite Hp'. unfold by_priority in *. rewrite filter_app. simpl.
      rewrite Z.eqb_refl.
      assert (Hnone : filter (fun x : Z * A => fst x =? p) l = []).
      { apply by_priority_none. rewrite Forall_forall in *. intros x Hx.
        specialize (Hall x Hx). unfold prio_ge in Hall; simpl in Hall; lia. }
      rewrite Hnone. reflexivity.
    + unfold by_priority. rewrite (filter_app _ l). simpl. rewrite Ek.
      rewrite app_nil_r. reflexivity.
  - simpl. destruct (p' =? k); [f_equal|]; exact IH.
Qed.

Lemma build_perm (js q : list (Z * A)) : Permutation (build q js) (q ++ js).
Proof.
  revert q. induction js as [|[p r] js IH]; intros q; simpl.
  - rewrite app_nil_r. apply Permutation_refl.
  - eapply perm_trans; [apply IH|].
    eapply perm_trans; [apply Permutation_app_tail, enqueue_perm|].
    simpl. apply Permutation_middle.
Qed.

Lemma build_sorted (js q : list (Z * A)) :
  StronglySorted prio_ge q -> StronglySorted prio_ge (build q js).
Proof.
  revert q. induction js as [|[p r] js IH]; intros q Hq; simpl; [exact Hq|].
  apply IH, enqueue_sorted, Hq.
Qed.

Lemma build_fifo (js q : list (Z * A)) (k : Z) :
  StronglySorted prio_ge q ->
  by_priority k (build q js) = by_priority k (q ++ js).
Proof.
  revert q. induction js as [|[p r] js IH]; intros q Hq; simpl.
  - rewrite app_nil_r. reflexivity.
  - rewrite IH by (apply enqueue_sorted, Hq).
    unfold by_priority in *. rewrite !filter_app.
    fold (by_priority k (PQueue.enqueue p r q)).
    rewrite (enqueue_fifo p r q k Hq). unfold by_priority.
    rewrite filter_app. simpl. rewrite <- app_assoc.
    destruct (p =? k); reflexivity.
Qed.

(** With every queued priority at 0, a job of priority 0 is appended. *)
Lemma enqueue_zero (r : A) (l : list A) :
  PQueue.enqueue 0 r (map (fun j => (0, j)) l) = map (fun j => (0, j)) (l ++ [r]).
Proof.
  induction l as [|a l IH]; simpl; [reflexivity|]. rewrite IH. reflexivity.
Qed.

End EnqueueFacts.

(** ** The handler: traces *)

Import Market.

Lemma publishes_app (a b : list event) : publishes (a ++ b) = publishes a ++ publishes b.
Proof. apply flat_map_app. Qed.

Lemma started_app (a b : list event) : started (a ++ b) = started a ++ started b.
Proof. apply flat_map_app. Qed.

Lemma db_writes_app (a b : list event) : db_writes (a ++ b) = db_writes a ++ db_writes b.
Proof. apply flat_map_app. Qed.

Lemma completed_app (a b : list event) : (completed (a ++ b) = completed a + completed b)%nat.
Proof. unfold completed. rewrite filter_app, length_app. reflexivity. Qed.

(** A trace of database statements only. *)
Lemma db_trace_facts (ws : list string) :
  publishes (map EvDb ws) = [] /\ started (map EvDb ws) = [] /\
  completed (map EvDb ws) = 0%nat /\ db_writes (map EvDb ws) = ws /\
  forall b rest, serial_from b (map EvDb ws ++ rest) = serial_from b rest.
Proof.
  induction ws as [|w ws (Hp & Hs & Hc & Hd & Hser)]; simpl.
  - repeat split; reflexivity.
  - repeat split; try assumption. f_equal. exact Hd.
Qed.

(** ** The handler: one hook at a time *)

Lemma same_core_refl (h : AtomicMarketHandler) : same_core h h.
Proof. repeat split. Qed.

Lemma same_core_trans (a b c : AtomicMarketHandler) :
  same_core a b -> same_core b c -> same_core a c.
Proof.
  unfold same_core. intros (A1 & A2 & A3 & A4 & A5 & A6) (B1 & B2 & B3 & B4 & B5 & B6).
  repeat split; congruence.
Qed.

Lemma push_gate (h : AtomicMarketHandler) b tx p n d st :
  reversible h = false -> pushNotificiation h b tx p n d st = h.
Proof. intros H. unfold pushNotificiation. rewrite H. reflexivity. Qed.

Lemma push_same_core (h : AtomicMarketHandler) b tx p n d st :
  same_core h (pushNotificiation h b tx p n d st).
Proof.
  unfold pushNotificiation. destruct (negb (reversible h)).
  - apply same_core_refl.
  - repeat split.
Qed.

Lemma push_staging (h : AtomicMarketHandler) b tx p n d st :
  staging h -> staging (pushNotificiation h b tx p n d st).
Proof.
  intros [Hp Hq]. unfold pushNotificiation. destruct (negb (reversible h)).
  - split; assumption.
  - split; simpl; [exact Hp|].
    rewrite Hq, enqueue_zero, !map_app. reflexivity.
Qed.

Lemma run_fn_spec (ss : list stmt) :
  forall h h' tr r, run_fn h ss = (h', tr, r) ->
    same_core h h' /\ (staging h -> staging h') /\
    (reversible h = false -> h' = h) /\
    (r = None <-> job_ok {| u_fn := ss; u_trace := "" |} = true) /\
    exists ws, tr = map EvDb ws /\ ws = writes_until_throw ss /\
               (r = None -> ws = stmt_writes ss).
Proof.
  unfold job_ok; simpl.
  induction ss as [|s ss IH]; intros h h' tr r H; simpl in H.
  - inversion H; subst. parts; try tauto.
    + apply same_core_refl.
    + exists []. parts; reflexivity.
  - destruct s as [sql | b tx p n d st | e].
    + destruct (run_fn h ss) as [[h1 tr1] r1] eqn:E. inversion H; subst.
      destruct (IH _ _ _ _ E) as (Hc & Hs & Hg & Hok & ws & Htr & Hrun & Hws).
      parts; try assumption.
      exists (sql :: ws). parts; [simpl; f_equal; exact Htr | simpl; f_equal; exact Hrun |].
      intros Hr. simpl. f_equal. apply Hws, Hr.
    + destruct (IH _ _ _ _ H) as (Hc & Hs & Hg & Hok & ws & Htr & Hrun & Hws).
      parts.
      * eapply same_core_trans; [apply push_same_core | exact Hc].
      * intros Hst. apply Hs, push_staging, Hst.
      * intros Hr. rewrite (push_gate h) in Hg by exact Hr. apply Hg, Hr.
      * exact Hok.
      * exists ws. parts; [exact Htr | exact Hrun |]. simpl. exact Hws.
    + inversion H; subst. parts; try tauto.
      * apply same_core_refl.
      * split; discriminate.
      * exists []. parts; [reflexivity | reflexivity | discriminate].
Qed.

(** The trace of one job is a block [EvJobStart ... EvJobEnd]. *)
Lemma run_update_job_spec (h : AtomicMarketHandler) (p : Z) (job : UpdateJob) :
  forall h' tr r, run_update_job h p job = (h', tr, r) ->
    same_core h h' /\ (staging h -> staging h') /\
    (reversible h = false -> h' = h) /\
    (r = None <-> job_ok job = true) /\
    publishes tr = [] /\ started tr = [(p, job)] /\
    (forall rest, serial_from false (tr ++ rest) = serial_from false rest) /\
    db_writes tr = writes_until_throw (u_fn job) /\
    completed tr = (if job_ok job then 1 else 0)%nat /\
    (r = None -> completed tr = 1%nat /\ db_writes tr = stmt_writes (u_fn job)).
Proof.
  intros h' tr r H. unfold run_update_job in H.
  destruct (run_fn h (u_fn job)) as [[h1 tr1] r1] eqn:E.
  destruct (run_fn_spec _ _ _ _ _ E) as (Hc & Hs & Hg & Hok & ws & Htr & Hrun & Hws).
  destruct (db_trace_facts ws) as (Fp & Fs & Fc & Fd & Fser).
  assert (Hjob : job_ok job = job_ok {| u_fn := u_fn job; u_trace := "" |}) by reflexivity.
  assert (Hst : forall tl, started tl = [] ->
            started (EvJobStart p job :: map EvDb ws ++ tl) = [(p, job)]).
  { intros tl Htl. change (started (EvJobStart p job :: map EvDb ws ++ tl))
      with ((p, job) :: started (map EvDb ws ++ tl)).
    rewrite started_app, Fs, Htl. reflexivity. }
  assert (Hpub : forall tl, publishes tl = [] ->
            publishes (EvJobStart p job :: map EvDb ws ++ tl) = []).
  { intros tl Htl. change (publishes (EvJobStart p job :: map EvDb ws ++ tl))
      with (publishes (map EvDb ws ++ tl)).
    rewrite publishes_app, Fp, Htl. reflexivity. }
  assert (Hdb : forall tl, db_writes tl = [] ->
            db_writes (EvJobStart p job :: map EvDb ws ++ tl) = writes_until_throw (u_fn job)).
  { intros tl Htl. change (db_writes (EvJobStart p job :: map EvDb ws ++ tl))
      with (db_writes (map EvDb ws ++ tl)).
    rewrite db_writes_app, Fd, Htl, app_nil_r. exact Hrun. }
  assert (Hcount : forall tl, completed (EvJobStart p job :: map EvDb ws ++ tl) = completed tl).
  { intros tl. change (completed (EvJobStart p job :: map EvDb ws ++ tl))
      with (completed (map EvDb ws ++ tl)).
    rewrite completed_app, Fc. reflexivity. }
  subst tr1. destruct r1 as [e|]; inversion H; subst tr r h'; clear H.
  - assert (Hbad : job_ok job = false).
    { rewrite Hjob. destruct (job_ok _); [|reflexivity].
      destruct Hok as [_ Hok]. specialize (Hok eq_refl). discriminate. }
    rewrite Hbad. parts.
    + exact Hc.
    + exact Hs.
    + exact Hg.
    + split; discriminate.
    + apply Hpub. reflexivity.
    + apply Hst. reflexivity.
    + intros rest. simpl. rewrite <- app_assoc, Fser. reflexivity.
    + apply Hdb. reflexivity.
    + rewrite Hcount. reflexivity.
    + discriminate.
  - assert (Hgood : job_ok job = true) by (rewrite Hjob; apply Hok; reflexivity).
    rewrite Hgood. parts.
    + exact Hc.
    + exact Hs.
    + exact Hg.
    + split; reflexivity.
    + apply Hpub. reflexivity.
    + apply Hst. reflexivity.
    + intros rest. simpl. rewrite <- app_assoc, Fser. reflexivity.
    + apply Hdb. reflexivity.
    + rewrite Hcount. reflexivity.
    + intros _. split.
      * rewrite Hcount. reflexivity.
      * rewrite (Hdb [EvJobEnd true] eq_refl), <- Hrun. apply Hws. reflexivity.
Qed.

Lemma writes_of_ok_job (job : UpdateJob) :
  job_ok job = true -> writes_until_throw (u_fn job) = stmt_writes (u_fn job).
Proof.
  unfold job_ok. induction (u_fn job) as [|s ss IH]; simpl; [reflexivity|].
  destruct s; simpl; intros H.
  - f_equal. apply IH, H.
  - apply IH, H.
  - discriminate.
Qed.

(** The drain starts every job of the queue, in queue order, whether or not
    jobs throw. *)
Lemma drain_spec (q : list (Z * UpdateJob)) :
  forall h h' tr r, drain h q = (h', tr, r) ->
    same_core h h' /\ (staging h -> staging h') /\
    (reversible h = false -> h' = h) /\
    (r = None <-> forallb job_ok (map snd q) = true) /\
    publishes tr = [] /\ started tr = q /\
    (forall rest, serial_from false (tr ++ rest) = serial_from false rest) /\
    db_writes tr = flat_map (fun x => writes_until_throw (u_fn (snd x))) q /\
    completed tr = List.length (filter job_ok (map snd q)) /\
    (r = None ->
       completed tr = List.length q /\
       db_writes tr = flat_map (fun x => stmt_writes (u_fn (snd x))) q).
Proof.
  induction q as [|[p job] q IH]; intros h h' tr r H; simpl in H.
  - inversion H; subst. parts; try reflexivity; try tauto. apply same_core_refl.
  - destruct (run_update_job h p job) as [[h1 tr1] r1] eqn:E1.
    destruct (run_update_job_spec _ _ _ _ _ _ E1)
      as (Hc & Hs & Hg & Hok & Hp & Hst & Hser & Hdb & Hcnt & Hdone).
    destruct (drain h1 q) as [[h2 tr2] r2] eqn:E2.
    inversion H; subst h' tr r; clear H.
    destruct (IH _ _ _ _ E2)
      as (Hc2 & Hs2 & Hg2 & Hok2 & Hp2 & Hst2 & Hser2 & Hdb2 & Hcnt2 & Hdone2).
    assert (Hwrites : db_writes (tr1 ++ tr2)
              = flat_map (fun x => writes_until_throw (u_fn (snd x))) ((p, job) :: q)).
    { rewrite db_writes_app, Hdb, Hdb2. reflexivity. }
    assert (Hcompleted : completed (tr1 ++ tr2)
              = List.length (filter job_ok (map snd ((p, job) :: q)))).
    { rewrite completed_app, Hcnt, Hcnt2. simpl. destruct (job_ok job); reflexivity. }
    parts.
    + eapply same_core_trans; eassumption.
    + intros Hx. apply Hs2, Hs, Hx.
    + intros Hr. assert (h1 = h) by auto. subst h1. auto.
    + simpl. destruct r1 as [e|].
      * assert (Hbad : job_ok job = false).
        { destruct (job_ok job); [|reflexivity]. destruct Hok as [_ Hok].
          specialize (Hok eq_refl). discriminate. }
        rewrite Hbad. split; discriminate.
      * assert (Hgood : job_ok job = true) by (apply Hok; reflexivity).
        rewrite Hgood. exact Hok2.
    + rewrite publishes_app, Hp, Hp2. reflexivity.
    + rewrite started_app, Hst, Hst2. reflexivity.
    + intros rest. rewrite <- app_assoc, Hser. apply Hser2.
    + exact Hwrites.
    + exact Hcompleted.
    + intros Hr. destruct r1 as [e|]; [discriminate|].
      destruct (Hdone eq_refl) as [Hd1 Hd2]. destruct (Hdone2 Hr) as (Hd3 & Hd4).
      split.
      * rewrite completed_app, Hd1, Hd3. reflexivity.
      * rewrite db_writes_app, Hd2, Hd4. reflexivity.
Qed.

Lemma forallb_perm {A : Type} (f : A -> bool) (l l' : list A) :
  Permutation l l' -> forallb f l = forallb f l'.
Proof.
  induction 1 as [| x l l' _ IH | x y l | l l' l'' _ IH1 _ IH2]; simpl.
  - reflexivity.
  - rewrite IH. reflexivity.
  - destruct (f x), (f y); reflexivity.
  - congruence.
Qed.

(** The hook calls of a block: update jobs pile up in priority order, the
    reversible flag does not move, notifications are staged. *)
Lemma dispatch_spec (calls : list hookCall) :
  forall h,
    chain_name (fold_left dispatch calls h) = chain_name h /\
    reader_name (fold_left dispatch calls h) = reader_name h /\
    args (fold_left dispatch calls h) = args h /\
    reversible (fold_left dispatch calls h) = reversible h /\
    PQueue.isPaused (updateQueue (fold_left dispatch calls h))
      = PQueue.isPaused (updateQueue h) /\
    PQueue.queue (updateQueue (fold_left dispatch calls h))
      = PQueue.build (PQueue.queue (updateQueue h)) (enqueued calls) /\
    updateJobs (fold_left dispatch calls h)
      = updateJobs h ++ map (fun x => PromiseOf (snd x)) (enqueued calls) /\
    (staging h -> staging (fold_left dispatch calls h)) /\
    (reversible h = false ->
       notificationQueue (fold_left dispatch calls h) = notificationQueue h /\
       notificationJobs (fold_left dispatch calls h) = notificationJobs h).
Proof.
  induction calls as [|c calls IH]; intros h; simpl.
  - parts; try reflexivity; auto. rewrite app_nil_r. reflexivity.
  - destruct (IH (dispatch h c)) as (I1 & I2 & I3 & I4 & I5 & I6 & I7 & I8 & I9).
    rewrite I1, I2, I3, I4, I5, I6, I7.
    destruct c as [fn p st | b tx p n d st]; simpl in *.
    + parts; try reflexivity.
      * rewrite <- app_assoc. reflexivity.
      * intros Hs. apply I8. exact Hs.
      * intros Hr. apply I9. exact Hr.
    + destruct (push_same_core h b tx p n d st) as (E1 & E2 & E3 & E4 & E5 & E6).
      rewrite E1, E2, E3, E4, E5, E6. parts; try reflexivity.
      * intros Hs. apply I8, push_staging, Hs.
      * intros Hr. rewrite E4 in I9. destruct (I9 Hr) as [J1 J2].
        rewrite J1, J2, (push_gate h) by exact Hr. split; reflexivity.
Qed.

Lemma onBlockComplete_spec (h : AtomicMarketHandler) (db : ContractDBTransaction) :
  let o := onBlockComplete h db in
  let q := PQueue.queue (updateQueue h) in
  reversible (outcome_handler o) = (currentBlock db >? lastIrreversibleBlock db) /\
  chain_name (outcome_handler o) = chain_name h /\
  reader_name (outcome_handler o) = reader_name h /\
  args (outcome_handler o) = args h /\
  (staging h -> staging (outcome_handler o)) /\
  publishes (outcome_trace o) = [] /\
  serial (outcome_trace o) = true /\
  (exists behind, started (outcome_trace o) ++ behind = q) /\
  returned o = forallb job_ok (map snd q) /\
  (returned o = true ->
     started (outcome_trace o) = q /\
     completed (outcome_trace o) = List.length q /\
     db_writes (outcome_trace o) = flat_map (fun x => stmt_writes (u_fn (snd x))) q /\
     updateQueue (outcome_handler o) = PQueue.mk true [] /\
     updateJobs (outcome_handler o) = []) /\
  ((currentBlock db >? lastIrreversibleBlock db) = false ->
     notificationQueue (outcome_handler o) = notificationQueue h /\
     notificationJobs (outcome_handler o) = notificationJobs h) /\
  started (outcome_trace o) = q /\
  db_writes (outcome_trace o) = flat_map (fun x => writes_until_throw (u_fn (snd x))) q /\
  completed (outcome_trace o) = List.length (filter job_ok (map snd q)) /\
  (returned o = false ->
     updateQueue (outcome_handler o) = PQueue.mk false [] /\
     updateJobs (outcome_handler o) = updateJobs h).
Proof.
  intros o q. subst o. unfold onBlockComplete.
  set (h0 := set_update _ _ _).
  change (PQueue.queue (PQueue.start (updateQueue (set_reversible h
            (currentBlock db >? lastIrreversibleBlock db))))) with q.
  destruct (drain h0 q) as [[h2 tr] r] eqn:E.
  destruct (drain_spec _ _ _ _ _ E)
    as ((C1 & C2 & C3 & C4 & C5 & C6) & Hs & Hg & Hok & Hp & Hst & Hser & Hdb & Hcnt & Hdone).
  assert (Hser' : serial tr = true).
  { unfold serial. rewrite <- (app_nil_r tr), Hser. reflexivity. }
  destruct r as [e|]; simpl; parts; try reflexivity; try assumption.
  - exists []. rewrite app_nil_r. exact Hst.
  - destruct (forallb job_ok (map snd q)); [|reflexivity].
    destruct Hok as [_ Hok]. specialize (Hok eq_refl). discriminate.
  - discriminate.
  - intros Hr. change (reversible h0 = false) in Hr. rewrite (Hg Hr). split; reflexivity.
  - intros _. split; [reflexivity | exact C6].
  - exists []. rewrite app_nil_r. exact Hst.
  - symmetry. apply Hok. reflexivity.
  - intros _. destruct (Hdone eq_refl) as (Hc & Hd).
    parts; try reflexivity; assumption.
  - intros Hr. change (reversible h0 = false) in Hr. rewrite (Hg Hr). split; reflexivity.
  - discriminate.
Qed.

Section CommitFacts.

Variable JSON_stringify : json -> string.
Variable redis_publish : string -> string -> bool.

Lemma run_notification_publishes (h : AtomicMarketHandler) (job : NotificationJob) :
  publishes (run_notification JSON_stringify redis_publish h job)
    = [(channelName h (n_prefix job), JSON_stringify (payload job))].
Proof.
  unfold run_notification. destruct (redis_publish _ _); reflexivity.
Qed.

Lemma onCommit_publishes (h : AtomicMarketHandler) :
  publishes (snd (onCommit JSON_stringify redis_publish h))
    = map (fun pj => (channelName h (n_prefix (snd pj)), JSON_stringify (payload (snd pj))))
          (PQueue.queue (notificationQueue h)).
Proof.
  unfold onCommit. simpl.
  induction (PQueue.queue (notificationQueue h)) as [|pj q IH]; simpl; [reflexivity|].
  rewrite publishes_app, run_notification_publishes, IH. reflexivity.
Qed.

Lemma onCommit_spec (h : AtomicMarketHandler) :
  staging h ->
  publishes (snd (onCommit JSON_stringify redis_publish h))
    = map (fun pr => (channelName h (n_prefix (job_of pr)),
                      JSON_stringify (payload (job_of pr))))
          (notificationJobs h) /\
  notificationJobs (fst (onCommit JSON_stringify redis_publish h)) = [] /\
  notificationQueue (fst (onCommit JSON_stringify redis_publish h)) = PQueue.mk true [] /\
  updateQueue (fst (onCommit JSON_stringify redis_publish h)) = updateQueue h /\
  updateJobs (fst (onCommit JSON_stringify redis_publish h)) = updateJobs h.
Proof.
  intros [_ Hq]. parts; try reflexivity.
  rewrite onCommit_publishes, Hq, !map_map. reflexivity.
Qed.

End CommitFacts.

Lemma sorted_app_inv {A : Type} (R : A -> A -> Prop) (l1 l2 : list A) :
  StronglySorted R (l1 ++ l2) ->
  StronglySorted R l1 /\ StronglySorted R l2 /\
  forall a b, In a l1 -> In b l2 -> R a b.
Proof.
  induction l1 as [|x l1 IH]; simpl; intros H.
  - parts; [constructor | exact H | intros a b []].
  - inversion H as [|? ? Hs Hall]; subst.
    destruct (IH Hs) as (S1 & S2 & Hcross).
    rewrite Forall_app in Hall. destruct Hall as [Hall1 Hall2]. parts.
    + constructor; assumption.
    + exact S2.
    + intros a b [->|Ha] Hb.
      * rewrite Forall_forall in Hall2. apply Hall2, Hb.
      * apply Hcross; assumption.
Qed.

Lemma idle_staging (h : AtomicMarketHandler) : idle h -> staging h.
Proof.
  intros (_ & _ & Hq & Hj). unfold staging. rewrite Hq, Hj. split; reflexivity.
Qed.

(** From an idle handler the update queue holds the jobs of the block,
    sorted by priority, first come first served among equals. *)
Lemma block_queue_order (h : AtomicMarketHandler) (calls : list hookCall) :
  idle h ->
  let order := PQueue.queue (updateQueue (fold_left dispatch calls h)) in
  Permutation order (enqueued calls) /\
  StronglySorted PQueue.prio_ge order /\
  (forall p, PQueue.by_priority p order = PQueue.by_priority p (enqueued calls)).
Proof.
  intros (Hq & _ & _ & _) order. subst order.
  destruct (dispatch_spec calls h) as (_ & _ & _ & _ & _ & -> & _).
  rewrite Hq. simpl. parts.
  - apply (build_perm (enqueued calls) []).
  - apply build_sorted. constructor.
  - intros p. apply (build_fifo (enqueued calls) [] p). constructor.
Qed.

(** ** The handler: what the jobs of a block leave behind *)

Import MarketFacts.

Lemma run_fn_pushes (ss : list stmt) :
  forall h h' tr r, run_fn h ss = (h', tr, r) ->
    r = first_throw ss /\
    (reversible h = true ->
       notificationJobs h' = notificationJobs h ++ map PromiseOf (stmt_pushes ss)).
Proof.
  induction ss as [|s ss IH]; intros h h' tr r H; simpl in H.
  - inversion H; subst. split; [reflexivity|]. intros _. simpl. rewrite app_nil_r. reflexivity.
  - destruct s as [sql | b tx p n d st | e].
    + destruct (run_fn h ss) as [[h1 tr1] r1] eqn:E. inversion H; subst.
      destruct (IH _ _ _ _ E) as [Hr Hp]. split; [exact Hr | exact Hp].
    + destruct (IH _ _ _ _ H) as [Hr Hp]. split; [exact Hr|].
      intros Hrev.
      destruct (push_same_core h b tx p n d st) as (_ & _ & _ & E4 & _).
      rewrite Hp by (rewrite E4; exact Hrev).
      unfold pushNotificiation. rewrite Hrev. simpl. rewrite <- app_assoc. reflexivity.
    + inversion H; subst. split; [reflexivity|]. intros _. simpl.
      rewrite app_nil_r. reflexivity.
Qed.

Lemma errors_logged_app (a b : list event) :
  errors_logged (a ++ b) = errors_logged a ++ errors_logged b.
Proof. apply flat_map_app. Qed.

Lemma run_update_job_pushes (h : AtomicMarketHandler) (p : Z) (job : UpdateJob) :
  forall h' tr r, run_update_job h p job = (h', tr, r) ->
    r = first_throw (u_fn job) /\
    (reversible h = true ->
       notificationJobs h' = notificationJobs h ++ map PromiseOf (stmt_pushes (u_fn job))) /\
    errors_logged tr = job_errors job.
Proof.
  intros h' tr r H. unfold run_update_job in H.
  destruct (run_fn h (u_fn job)) as [[h1 tr1] r1] eqn:E.
  destruct (run_fn_pushes _ _ _ _ _ E) as [Hr Hp].
  destruct (run_fn_spec _ _ _ _ _ E) as (_ & _ & _ & _ & ws & Htr & _).
  assert (Hnone : errors_logged (map EvDb ws) = []).
  { clear. induction ws as [|w ws IH]; simpl; [reflexivity | exact IH]. }
  unfold job_errors. rewrite <- Hr. subst tr1.
  destruct r1 as [e|]; inversion H; subst; parts; auto.
  - change (errors_logged (EvJobStart p job :: map EvDb ws
                             ++ [EvLogError e; EvLogError (u_trace job); EvJobEnd false]))
      with (errors_logged (map EvDb ws
                             ++ [EvLogError e; EvLogError (u_trace job); EvJobEnd false])).
    rewrite errors_logged_app, Hnone. reflexivity.
  - change (errors_logged (EvJobStart p job :: map EvDb ws ++ [EvJobEnd true]))
      with (errors_logged (map EvDb ws ++ [EvJobEnd true])).
    rewrite errors_logged_app, Hnone. reflexivity.
Qed.

(** What the drain leaves behind: the notifications of every job, the error
    of the first job that threw, and the two log lines of every job that
    threw. *)
Lemma drain_pushes (q : list (Z * UpdateJob)) :
  forall h h' tr r, drain h q = (h', tr, r) ->
    r = first_error q /\
    errors_logged tr = flat_map (fun x => job_errors (snd x)) q /\
    (reversible h = true ->
     notificationJobs h'
       = notificationJobs h
         ++ map PromiseOf (flat_map (fun x => stmt_pushes (u_fn (snd x))) q)).
Proof.
  induction q as [|[p job] q IH]; intros h h' tr r H; simpl in H.
  - inversion H; subst. parts; try reflexivity. intros _. simpl.
    rewrite app_nil_r. reflexivity.
  - destruct (run_update_job h p job) as [[h1 tr1] r1] eqn:E1.
    destruct (run_update_job_pushes _ _ _ _ _ _ E1) as (Hr1 & Hp & Herr).
    destruct (run_update_job_spec _ _ _ _ _ _ E1) as ((_ & _ & _ & C4 & _) & _).
    destruct (drain h1 q) as [[h2 tr2] r2] eqn:E2. inversion H; subst h' tr r; clear H.
    destruct (IH _ _ _ _ E2) as (Hr2 & Herr2 & Hp2). parts.
    + simpl. rewrite <- Hr1, <- Hr2. reflexivity.
    + rewrite errors_logged_app, Herr, Herr2. reflexivity.
    + intros Hrev. rewrite Hp2 by (rewrite C4; exact Hrev).
      rewrite (Hp Hrev). simpl. rewrite map_app, <- app_assoc. reflexivity.
Qed.

Lemma onBlockComplete_pushes (h : AtomicMarketHandler) (db : ContractDBTransaction) :
  lastIrreversibleBlock db < currentBlock db ->
  notificationJobs (outcome_handler (onBlockComplete h db))
    = notificationJobs h
      ++ map PromiseOf
           (flat_map (fun x => stmt_pushes (u_fn (snd x))) (PQueue.queue (updateQueue h))).
Proof.
  intros Hlt.
  assert (Hflag : (currentBlock db >? lastIrreversibleBlock db) = true).
  { rewrite Z.gtb_ltb. apply Z.ltb_lt. exact Hlt. }
  unfold onBlockComplete. set (h0 := set_update _ _ _).
  change (PQueue.queue (PQueue.start (updateQueue (set_reversible h
            (currentBlock db >? lastIrreversibleBlock db))))) with (PQueue.queue (updateQueue h)).
  destruct (drain h0 (PQueue.queue (updateQueue h))) as [[h2 tr] r] eqn:E.
  destruct (drain_pushes _ _ _ _ _ E) as (_ & _ & Hd).
  specialize (Hd Hflag). destruct r; simpl; exact Hd.
Qed.

(** ** The handler: block by block *)

(** C3. For every block, the jobs enqueued with [addUpdateJob] run one at a
    time when [onBlockComplete] drains the queue, in non-increasing order of
    priority and, among equal priorities, in enqueue order: every job of the
    queue is started, in queue order, and the statements run on the database
    are those of the jobs, job after job (those before its throw for a job
    that throws); on a reversible block the notifications the jobs push are
    staged in the same order.  As many jobs complete as do not throw.
    [onBlockComplete]
    returns exactly when no job throws; every enqueued job has then run all
    its statements and completed, the queue is paused again and the job list
    is empty. *)
Theorem update_jobs_drain_by_priority :
  forall (h : AtomicMarketHandler) (calls : list hookCall) (db : ContractDBTransaction),
    idle h ->
    let jobs := enqueued calls in
    let order := PQueue.queue (updateQueue (fold_left dispatch calls h)) in
    let o := onBlockComplete (fold_left dispatch calls h) db in
    Permutation order jobs /\
    StronglySorted PQueue.prio_ge order /\
    (forall p, PQueue.by_priority p order = PQueue.by_priority p jobs) /\
    serial (outcome_trace o) = true /\
    started (outcome_trace o) = order /\
    db_writes (outcome_trace o)
      = flat_map (fun x => writes_until_throw (u_fn (snd x))) order /\
    completed (outcome_trace o) = List.length (filter job_ok (map snd order)) /\
    (lastIrreversibleBlock db < currentBlock db ->
       notificationJobs (outcome_handler o)
         = notificationJobs (fold_left dispatch calls h)
           ++ map PromiseOf (flat_map (fun x => stmt_pushes (u_fn (snd x))) order)) /\
    returned o = forallb job_ok (map snd jobs) /\
    (returned o = true ->
       completed (outcome_trace o) = List.length jobs /\
       db_writes (outcome_trace o) = flat_map (fun x => stmt_writes (u_fn (snd x))) order /\
       updateQueue (outcome_handler o) = PQueue.mk true [] /\
       updateJobs (outcome_handler o) = []).
Proof.
  intros h calls db Hidle jobs order o.
  destruct (block_queue_order h calls Hidle) as (Hperm & Hsorted & Hfifo).
  fold order in Hperm, Hsorted, Hfifo.
  destruct (onBlockComplete_spec (fold_left dispatch calls h) db)
    as (_ & _ & _ & _ & _ & _ & Hser & _ & Hret & Hdone & _ & Hst & Hdb & Hcnt & _).
  fold o order in Hser, Hret, Hdone, Hst, Hdb, Hcnt.
  parts; try assumption.
  - intros Hlt. apply onBlockComplete_pushes, Hlt.
  - rewrite Hret. apply forallb_perm, Permutation_map, Hperm.
  - intros Hr. destruct (Hdone Hr) as (_ & D2 & D3 & D4 & D5).
    parts; try assumption.
    rewrite D2. apply Permutation_length, Hperm.
Qed.

Lemma update_jobs_drain_by_priority_witness :
  idle fresh /\
  started (outcome_trace (onBlockComplete (fold_left dispatch block11_calls fresh) db11_live))
    = [(70, {| u_fn := insert_sale5; u_trace := "tables.ts:40" |});
       (50, {| u_fn := update_sale5; u_trace := "actions.ts:88" |})] /\
  db_writes (outcome_trace (onBlockComplete (fold_left dispatch block11_calls fresh) db11_live))
    = ["INSERT INTO atomicmarket_sales (sale_id) VALUES (5)";
       "UPDATE atomicmarket_sales SET state = 3 WHERE sale_id = 5"] /\
  map job_of (notificationJobs
                (outcome_handler
                   (onBlockComplete (fold_left dispatch block11_calls fresh) db11_live)))
    = [{| n_block := block11; n_tx := JNull; n_prefix := "sales"; n_name := "state_change";
          n_data := sale5; n_trace := "actions.ts:120" |}].
Proof.
  assert (H : idle fresh) by (repeat split; reflexivity).
  destruct (update_jobs_drain_by_priority fresh block11_calls db11_live H)
    as (_ & _ & _ & _ & Hst & Hdb & _ & Hpush & _).
  parts; [exact H | exact Hst | exact Hdb |].
  rewrite Hpush by (simpl; lia). reflexivity.
Defined.

(** C7. The stored encodings are SaleState WAITING=0, LISTED=1, CANCELED=2,
    SOLD=3 and AuctionState WAITING=0, LISTED=1, CANCELED=2 (no auction state
    is stored as 3 or 4); ACTION_UPDATE_SALE=50 is below TABLE_SALES=70, so
    when a block's queue drains, a TABLE_SALES job is started before every
    ACTION_UPDATE_SALE job. *)
Theorem state_and_priority_encodings :
  forall (h : AtomicMarketHandler) (calls : list hookCall) (db : ContractDBTransaction)
         (a b : Z * UpdateJob),
    idle h ->
    let ran := started (outcome_trace (onBlockComplete (fold_left dispatch calls h) db)) in
    In a ran -> fst a = JobPriority.valueOf JobPriority.ACTION_UPDATE_SALE ->
    In b ran -> fst b = JobPriority.valueOf JobPriority.TABLE_SALES ->
    (SaleState.valueOf SaleState.WAITING = 0 /\ SaleState.valueOf SaleState.LISTED = 1 /\
     SaleState.valueOf SaleState.CANCELED = 2 /\ SaleState.valueOf SaleState.SOLD = 3) /\
    (AuctionState.valueOf AuctionState.WAITING = 0 /\
     AuctionState.valueOf AuctionState.LISTED = 1 /\
     AuctionState.valueOf AuctionState.CANCELED = 2 /\
     forall s, 0 <= AuctionState.valueOf s <= 2) /\
    JobPriority.valueOf JobPriority.ACTION_UPDATE_SALE = 50 /\
    JobPriority.valueOf JobPriority.TABLE_SALES = 70 /\
    JobPriority.valueOf JobPriority.ACTION_UPDATE_SALE
      < JobPriority.valueOf JobPriority.TABLE_SALES /\
    exists pre mid post, ran = pre ++ b :: mid ++ a :: post.
Proof.
  intros h calls db a b Hidle ran Ha Hpa Hb Hpb.
  parts; try reflexivity.
  - intros s. destruct s; simpl; lia.
  - destruct (block_queue_order h calls Hidle) as (_ & Hsorted & _).
    destruct (onBlockComplete_spec (fold_left dispatch calls h) db)
      as (_ & _ & _ & _ & _ & _ & _ & [behind Hbeh] & _).
    fold ran in Hbeh. rewrite <- Hbeh in Hsorted.
    apply sorted_app_inv in Hsorted. destruct Hsorted as (Hran & _ & _).
    destruct (in_split _ _ Hb) as (l1 & l2 & Hsplit).
    rewrite Hsplit in Ha, Hran.
    apply in_app_or in Ha. destruct Ha as [Ha | [Ha | Ha]].
    + apply sorted_app_inv in Hran. destruct Hran as (_ & _ & Hcross).
      specialize (Hcross a b Ha (or_introl eq_refl)).
      unfold PQueue.prio_ge in Hcross. rewrite Hpa, Hpb in Hcross. simpl in Hcross. lia.
    + subst a. rewrite Hpa in Hpb. discriminate.
    + destruct (in_split _ _ Ha) as (m1 & m2 & Hm). subst l2.
      exists l1, m1, m2. exact Hsplit.
Qed.

Lemma state_and_priority_encodings_witness :
  idle fresh /\
  exists pre mid post,
    started (outcome_trace (onBlockComplete (fold_left dispatch block11_calls fresh) db11_live))
      = pre ++ (70, {| u_fn := insert_sale5; u_trace := "tables.ts:40" |})
            :: mid ++ (50, {| u_fn := update_sale5; u_trace := "actions.ts:88" |}) :: post.
Proof.
  assert (H : idle fresh) by (repeat split; reflexivity).
  split; [exact H|].
  apply (state_and_priority_encodings fresh block11_calls db11_live
           (50, {| u_fn := update_sale5; u_trace := "actions.ts:88" |})
           (70, {| u_fn := insert_sale5; u_trace := "tables.ts:40" |}) H).
  - simpl. right. left. reflexivity.
  - reflexivity.
  - simpl. left. reflexivity.
  - reflexivity.
Defined.

(** C1. No notification staged during a block is published before the
    block's transaction commits.  While the hooks of the block run the
    notification queue stays paused and holds the staged jobs; up to the end
    of [onBlockComplete] nothing is published; if the block aborts nothing is
    published at all; otherwise the trace is the one of [onBlockComplete],
    then the commit, then the publishes of [onCommit], one per staged job in
    enqueue order, after which the staged list is empty and the queue is
    paused. *)
Theorem notifications_published_after_commit :
  forall (JSON_stringify : json -> string) (redis_publish : string -> string -> bool)
         (h : AtomicMarketHandler) (B : ShipBlock) (lib : Z) (calls : list hookCall),
    idle h ->
    let T := {| currentBlock := block_num B; lastIrreversibleBlock := lib |} in
    let o := onBlockComplete (fold_left dispatch calls h) T in
    let staged := map job_of (notificationJobs (outcome_handler o)) in
    let result := processBlock JSON_stringify redis_publish h B lib calls in
    staging (fold_left dispatch calls h) /\
    staging (outcome_handler o) /\
    publishes (outcome_trace o) = [] /\
    (returned o = false ->
       snd result = outcome_trace o ++ [EvAbort (block_num B)] /\
       publishes (snd result) = []) /\
    (returned o = true ->
       exists post,
         snd result = outcome_trace o ++ EvCommit (block_num B) :: post /\
         publishes post
           = map (fun j => (channelName h (n_prefix j), JSON_stringify (payload j))) staged /\
         notificationJobs (fst result) = [] /\
         notificationQueue (fst result) = PQueue.mk true [] /\
         idle (fst result)).
Proof.
  intros stringify publish h B lib calls Hidle T o staged result.
  destruct (dispatch_spec calls h) as (D1 & D2 & D3 & _ & _ & _ & _ & Dst & _).
  specialize (Dst (idle_staging h Hidle)).
  destruct (onBlockComplete_spec (fold_left dispatch calls h) T)
    as (_ & O1 & O2 & O3 & Ost & Opub & _ & _ & _ & Odone & _).
  fold o in O1, O2, O3, Ost, Opub, Odone.
  specialize (Ost Dst).
  subst result staged. unfold processBlock, onBlockStart.
  change (onBlockComplete (fold_left dispatch calls h)
            {| currentBlock := block_num B; lastIrreversibleBlock := lib |}) with o.
  clearbody o.
  parts; try assumption.
  - intros Hr.
    destruct o as [h2 tr | e h2 tr]; [discriminate|]. simpl in *.
    split; [reflexivity|]. rewrite publishes_app, Opub. reflexivity.
  - intros Hr. destruct (Odone Hr) as (_ & _ & _ & U1 & U2).
    destruct o as [h2 tr | e h2 tr]; [|discriminate].
    cbn [outcome_trace outcome_handler returned] in *.
    destruct (onCommit_spec stringify publish h2 Ost) as (P1 & P2 & P3 & P4 & P5).
    destruct (onCommit stringify publish h2) as [h3 post]. cbn [fst snd] in *.
    exists post. parts.
    + reflexivity.
    + rewrite P1, map_map. unfold channelName. rewrite O1, O2, O3, D1, D2, D3. reflexivity.
    + exact P2.
    + exact P3.
    + unfold idle. parts; congruence.
Qed.

Lemma notifications_published_after_commit_witness :
  idle after_block10 /\
  exists post,
    snd (processBlock print_json redis_up after_block10 block11 8 block11_calls)
      = outcome_trace (onBlockComplete (fold_left dispatch block11_calls after_block10)
                         db11_live)
        ++ EvCommit 11 :: post /\
    publishes post
      = [("eosio-contract-api:wax:atomic-1:atomicmarket:atomicmarket:sales",
          print_json (JObj [("transaction", JNull);
                            ("block", JObj [("block_num", JNum 11); ("block_id", JStr "000b")]);
                            ("action", JStr "state_change");
                            ("data", sale5)]))].
Proof.
  assert (H : idle after_block10) by (repeat split; reflexivity).
  split; [exact H|].
  destruct (notifications_published_after_commit print_json redis_up
              after_block10 block11 8 block11_calls H)
    as (_ & _ & _ & _ & Hc).
  destruct (Hc eq_refl) as (post & E1 & E2 & _).
  exists post. split; [exact E1 | exact E2].
Defined.

(** C2, as the code has it.  [pushNotificiation] stages nothing and
    publishes nothing whenever the handler's [reversible] flag is false.
    [onBlockComplete] recomputes the flag from
    [db.currentBlock > db.lastIrreversibleBlock] before the update jobs run:
    for a block with [currentBlock <= lastIrreversibleBlock] every
    notification pushed by an update job is dropped (the notification list
    and queue are what they were, nothing is published), while the database
    statements of the jobs are executed. *)
Theorem notifications_gated_by_reversible_flag :
  forall (h : AtomicMarketHandler) (db : ContractDBTransaction),
    currentBlock db <= lastIrreversibleBlock db ->
    let o := onBlockComplete h db in
    (forall h0 b tx p n d st,
       reversible h0 = false -> pushNotificiation h0 b tx p n d st = h0) /\
    (forall h0 db0,
       reversible (outcome_handler (onBlockComplete h0 db0))
         = (currentBlock db0 >? lastIrreversibleBlock db0)) /\
    reversible (outcome_handler o) = false /\
    notificationJobs (outcome_handler o) = notificationJobs h /\
    notificationQueue (outcome_handler o) = notificationQueue h /\
    publishes (outcome_trace o) = [] /\
    (returned o = true ->
       db_writes (outcome_trace o)
         = flat_map (fun x => stmt_writes (u_fn (snd x))) (PQueue.queue (updateQueue h))).
Proof.
  intros h db Hle o.
  assert (Hflag : (currentBlock db >? lastIrreversibleBlock db) = false).
  { rewrite Z.gtb_ltb. apply Z.ltb_ge. exact Hle. }
  destruct (onBlockComplete_spec h db)
    as (O1 & _ & _ & _ & _ & Opub & _ & _ & _ & Odone & Ogate & _).
  fold o in O1, Opub, Odone, Ogate.
  destruct (Ogate Hflag) as [G1 G2].
  parts; try assumption.
  - intros. apply push_gate. assumption.
  - intros h0 db0. apply onBlockComplete_spec.
  - rewrite O1. exact Hflag.
  - intros Hr. apply (Odone Hr).
Qed.

Lemma notifications_gated_by_reversible_flag_witness :
  currentBlock db11_final <= lastIrreversibleBlock db11_final /\
  notificationJobs (outcome_handler (onBlockComplete block11_queued db11_final)) = [] /\
  db_writes (outcome_trace (onBlockComplete block11_queued db11_final))
    = ["INSERT INTO atomicmarket_sales (sale_id) VALUES (5)";
       "UPDATE atomicmarket_sales SET state = 3 WHERE sale_id = 5"].
Proof.
  assert (H : currentBlock db11_final <= lastIrreversibleBlock db11_final)
    by (simpl; lia).
  destruct (notifications_gated_by_reversible_flag block11_queued db11_final H)
    as (_ & _ & _ & Hj & _ & _ & Hw).
  parts; [exact H | exact Hj | exact (Hw eq_refl)].
Defined.

(** C2 as stated fails: after a reversible block the flag is still true
    while the hooks of the next block run.  Block 11 is not reversible
    (11 <= 11), yet a notification pushed for it before [onBlockComplete] is
    staged; [onBlockComplete] lowers the flag and leaves the staged job, and
    [onCommit] publishes it. *)
Lemma stale_flag_counterexample :
  reversible after_block10 = true /\
  block_num block11 = currentBlock db11_final /\
  currentBlock db11_final <= lastIrreversibleBlock db11_final /\
  notificationJobs pushed_early <> notificationJobs after_block10 /\
  returned (onBlockComplete pushed_early db11_final) = true /\
  reversible (outcome_handler (onBlockComplete pushed_early db11_final)) = false /\
  publishes (snd (onCommit print_json redis_up
                    (outcome_handler (onBlockComplete pushed_early db11_final))))
    = [("eosio-contract-api:wax:atomic-1:atomicmarket:atomicmarket:sales",
        print_json sale5_created)].
Proof.
  parts; [reflexivity | reflexivity | simpl; lia | simpl; discriminate
         | reflexivity | reflexivity | reflexivity].
Qed.

(** C6. Every message published by [onCommit] (nothing else publishes)
    belongs to a staged job; it goes to the channel
    eosio-contract-api:<chain>:<reader>:atomicmarket:<atomicmarket account>:<prefix>
    and its text is [JSON.stringify] of a record with exactly the fields
    transaction, block (block_num and block_id of the block given to
    [pushNotificiation]), action and data. *)
Theorem notification_channel_and_payload :
  forall (JSON_stringify : json -> string) (redis_publish : string -> string -> bool)
         (h : AtomicMarketHandler) (c m : string),
    staging h ->
    In (c, m) (publishes (snd (onCommit JSON_stringify redis_publish h))) ->
    (exists pr, In pr (notificationJobs h) /\
       c = ("eosio-contract-api" ++ ":" ++ chain_name h ++ ":" ++ reader_name h ++ ":"
            ++ "atomicmarket" ++ ":" ++ atomicmarket_account (args h) ++ ":"
            ++ n_prefix (job_of pr))%string /\
       m = JSON_stringify
             (JObj [("transaction", n_tx (job_of pr));
                    ("block", JObj [("block_num", JNum (block_num (n_block (job_of pr))));
                                    ("block_id", JStr (block_id (n_block (job_of pr))))]);
                    ("action", JStr (n_name (job_of pr)));
                    ("data", n_data (job_of pr))])) /\
    (forall block tx prefix name data stack,
       reversible h = true ->
       notificationJobs (pushNotificiation h block tx prefix name data stack)
         = notificationJobs h
           ++ [PromiseOf {| n_block := block; n_tx := tx; n_prefix := prefix;
                            n_name := name; n_data := data; n_trace := stack |}]).
Proof.
  intros stringify publish h c m Hst Hin. split.
  - destruct (onCommit_spec stringify publish h Hst) as (P1 & _).
    rewrite P1 in Hin. apply in_map_iff in Hin. destruct Hin as (pr & Heq & Hpr).
    exists pr. inversion Heq; subst. parts; [exact Hpr | | reflexivity].
    unfold channelName. simpl. reflexivity.
  - intros block tx prefix name data stack Hr. unfold pushNotificiation.
    rewrite Hr. reflexivity.
Qed.

Lemma notification_channel_and_payload_witness :
  staging pushed_early /\
  exists pr, In pr (notificationJobs pushed_early) /\
    "eosio-contract-api:wax:atomic-1:atomicmarket:atomicmarket:sales"
      = ("eosio-contract-api" ++ ":" ++ chain_name pushed_early ++ ":"
         ++ reader_name pushed_early ++ ":" ++ "atomicmarket" ++ ":"
         ++ atomicmarket_account (args pushed_early) ++ ":"
         ++ n_prefix (job_of pr))%string /\
    print_json sale5_created
      = print_json
          (JObj [("transaction", n_tx (job_of pr));
                 ("block", JObj [("block_num", JNum (block_num (n_block (job_of pr))));
                                 ("block_id", JStr (block_id (n_block (job_of pr))))]);
                 ("action", JStr (n_name (job_of pr)));
                 ("data", n_data (job_of pr))]).
Proof.
  assert (Hst : staging pushed_early) by (split; reflexivity).
  split; [exact Hst|].
  destruct (notification_channel_and_payload print_json redis_up pushed_early
              "eosio-contract-api:wax:atomic-1:atomicmarket:atomicmarket:sales"
              (print_json sale5_created) Hst)
    as [(pr & Hpr & Hc & Hm) _].
  - simpl. left. reflexivity.
  - exists pr. parts; [exact Hpr | exact Hc | exact Hm].
Defined.

(** ** The deserializer worker *)

Import Deserializer.

Lemma map_result_ok {A B : Type} (f : A -> result B) (l : list A) (l' : list B) :
  map_result f l = Ok l' <-> Forall2 (fun a b => f a = Ok b) l l'.
Proof.
  revert l'. induction l as [|a l IH]; intros l'; simpl.
  - split.
    + intros H. inversion H. constructor.
    + intros H. inversion H. reflexivity.
  - split.
    + destruct (f a) as [b|e] eqn:Ea; simpl; [|discriminate].
      destruct (map_result f l) as [bs|e] eqn:El; simpl; [|discriminate].
      intros H. inversion H; subst. constructor; [exact Ea|]. apply IH. reflexivity.
    + intros H. inversion H as [|? b ? bs Ha Hl]; subst.
      rewrite Ha. simpl. apply IH in Hl. rewrite Hl. reflexivity.
Qed.

Lemma map_result_err_in {A B : Type} (f : A -> result B) (l : list A) (a : A) :
  In a l -> is_ok (f a) = false -> is_ok (map_result f l) = false.
Proof.
  induction l as [|x l IH]; simpl; [intros []|].
  intros [->|Hin] Ha.
  - destruct (f a); [discriminate | reflexivity].
  - destruct (f x); [|reflexivity]. simpl.
    specialize (IH Hin Ha). destruct (map_result f l); [discriminate | reflexivity].
Qed.

(** The first element that fails decides the error. *)
Lemma map_result_first_err {A B : Type} (f : A -> result B)
    (pre : list A) (a : A) (post : list A) (e : error) :
  is_ok (map_result f pre) = true -> f a = Err e ->
  map_result f (pre ++ a :: post) = Err e.
Proof.
  induction pre as [|x pre IH]; simpl; intros Hpre Ha.
  - rewrite Ha. reflexivity.
  - destruct (f x); [|discriminate]. simpl in *.
    destruct (map_result f pre) eqn:E; [|discriminate].
    rewrite (IH eq_refl Ha). reflexivity.
Qed.

Lemma from_hex_length_bound (n : nat) :
  forall s, (String.length s <= n)%nat ->
            (2 * List.length (from_hex s) <= String.length s)%nat.
Proof.
  induction n as [|n IH]; intros s Hs.
  - destruct s; simpl in *; lia.
  - destruct s as [|a [|b rest]]; simpl in *; try lia.
    destruct (hex_digit a), (hex_digit b); simpl; try lia.
    specialize (IH rest). lia.
Qed.

Section WorkerFacts.

Variable abieos : bool.
Variable hex_to_json : string -> string -> result value.
Variable bin_to_json : string -> list byte -> result value.
Variable eosjsTypes : string -> option eosjs_type.
Variable deserialize_other : option value -> value -> result value.

Local Abbreviation dec := (deserialize abieos hex_to_json bin_to_json eosjsTypes).
Local Abbreviation decode :=
  (deserialize_value abieos hex_to_json bin_to_json eosjsTypes deserialize_other).
Local Abbreviation row :=
  (decode_row abieos hex_to_json bin_to_json eosjsTypes deserialize_other).
Local Abbreviation delta :=
  (decode_delta abieos hex_to_json bin_to_json eosjsTypes deserialize_other).
Local Abbreviation worker :=
  (on_message abieos hex_to_json bin_to_json eosjsTypes deserialize_other).

(** Data that is undefined never decodes. *)
Lemma deserialize_value_undefined (name : option value) :
  is_ok (decode name None) = false.
Proof.
  unfold deserialize_value. destruct abieos; [reflexivity|].
  destruct name as [[| | |n| | |]|]; try reflexivity.
  destruct (eosjsTypes n) as [ty|]; [|reflexivity].
  destruct (ty []); reflexivity.
Qed.

Lemma decode_row_object (name : option value) (fs : list (string * value)) :
  row name (VObj fs)
  = bind (decode name (lookup "data" fs)) (fun v => Ok (VObj (set_field "data" v fs))).
Proof. reflexivity. Qed.

(** Only an object can be a decoded row: any other value has no [data]. *)
Lemma decode_row_no_object (name : option value) (r : value) :
  (forall fs, r <> VObj fs) -> is_ok (row name r) = false.
Proof.
  intros Hr. pose proof (deserialize_value_undefined name) as Hu.
  destruct r; try reflexivity; try (exfalso; eapply Hr; reflexivity);
    unfold decode_row; simpl property;
    destruct (decode name None); try discriminate; reflexivity.
Qed.

Lemma decode_row_is_object (name : option value) (r r' : value) :
  row name r = Ok r' -> exists fs, r = VObj fs.
Proof.
  intros H. destruct r as [| | | | | |fs]; try (exists fs; reflexivity); exfalso.
  all: match type of H with
       | decode_row _ _ _ _ _ _ ?x = _ =>
           pose proof (decode_row_no_object name x ltac:(intros fs; discriminate)) as Hn
       end; rewrite H in Hn; discriminate.
Qed.

Lemma decode_row_ok (name : option value) (r r' : value) :
  row name r = Ok r' <-> row_decoded decode name r r'.
Proof.
  unfold row_decoded. split.
  - intros H. destruct (decode_row_is_object name r r' H) as [fs ->].
    rewrite decode_row_object in H.
    destruct (decode name (lookup "data" fs)) as [v|e] eqn:Ev; simpl in H; [|discriminate].
    inversion H; subst. exists fs, v. parts; auto.
  - intros (fs & v & -> & Ev & ->). rewrite decode_row_object, Ev. reflexivity.
Qed.

Lemma is_v0_tag (d : value) :
  is_v0 d = true <-> item 0 d = Some (VStr "table_delta_v0").
Proof.
  unfold is_v0. split.
  - destruct (item 0 d) as [[| | |tag| | |]|]; try discriminate.
    intros H. apply String.eqb_eq in H. subst. reflexivity.
  - intros ->. reflexivity.
Qed.

Lemma decode_delta_v0 (d : value) :
  is_v0 d = true ->
  delta d
  = match item 1 d with
    | Some (VObj fs) =>
        bind (map_rows (row (lookup "name" fs)) (lookup "rows" fs))
             (fun rows' => Ok (with_item 1 (VObj (set_field "rows" rows' fs)) d))
    | _ => Err TypeError
    end.
Proof.
  intros H. unfold decode_delta. rewrite H. destruct d; reflexivity.
Qed.

(** A byte array of rows gets through [map] only when it is empty. *)
Lemma map_rows_ok (name : option value) (rows : option value) (rows' : value) :
  map_rows (row name) rows = Ok rows' <->
  exists rs, rows = Some rs /\ rows_decoded decode name rs rows'.
Proof.
  unfold map_rows, rows_decoded. split.
  - destruct rows as [[| | | |bs|rs|]|]; try discriminate.
    + destruct bs as [|b bs].
      * simpl. intros H. inversion H. exists (VBytes []). split; [reflexivity|].
        right. split; reflexivity.
      * cbn [map map_result].
        pose proof (decode_row_no_object name (number b)
                      ltac:(intros fs; discriminate)) as Hn.
        destruct (row name (number b)); [discriminate Hn | discriminate].
    + destruct (map_result (row name) rs) as [rs'|e] eqn:Em; simpl; [|discriminate].
      intros H. inversion H; subst. exists (VArr rs). split; [reflexivity|].
      left. exists rs, rs'. parts; auto.
      apply map_result_ok in Em. eapply Forall2_impl; [|exact Em].
      intros a b Hab. apply decode_row_ok. exact Hab.
  - intros (rs0 & -> & [(rs & rs' & -> & Hrows & ->) | [-> ->]]).
    + assert (Em : map_result (row name) rs = Ok rs').
      { apply map_result_ok. eapply Forall2_impl; [|exact Hrows].
        intros a b Hab. apply decode_row_ok. exact Hab. }
      rewrite Em. reflexivity.
    + reflexivity.
Qed.

Lemma decode_delta_not_v0 (d : value) : is_v0 d = false -> is_ok (delta d) = false.
Proof.
  intros H. unfold decode_delta. rewrite H.
  destruct d; try reflexivity;
    (destruct (item 0 _) as [tag|]; [destruct (unprintable tag)|]; reflexivity).
Qed.

Lemma decode_delta_ok (d d' : value) :
  delta d = Ok d' <-> delta_decoded decode d d'.
Proof.
  unfold delta_decoded. split.
  - intros H. destruct (is_v0 d) eqn:Ev0.
    + rewrite (decode_delta_v0 d Ev0) in H. apply is_v0_tag in Ev0.
      destruct (item 1 d) as [[| | | | | |fs]|] eqn:E1; try discriminate.
      destruct (map_rows (row (lookup "name" fs)) (lookup "rows" fs)) as [rows'|e] eqn:Em;
        simpl in H; [|discriminate].
      inversion H; subst d'. apply map_rows_ok in Em.
      destruct Em as (rs & Hrs & Hdec). exists fs, rs, rows'. parts; auto.
    + pose proof (decode_delta_not_v0 d Ev0) as Hn. rewrite H in Hn. discriminate.
  - intros (fs & rows & rows' & H0 & H1 & Hr & Hdec & ->).
    rewrite (decode_delta_v0 d (proj2 (is_v0_tag d) H0)), H1.
    rewrite (proj2 (map_rows_ok (lookup "name" fs) (lookup "rows" fs) rows')
               (ex_intro _ rows (conj Hr Hdec))).
    reflexivity.
Qed.

Lemma decode_delta_unsupported (d : value) :
  d <> VNull -> is_v0 d = false ->
  (forall tag, item 0 d = Some tag -> unprintable tag = false) ->
  delta d = Err (UnsupportedDelta (item 0 d)).
Proof.
  intros Hn H Hp. unfold decode_delta. rewrite H.
  destruct d; try contradiction;
    (destruct (item 0 _) as [tag|] eqn:E;
     [rewrite (Hp tag eq_refl) | ]; reflexivity).
Qed.

Lemma decode_delta_no_text (d : value) :
  is_v0 d = false ->
  d = VNull \/ (exists tag, item 0 d = Some tag /\ unprintable tag = true) ->
  delta d = Err TypeError.
Proof.
  intros H [->|(tag & Ht & Hu)]; [reflexivity|].
  unfold decode_delta. rewrite H, Ht, Hu. destruct d; reflexivity.
Qed.

Lemma decode_delta_no_rows (d : value) :
  is_v0 d = true -> has_rows d = false -> delta d = Err TypeError.
Proof.
  intros Hv0 Hr. rewrite (decode_delta_v0 d Hv0). unfold has_rows in Hr.
  destruct (item 1 d) as [[| | | | | |fs]|]; try reflexivity.
  unfold map_rows. destruct (lookup "rows" fs) as [[| | | | | |]|]; try reflexivity;
    discriminate Hr.
Qed.

(** In a [table_delta_v0] the first row that fails decides the error. *)
Lemma decode_delta_first_row (d : value) (fs : list (string * value))
    (before : list value) (r : value) (behind : list value) (e : error) :
  is_v0 d = true -> item 1 d = Some (VObj fs) ->
  lookup "rows" fs = Some (VArr (before ++ r :: behind)) ->
  is_ok (map_result (row (lookup "name" fs)) before) = true ->
  row (lookup "name" fs) r = Err e ->
  delta d = Err e.
Proof.
  intros Hv0 H1 Hrows Hbefore Hr. rewrite (decode_delta_v0 d Hv0), H1, Hrows.
  unfold map_rows.
  rewrite (map_result_first_err _ before r behind e Hbefore Hr). reflexivity.
Qed.

(** C5, as the code has it.  When type [table_delta[]] decodes to the deltas
    [deltas], the worker posts a result exactly when every delta is a
    [table_delta_v0] whose rows all decode, and the result is then the deltas
    with each row's [data] replaced by its decoding against the table type
    named by the delta.  If some delta has another variant tag, nothing is
    posted: the worker throws.  What it throws is decided by the first delta
    that fails.  If that delta has another tag, it is the unsupported-delta
    error with the tag; a TypeError instead when the delta is null, which
    has no tag to read, or when the tag cannot be put into the message.
    Otherwise it is a TypeError when the delta holds no rows to map, and
    else the error of the first row of that delta that fails, which for a
    row with a string or a byte array as data, in a delta named by a string,
    is the error of [deserialize] on that data. *)
Theorem table_delta_rows_decoded :
  forall (d : input) (deltas : list value),
    dec "table_delta[]" d = Ok (VArr deltas) ->
    (forall out,
       worker "table_delta[]" (Some d) = Ok out <->
       exists ds, out = VArr ds /\ Forall2 (delta_decoded decode) deltas ds) /\
    (forall x, In x deltas -> is_v0 x = false ->
       is_ok (worker "table_delta[]" (Some d)) = false) /\
    (forall pre x post,
       deltas = pre ++ x :: post -> is_ok (map_result delta pre) = true ->
       x <> VNull -> is_v0 x = false ->
       (forall tag, item 0 x = Some tag -> unprintable tag = false) ->
       worker "table_delta[]" (Some d) = Err (UnsupportedDelta (item 0 x))) /\
    (forall pre x post,
       deltas = pre ++ x :: post -> is_ok (map_result delta pre) = true ->
       is_v0 x = false ->
       x = VNull \/ (exists tag, item 0 x = Some tag /\ unprintable tag = true) ->
       worker "table_delta[]" (Some d) = Err TypeError) /\
    (forall pre x post,
       deltas = pre ++ x :: post -> is_ok (map_result delta pre) = true ->
       is_v0 x = true -> has_rows x = false ->
       worker "table_delta[]" (Some d) = Err TypeError) /\
    (forall pre x post e,
       deltas = pre ++ x :: post -> is_ok (map_result delta pre) = true ->
       delta x = Err e ->
       worker "table_delta[]" (Some d) = Err e) /\
    (forall pre x post fs before r behind e,
       deltas = pre ++ x :: post ->
       is_ok (map_result delta pre) = true ->
       is_v0 x = true -> item 1 x = Some (VObj fs) ->
       lookup "rows" fs = Some (VArr (before ++ r :: behind)) ->
       is_ok (map_result (row (lookup "name" fs)) before) = true ->
       row (lookup "name" fs) r = Err e ->
       worker "table_delta[]" (Some d) = Err e) /\
    (forall n fs data i,
       lookup "data" fs = Some data -> as_input data = Some i ->
       decode (Some (VStr n)) (Some data) = dec n i /\
       row (Some (VStr n)) (VObj fs)
       = bind (dec n i) (fun v => Ok (VObj (set_field "data" v fs)))).
Proof.
  intros d deltas Hd.
  assert (Hw : worker "table_delta[]" (Some d)
               = bind (map_result delta deltas) (fun ds => Ok (VArr ds))).
  { unfold on_message. rewrite Hd. reflexivity. }
  rewrite Hw. parts.
  - intros out. split.
    + destruct (map_result delta deltas) as [ds|e] eqn:Em; simpl; [|discriminate].
      intros H. inversion H; subst. exists ds. split; [reflexivity|].
      apply map_result_ok in Em. eapply Forall2_impl; [|exact Em].
      intros a b Hab. apply decode_delta_ok. exact Hab.
    + intros (ds & -> & Hds).
      assert (Em : map_result delta deltas = Ok ds).
      { apply map_result_ok. eapply Forall2_impl; [|exact Hds].
        intros a b Hab. apply decode_delta_ok. exact Hab. }
      rewrite Em. reflexivity.
  - intros x Hin Hx.
    assert (He : is_ok (map_result delta deltas) = false).
    { apply (map_result_err_in delta deltas x Hin). apply decode_delta_not_v0, Hx. }
    destruct (map_result delta deltas); [discriminate | reflexivity].
  - intros pre x post -> Hpre Hn Hx Hp.
    rewrite (map_result_first_err delta pre x post _ Hpre
               (decode_delta_unsupported x Hn Hx Hp)).
    reflexivity.
  - intros pre x post -> Hpre Hx Hbad.
    rewrite (map_result_first_err delta pre x post _ Hpre
               (decode_delta_no_text x Hx Hbad)).
    reflexivity.
  - intros pre x post -> Hpre Hx Hrows.
    rewrite (map_result_first_err delta pre x post _ Hpre
               (decode_delta_no_rows x Hx Hrows)).
    reflexivity.
  - intros pre x post e -> Hpre Hx.
    rewrite (map_result_first_err delta pre x post _ Hpre Hx). reflexivity.
  - intros pre x post fs before r behind e -> Hpre Hv0 H1 Hrows Hbefore Hr.
    rewrite (map_result_first_err delta pre _ post e Hpre
               (decode_delta_first_row x fs before r behind e Hv0 H1 Hrows Hbefore Hr)).
    reflexivity.
  - intros n fs data i Hdata Hi.
    assert (Hcall : decode (Some (VStr n)) (Some data) = dec n i).
    { unfold deserialize_value. rewrite Hi. destruct data; try reflexivity. discriminate Hi. }
    split; [exact Hcall|]. rewrite decode_row_object, Hdata, Hcall. reflexivity.
Qed.

(** The portable backend on a byte array: it returns exactly when the type
    consumed the whole array, and raises its own error exactly when the type
    stopped elsewhere. *)
Lemma deserialize_bytes_exact (type : string) (a : list byte) :
  abieos = false ->
  (forall v, dec type (Bytes a) = Ok v <->
             exists ty, eosjsTypes type = Some ty /\ ty a = Some (v, List.length a)) /\
  (dec type (Bytes a) = Err (DeserializationError type) <->
   exists ty v n, eosjsTypes type = Some ty /\ ty a = Some (v, n) /\ n <> List.length a).
Proof.
  intros Hab. unfold dec, deserialize. rewrite Hab. simpl.
  destruct (eosjsTypes type) as [ty|] eqn:Et.
  - destruct (ty a) as [[v n]|] eqn:Ev.
    + destruct (Nat.eqb n (List.length a)) eqn:E.
      * apply Nat.eqb_eq in E. subst n. split.
        -- intros v'. split.
           ++ intros H. inversion H; subst. exists ty. split; [reflexivity | exact Ev].
           ++ intros (ty' & H1 & H2). inversion H1; subst. congruence.
        -- split; [discriminate|].
           intros (ty' & v' & n' & H1 & H2 & H3). inversion H1; subst.
           rewrite Ev in H2. inversion H2; subst. contradiction.
      * apply Nat.eqb_neq in E. split.
        -- intros v'. split; [discriminate|].
           intros (ty' & H1 & H2). inversion H1; subst.
           rewrite Ev in H2. inversion H2; subst. contradiction.
        -- split; [|reflexivity]. intros _. exists ty, v, n. auto.
    + split.
      * intros v'. split; [discriminate|]. intros (ty' & H1 & H2).
        inversion H1; subst. congruence.
      * split; [discriminate|]. intros (ty' & v' & n' & H1 & H2 & _).
        inversion H1; subst. congruence.
  - split.
    + intros v'. split; [discriminate|]. intros (ty' & H1 & _). discriminate.
    + split; [discriminate|]. intros (ty' & v' & n' & H1 & _). discriminate.
Qed.

(** The portable backend on a hexadecimal string: [readPos] counts bytes and
    [data.length] counts characters, so no string but the empty one passes
    the check, whatever the type reads. *)
Lemma deserialize_hex_never_returns (type s : string) :
  abieos = false ->
  (forall name ty a v n, eosjsTypes name = Some ty -> ty a = Some (v, n) ->
                         (n <= List.length a)%nat) ->
  s <> "" ->
  is_ok (dec type (Hex s)) = false.
Proof.
  intros Hab Hbound Hs. unfold dec, deserialize. rewrite Hab. simpl.
  destruct (eosjsTypes type) as [ty|] eqn:Et; [|reflexivity].
  destruct (ty (from_hex s)) as [[v n]|] eqn:Ev; [|reflexivity].
  specialize (Hbound _ _ _ _ _ Et Ev).
  pose proof (from_hex_length_bound (String.length s) s (le_n _)) as Hlen.
  destruct (Nat.eqb n (String.length s)) eqn:E; [|reflexivity].
  apply Nat.eqb_eq in E. destruct s; [contradiction|]. simpl in *. lia.
Qed.

End WorkerFacts.

Lemma table_delta_rows_decoded_witness :
  portable "table_delta[]" (Bytes one_good_delta)
    = Ok (VArr [VArr [VStr "table_delta_v0";
                      VObj [("name", VStr "counter");
                            ("rows", VArr [VObj [("present", VBool true);
                                                 ("data", VBytes [x07])]])]]]) /\
  (exists ds,
    portable_worker "table_delta[]" (Some (Bytes one_good_delta)) = Ok (VArr ds) /\
    Forall2 (delta_decoded portable_value)
      [VArr [VStr "table_delta_v0";
             VObj [("name", VStr "counter");
                   ("rows", VArr [VObj [("present", VBool true);
                                        ("data", VBytes [x07])]])]]] ds) /\
  portable_worker "table_delta[]" (Some (Bytes bad_row_then_v1))
    = Err (DeserializationError "counter") /\
  portable_worker "table_delta[]" (Some (Bytes one_v1_delta))
    = Err (UnsupportedDelta (Some (VStr "table_delta_v1"))).
Proof.
  assert (H : portable "table_delta[]" (Bytes one_good_delta)
              = Ok (VArr [VArr [VStr "table_delta_v0";
                                VObj [("name", VStr "counter");
                                      ("rows", VArr [VObj [("present", VBool true);
                                                           ("data", VBytes [x07])]])]]]))
    by reflexivity.
  split; [exact H|]. split; [|split].
  - destruct (table_delta_rows_decoded false no_abieos_hex no_abieos_bin ship_types
                no_other _ _ H) as (Hiff & _).
    destruct (portable_worker "table_delta[]" (Some (Bytes one_good_delta))) as [out|e] eqn:E.
    + destruct (proj1 (Hiff out) E) as (ds & -> & Hds).
      exists ds. split; [reflexivity | exact Hds].
    + discriminate E.
  - assert (H2 : portable "table_delta[]" (Bytes bad_row_then_v1)
                 = Ok (VArr [VArr [VStr "table_delta_v0";
                                   VObj [("name", VStr "counter");
                                         ("rows", VArr [VObj [("present", VBool true);
                                                              ("data", VBytes [x07; x08])]])]];
                             VArr [VStr "table_delta_v1";
                                   VObj [("name", VStr "counter"); ("rows", VArr [])]]]))
      by reflexivity.
    destruct (table_delta_rows_decoded false no_abieos_hex no_abieos_bin ship_types
                no_other _ _ H2) as (_ & _ & _ & _ & _ & _ & Hrow & _).
    apply (Hrow [] (VArr [VStr "table_delta_v0";
                          VObj [("name", VStr "counter");
                                ("rows", VArr [VObj [("present", VBool true);
                                                     ("data", VBytes [x07; x08])]])]])
             [VArr [VStr "table_delta_v1";
                    VObj [("name", VStr "counter"); ("rows", VArr [])]]]
             [("name", VStr "counter");
              ("rows", VArr [VObj [("present", VBool true); ("data", VBytes [x07; x08])]])]
             [] (VObj [("present", VBool true); ("data", VBytes [x07; x08])]) []);
      reflexivity.
  - assert (H3 : portable "table_delta[]" (Bytes one_v1_delta)
                 = Ok (VArr [VArr [VStr "table_delta_v1";
                                   VObj [("name", VStr "counter"); ("rows", VArr [])]]]))
      by reflexivity.
    destruct (table_delta_rows_decoded false no_abieos_hex no_abieos_bin ship_types
                no_other _ _ H3) as (_ & _ & Htag & _).
    apply (Htag [] (VArr [VStr "table_delta_v1";
                          VObj [("name", VStr "counter"); ("rows", VArr [])]]) []);
      try reflexivity; try discriminate.
    intros tag Ht. inversion Ht. reflexivity.
Defined.

(** C5 as stated fails: the second delta is not a [table_delta_v0], yet the
    error is not the unsupported-delta one; a row of the first delta does not
    decode and its error comes first. *)
Lemma unsupported_delta_counterexample :
  exists d1 d2,
    portable "table_delta[]" (Bytes bad_row_then_v1) = Ok (VArr [d1; d2]) /\
    item 0 d2 = Some (VStr "table_delta_v1") /\
    is_v0 d2 = false /\
    portable_worker "table_delta[]" (Some (Bytes bad_row_then_v1))
      = Err (DeserializationError "counter") /\
    portable_worker "table_delta[]" (Some (Bytes bad_row_then_v1))
      <> Err (UnsupportedDelta (item 0 d2)).
Proof.
  eexists. eexists. parts.
  - reflexivity.
  - reflexivity.
  - reflexivity.
  - reflexivity.
  - discriminate.
Qed.

(** C4 fails on the code for hexadecimal strings.  The byte 2a decodes as a
    [uint8] and the type consumes the whole input (one byte); given as a byte
    array the value 42 is returned, given as the string of its two digits
    the backend raises its decode error. *)
Theorem hex_input_rejected_after_full_decode :
  from_hex "2a" = [x2a] /\
  as_type read_byte VNum [x2a] = Some (VNum 42, List.length [x2a]) /\
  portable "uint8" (Bytes [x2a]) = Ok (VNum 42) /\
  portable "uint8" (Hex "2a") = Err (DeserializationError "uint8").
Proof. parts; reflexivity. Qed.

(** ** The market statistics view *)

Import StatsView.

Lemma filter_map_none {A B : Type} (f : B -> bool) (g : A -> B) (l : list A) :
  (forall x, f (g x) = false) -> filter f (map g l) = [].
Proof.
  intros H. induction l as [|x l IH]; simpl; [reflexivity|]. rewrite H. exact IH.
Qed.

Lemma filter_map_all {A B : Type} (f : B -> bool) (g : A -> B) (l : list A) :
  (forall x, f (g x) = true) -> filter f (map g l) = map g l.
Proof.
  intros H. induction l as [|x l IH]; simpl; [reflexivity|]. rewrite H, IH. reflexivity.
Qed.

Lemma auction_where_spec (now_us : Z) (a : auction) :
  holds (auction_where now_us a) = true <-> ended_with_buyer now_us a.
Proof.
  unfold auction_where, ended_with_buyer, before_now, sql_eq, is_not_null. split.
  - destruct (a_buyer a) as [b|], (a_state a) as [s|], (a_end_time a) as [e|];
      simpl; try discriminate;
      repeat match goal with
             | |- context [?x <? ?y] => destruct (x <? y) eqn:?
             | |- context [?x =? ?y] => destruct (x =? y) eqn:?
             end; simpl; try discriminate.
    intros _.
    match goal with
    | H1 : (_ =? 1) = true, H2 : (_ <? _) = true |- _ =>
        apply Z.eqb_eq in H1; apply Z.ltb_lt in H2; subst s
    end.
    parts; [reflexivity | discriminate | exists e; split; [reflexivity | assumption]].
  - intros (Hs & Hb & e & He & Hlt). rewrite Hs, He.
    destruct (a_buyer a); [|contradiction]. simpl.
    apply Z.ltb_lt in Hlt. rewrite Hlt. reflexivity.
Qed.

(** C8. The rows of the view with listing type auction are exactly the
    auctions that are stored with state 1 (LISTED), have a buyer and whose
    end time lies before the current time, one row for each; no stored SOLD
    state is needed, and an auction with a null buyer, another state or an
    end time that has not passed gives no auction row. *)
Theorem expired_auctions_counted_as_sold :
  forall (sales : list sale) (auctions : list auction) (buyoffers : list buyoffer)
         (now_us : Z) (a : auction),
    In a auctions ->
    let v := atomicmarket_stats_markets_master sales auctions buyoffers now_us in
    auction_rows v
      = map auction_select (filter (fun x => holds (auction_where now_us x)) auctions) /\
    (forall x, holds (auction_where now_us x) = true <-> ended_with_buyer now_us x) /\
    listing_type (auction_select a) = "auction" /\
    (ended_with_buyer now_us a -> In (auction_select a) (auction_rows v)) /\
    (~ ended_with_buyer now_us a ->
       ~ In a (filter (fun x => holds (auction_where now_us x)) auctions)).
Proof.
  intros sales auctions buyoffers now_us a Hin v.
  assert (Hrows : auction_rows v
            = map auction_select (filter (fun x => holds (auction_where now_us x)) auctions)).
  { subst v. unfold auction_rows, atomicmarket_stats_markets_master.
    rewrite !filter_app.
    rewrite (filter_map_none _ sale_select) by reflexivity.
    rewrite (filter_map_none _ buyoffer_select) by reflexivity.
    rewrite (filter_map_all _ auction_select) by reflexivity.
    rewrite app_nil_r. reflexivity. }
  parts.
  - exact Hrows.
  - intros x. apply auction_where_spec.
  - reflexivity.
  - intros He. rewrite Hrows. apply in_map, filter_In. split; [exact Hin|].
    apply auction_where_spec, He.
  - intros Hne Hf. apply filter_In in Hf. destruct Hf as [_ Hf].
    apply Hne, auction_where_spec, Hf.
Qed.

Lemma expired_auctions_counted_as_sold_witness :
  In expired_auction [expired_auction] /\
  ended_with_buyer one_second_later expired_auction /\
  In (auction_select expired_auction)
     (auction_rows (atomicmarket_stats_markets_master [] [expired_auction] []
                      one_second_later)).
Proof.
  assert (Hin : In expired_auction [expired_auction]) by (left; reflexivity).
  assert (He : ended_with_buyer one_second_later expired_auction).
  { unfold ended_with_buyer. parts; [reflexivity | discriminate |].
    exists 1700000000. split; [reflexivity | reflexivity]. }
  parts; [exact Hin | exact He |].
  apply (expired_auctions_counted_as_sold [] [expired_auction] [] one_second_later
           expired_auction Hin).
  exact He.
Defined.

(** ** The single-entity routes *)

Import Api.

(** C9. When the query finds no row, the sale and the collection routes
    answer with status 416 and the auction and the asset routes with status
    500, all four with success = false: the not-found status is not the same
    on all single-entity routes. *)
Theorem not_found_status_differs :
  forall (formatAuction : json -> option json) (fillAuctions : list json -> option (list json))
         (formatSale : json -> option json) (fillSales : list json -> option (list json))
         (formatAsset : json -> option json) (q : query_result) (now : Z),
    rowCount q = 0 ->
    get_sale formatSale fillSales (Some q) now
      = {| status := 416; body := failure "Sale not found" |} /\
    get_collection (Some q) now
      = {| status := 416; body := failure "Collection not found" |} /\
    get_auction formatAuction fillAuctions (Some q)
      = {| status := 500; body := failure "Auction not found" |} /\
    get_asset formatAsset (Some q) now
      = {| status := 500; body := failure "Asset not found" |} /\
    succeeded (get_sale formatSale fillSales (Some q) now) = Some (JBool false) /\
    succeeded (get_collection (Some q) now) = Some (JBool false) /\
    succeeded (get_auction formatAuction fillAuctions (Some q)) = Some (JBool false) /\
    succeeded (get_asset formatAsset (Some q) now) = Some (JBool false) /\
    status (get_sale formatSale fillSales (Some q) now)
      <> status (get_auction formatAuction fillAuctions (Some q)).
Proof.
  intros formatAuction fillAuctions formatSale fillSales formatAsset q now Hq.
  unfold get_sale, get_collection, get_auction, get_asset.
  rewrite Hq. simpl. parts; try reflexivity. discriminate.
Qed.

Lemma not_found_status_differs_witness :
  rowCount [] = 0 /\
  status (get_sale as_is keep (Some []) 1700000000000) = 416 /\
  status (get_auction as_is keep (Some [])) = 500.
Proof.
  assert (H : rowCount [] = 0) by reflexivity.
  destruct (not_found_status_differs as_is keep as_is keep as_is [] 1700000000000 H)
    as (Hs & _ & Ha & _).
  parts; [exact H | exact (f_equal status Hs) | exact (f_equal status Ha)].
Defined.

(** ** The token route *)

Import Auth.






(** * Further properties *)

(** ** The handler: commits, live blocks, failing jobs *)

Lemma warnings_app (a b : list event) : warnings (a ++ b) = warnings a ++ warnings b.
Proof. apply flat_map_app. Qed.

(** [onCommit] attempts every queued job once, whatever redis answers, logs
    one warning for each attempt that fails, always ends with an empty list
    and a paused queue, and a second [onCommit] has nothing left to
    publish. *)
Theorem commit_attempts_each_job_once :
  forall (JSON_stringify : json -> string) (redis_publish redis_publish' : string -> string -> bool)
         (h : AtomicMarketHandler),
    publishes (snd (onCommit JSON_stringify redis_publish h))
      = map (fun pj => (channelName h (n_prefix (snd pj)), JSON_stringify (payload (snd pj))))
            (PQueue.queue (notificationQueue h)) /\
    publishes (snd (onCommit JSON_stringify redis_publish h))
      = publishes (snd (onCommit JSON_stringify redis_publish' h)) /\
    warnings (snd (onCommit JSON_stringify redis_publish h))
      = map (fun pj => n_trace (snd pj))
          (filter (fun pj => negb (redis_publish (channelName h (n_prefix (snd pj)))
                                                 (JSON_stringify (payload (snd pj)))))
                  (PQueue.queue (notificationQueue h))) /\
    notificationJobs (fst (onCommit JSON_stringify redis_publish h)) = [] /\
    notificationQueue (fst (onCommit JSON_stringify redis_publish h)) = PQueue.mk true [] /\
    snd (onCommit JSON_stringify redis_publish
           (fst (onCommit JSON_stringify redis_publish h))) = [].
Proof.
  intros stringify publish publish' h. parts; try reflexivity.
  - apply onCommit_publishes.
  - rewrite !onCommit_publishes. reflexivity.
  - unfold onCommit. simpl.
    induction (PQueue.queue (notificationQueue h)) as [|pj q IH]; simpl; [reflexivity|].
    rewrite warnings_app, IH. unfold run_notification.
    destruct (publish _ _); reflexivity.
Qed.

(** On a block that is still reversible, every notification pushed by the
    jobs of the queue is staged behind the ones already staged, in the order
    in which the jobs ran, whatever the flag was before the block (the flag
    of a handler that has just caught up is still false).  This holds as
    well when a job throws and [onBlockComplete] with it: the jobs behind
    the failed one still run and their notifications are staged.  A commit
    after that publishes all of them in that order. *)
Theorem live_block_stages_job_notifications :
  forall (JSON_stringify : json -> string) (redis_publish : string -> string -> bool)
         (h : AtomicMarketHandler) (db : ContractDBTransaction),
    lastIrreversibleBlock db < currentBlock db ->
    staging h ->
    let o := onBlockComplete h db in
    let pushed :=
      flat_map (fun x => stmt_pushes (u_fn (snd x))) (PQueue.queue (updateQueue h)) in
    started (outcome_trace o) = PQueue.queue (updateQueue h) /\
    notificationJobs (outcome_handler o) = notificationJobs h ++ map PromiseOf pushed /\
    publishes (snd (onCommit JSON_stringify redis_publish (outcome_handler o)))
      = map (fun j => (channelName h (n_prefix j), JSON_stringify (payload j)))
            (map job_of (notificationJobs h) ++ pushed).
Proof.
  intros stringify publish h db Hlt Hst o pushed.
  assert (Hjobs : notificationJobs (outcome_handler o)
                  = notificationJobs h ++ map PromiseOf pushed).
  { apply onBlockComplete_pushes, Hlt. }
  destruct (onBlockComplete_spec h db)
    as (_ & O1 & O2 & O3 & Ost & _ & _ & _ & _ & _ & _ & Ostarted & _).
  fold o in O1, O2, O3, Ost, Ostarted.
  parts; [exact Ostarted | exact Hjobs |].
  destruct (onCommit_spec stringify publish (outcome_handler o) (Ost Hst)) as (P1 & _).
  rewrite P1, Hjobs, !map_app, !map_map. unfold channelName.
  rewrite O1, O2, O3. reflexivity.
Qed.

Lemma live_block_stages_job_notifications_witness :
  lastIrreversibleBlock db11_live < currentBlock db11_live /\
  staging failing_queued /\
  returned (onBlockComplete failing_queued db11_live) = false /\
  map job_of (notificationJobs (outcome_handler (onBlockComplete failing_queued db11_live)))
    = [{| n_block := block11; n_tx := JNull; n_prefix := "sales"; n_name := "state_change";
          n_data := sale5; n_trace := "actions.ts:120" |}].
Proof.
  assert (H1 : lastIrreversibleBlock db11_live < currentBlock db11_live) by (simpl; lia).
  assert (H2 : staging failing_queued) by (split; reflexivity).
  parts; [exact H1 | exact H2 | reflexivity |].
  destruct (live_block_stages_job_notifications print_json redis_up
              failing_queued db11_live H1 H2) as (_ & Hj & _).
  rewrite Hj. reflexivity.
Defined.

Lemma job_ok_first_throw (job : UpdateJob) :
  job_ok job = true <-> first_throw (u_fn job) = None.
Proof.
  unfold job_ok. induction (u_fn job) as [|s ss IH]; simpl.
  - split; reflexivity.
  - destruct s; simpl; try exact IH. split; discriminate.
Qed.

Lemma first_error_behind (pre : list (Z * UpdateJob)) (p : Z) (job : UpdateJob)
    (post : list (Z * UpdateJob)) (e : string) :
  forallb job_ok (map snd pre) = true -> first_throw (u_fn job) = Some e ->
  first_error (pre ++ (p, job) :: post) = Some e /\
  flat_map (fun x => job_errors (snd x)) (pre ++ (p, job) :: post)
    = e :: u_trace job :: flat_map (fun x => job_errors (snd x)) post.
Proof.
  intros Hpre He. induction pre as [|[p0 j0] pre IH]; simpl.
  - unfold job_errors at 1. simpl. rewrite He. split; reflexivity.
  - simpl in Hpre. apply andb_true_iff in Hpre. destruct Hpre as [H0 Hpre].
    apply job_ok_first_throw in H0. unfold job_errors at 1. simpl. rewrite H0.
    apply IH, Hpre.
Qed.

(** When a job of the block throws, [onBlockComplete] throws the error of
    the first job that threw, and the queue is not stopped by it: every job
    of the queue is started, those behind the failed one included, and runs
    its statements up to its own throw; every job that throws logs its error
    and the stack trace taken when it was enqueued.  [pause()] and the reset
    of the list are not reached: the queue ends empty and started, the
    promise list is as it was. *)
Theorem failing_job_does_not_stop_the_queue :
  forall (h : AtomicMarketHandler) (db : ContractDBTransaction)
         (pre : list (Z * UpdateJob)) (p : Z) (job : UpdateJob)
         (post : list (Z * UpdateJob)) (e : string),
    promises_queued h ->
    PQueue.queue (updateQueue h) = pre ++ (p, job) :: post ->
    forallb job_ok (map snd pre) = true ->
    first_throw (u_fn job) = Some e ->
    exists h' tr,
      onBlockComplete h db = Threw e h' tr /\
      started tr = pre ++ (p, job) :: post /\
      db_writes tr
        = flat_map (fun x => writes_until_throw (u_fn (snd x))) (pre ++ (p, job) :: post) /\
      errors_logged tr = e :: u_trace job :: flat_map (fun x => job_errors (snd x)) post /\
      updateQueue h' = PQueue.mk false [] /\
      updateJobs h' = updateJobs h.
Proof.
  intros h db pre p job post e _ Hq Hpre He.
  destruct (first_error_behind pre p job post e Hpre He) as [Hfirst Hlogged].
  unfold onBlockComplete. set (h0 := set_update _ _ _).
  change (PQueue.queue (PQueue.start (updateQueue (set_reversible h
            (currentBlock db >? lastIrreversibleBlock db))))) with (PQueue.queue (updateQueue h)).
  rewrite Hq.
  destruct (drain h0 (pre ++ (p, job) :: post)) as [[h2 tr] r] eqn:Hd.
  destruct (drain_pushes _ _ _ _ _ Hd) as (Hr & Herr & _).
  destruct (drain_spec _ _ _ _ _ Hd)
    as ((_ & _ & _ & _ & _ & C6) & _ & _ & _ & _ & Hst & _ & Hdb & _).
  rewrite Hfirst in Hr. subst r.
  eexists. exists tr. parts; try reflexivity; try assumption.
  rewrite Herr. exact Hlogged.
Qed.

Lemma failing_job_does_not_stop_the_queue_witness :
  promises_queued failing_queued /\
  exists h' tr,
    onBlockComplete failing_queued db11_live = Threw "auction 9 not found" h' tr /\
    started tr = [(70, {| u_fn := failing_job; u_trace := "tables.ts:52" |});
                  (50, {| u_fn := update_sale5; u_trace := "actions.ts:88" |})] /\
    db_writes tr = ["UPDATE atomicmarket_auctions SET state = 1 WHERE auction_id = 9";
                    "UPDATE atomicmarket_sales SET state = 3 WHERE sale_id = 5"] /\
    errors_logged tr = ["auction 9 not found"; "tables.ts:52"] /\
    updateQueue h' = PQueue.mk false [].
Proof.
  assert (Hp : promises_queued failing_queued) by apply perm_swap.
  split; [exact Hp|].
  destruct (failing_job_does_not_stop_the_queue failing_queued db11_live []
              70 {| u_fn := failing_job; u_trace := "tables.ts:52" |}
              [(50, {| u_fn := update_sale5; u_trace := "actions.ts:88" |})]
              "auction 9 not found" Hp)
    as (h' & tr & H1 & H2 & H3 & H4 & H5 & _); try reflexivity.
  exists h', tr. parts; [exact H1 | exact H2 | exact H3 | exact H4 | exact H5].
Defined.

(** ** The deserializer worker: shape of the result *)

Import WorkerShape.

Lemma lookup_set_field (k k' : string) (v : value) (fs : list (string * value)) :
  k <> k' -> lookup k (set_field k' v fs) = lookup k fs.
Proof.
  intros Hne. induction fs as [|[k0 v0] fs IH]; simpl.
  - destruct (String.eqb k' k) eqn:E; [|reflexivity].
    apply String.eqb_eq in E. congruence.
  - destruct (String.eqb k0 k') eqn:E0; simpl.
    + apply String.eqb_eq in E0. subst k0.
      destruct (String.eqb k' k) eqn:E; [apply String.eqb_eq in E; congruence|].
      reflexivity.
    + destruct (String.eqb k0 k); [reflexivity | exact IH].
Qed.

Lemma lookup_set_field_same (k : string) (v : value) (fs : list (string * value)) :
  lookup k (set_field k v fs) = Some v.
Proof.
  induction fs as [|[k0 v0] fs IH]; simpl.
  - rewrite String.eqb_refl. reflexivity.
  - destruct (String.eqb k0 k) eqn:E0; simpl.
    + rewrite String.eqb_refl. reflexivity.
    + rewrite E0. exact IH.
Qed.

Section WorkerShapeFacts.

Variable abieos : bool.
Variable hex_to_json : string -> string -> result value.
Variable bin_to_json : string -> list byte -> result value.
Variable eosjsTypes : string -> option eosjs_type.
Variable deserialize_other : option value -> value -> result value.

Local Abbreviation dec := (deserialize abieos hex_to_json bin_to_json eosjsTypes).
Local Abbreviation decode :=
  (deserialize_value abieos hex_to_json bin_to_json eosjsTypes deserialize_other).
Local Abbreviation worker :=
  (on_message abieos hex_to_json bin_to_json eosjsTypes deserialize_other).

Lemma rows_decoded_same (name : option value) (rows rows' : value) :
  rows_decoded decode name rows rows' ->
  Forall2 same_but_data
    (match rows with VArr rs => rs | _ => [] end)
    (match rows' with VArr rs => rs | _ => [] end).
Proof.
  intros [(rs & rs' & -> & Hall & ->) | [-> ->]]; [|constructor].
  eapply Forall2_impl; [|exact Hall].
  intros r r' (rfs & v & -> & _ & ->) k Hk.
  simpl. apply lookup_set_field. exact Hk.
Qed.

Lemma delta_decoded_same_shape (d d' : value) :
  delta_decoded decode d d' -> same_shape d d'.
Proof.
  intros (fs & rows & rows' & H0 & H1 & Hrows & Hall & ->).
  apply rows_decoded_same in Hall.
  destruct d as [| | |s|bs|items|dfs]; try discriminate H1.
  - unfold item in H1. destruct (String.get 1 s); discriminate H1.
  - unfold item in H1. destruct (nth_error bs 1); discriminate H1.
  - destruct items as [|tag [|second rest]]; try discriminate H1.
    simpl in H1. inversion H1; subst second.
    unfold same_shape, rows_of, field. simpl. parts.
    + reflexivity.
    + intros k Hk. apply lookup_set_field. exact Hk.
    + rewrite Hrows, lookup_set_field_same.
      destruct rows, rows'; exact Hall.
  - unfold same_shape, rows_of, field. simpl. parts.
    + reflexivity.
    + reflexivity.
    + constructor.
Qed.

(** When the worker posts decoded table deltas, it has changed nothing but
    the [data] of the rows: there are as many deltas as were decoded, each
    with its tag, its name and every other field, and as many rows in each,
    every row with its other fields (such as [present]) untouched. *)
Theorem worker_changes_row_data_only :
  forall (d : input) (deltas ds : list value),
    dec "table_delta[]" d = Ok (VArr deltas) ->
    worker "table_delta[]" (Some d) = Ok (VArr ds) ->
    List.length ds = List.length deltas /\
    Forall2 same_shape deltas ds /\
    Forall2 (fun x y => List.length (rows_of y) = List.length (rows_of x)) deltas ds.
Proof.
  intros d deltas ds Hd Hw. unfold on_message in Hw. rewrite Hd in Hw. simpl in Hw.
  destruct (map_result
              (decode_delta abieos hex_to_json bin_to_json eosjsTypes deserialize_other)
              deltas)
    as [out|e] eqn:Em; simpl in Hw; [|discriminate].
  inversion Hw; subst out. apply map_result_ok in Em.
  assert (Hshape : Forall2 same_shape deltas ds).
  { eapply Forall2_impl; [|exact Em].
    intros a b Hab. apply delta_decoded_same_shape, decode_delta_ok, Hab. }
  parts.
  - symmetry. eapply Forall2_length. exact Em.
  - exact Hshape.
  - eapply Forall2_impl; [|exact Hshape].
    intros a b (_ & _ & Hr). symmetry. eapply Forall2_length. exact Hr.
Qed.

(** A message without data is answered with null, whatever the type; a type
    other than [table_delta[]] is answered with what [deserialize] gives. *)
Lemma worker_passes_plain_types (type : string) (d : input) :
  type <> "table_delta[]" ->
  worker type None = Ok VNull /\ worker type (Some d) = dec type d.
Proof.
  intros Hne. split; [reflexivity|]. unfold on_message.
  destruct (dec type d) as [v|e]; simpl; [|reflexivity].
  destruct (String.eqb type "table_delta[]") eqn:E; [|reflexivity].
  apply String.eqb_eq in E. contradiction.
Qed.

End WorkerShapeFacts.

Lemma ship_types_bounded (name : string) (ty : eosjs_type) (a : list byte) (v : value) (n : nat) :
  ship_types name = Some ty -> ty a = Some (v, n) -> (n <= List.length a)%nat.
Proof.
  unfold ship_types, as_type. intros Hty Hv.
  destruct (String.eqb name "uint8");
    [|destruct (String.eqb name "counter");
      [|destruct (String.eqb name "table_delta[]"); [|discriminate]]];
    inversion Hty; subst ty; clear Hty.
  - destruct (read_byte a) as [[x rest]|]; inversion Hv; subst. lia.
  - destruct (read_byte a) as [[x rest]|]; inversion Hv; subst. lia.
  - destruct (read_array read_delta a) as [[x rest]|]; inversion Hv; subst. lia.
Qed.

Lemma worker_changes_row_data_only_witness :
  exists ds,
    portable_worker "table_delta[]" (Some (Bytes one_good_delta)) = Ok (VArr ds) /\
    List.length ds = 1%nat.
Proof.
  assert (H : portable "table_delta[]" (Bytes one_good_delta)
              = Ok (VArr [VArr [VStr "table_delta_v0";
                                VObj [("name", VStr "counter");
                                      ("rows", VArr [VObj [("present", VBool true);
                                                           ("data", VBytes [x07])]])]]]))
    by reflexivity.
  eexists. split; [reflexivity|].
  apply (worker_changes_row_data_only false no_abieos_hex no_abieos_bin ship_types
           no_other (Bytes one_good_delta) _ _ H).
  reflexivity.
Defined.

Lemma deserialize_bytes_exact_witness :
  portable "uint8" (Bytes [x2a; x2b]) = Err (DeserializationError "uint8") /\
  exists ty v n, ship_types "uint8" = Some ty /\ ty [x2a; x2b] = Some (v, n) /\ n <> 2%nat.
Proof.
  split; [reflexivity|].
  apply (proj2 (deserialize_bytes_exact false no_abieos_hex no_abieos_bin ship_types
                  "uint8" [x2a; x2b] eq_refl)).
  reflexivity.
Defined.

Lemma deserialize_hex_never_returns_witness :
  is_ok (portable "counter" (Hex "07")) = false.
Proof.
  apply (deserialize_hex_never_returns false no_abieos_hex no_abieos_bin ship_types
           "counter" "07" eq_refl ship_types_bounded).
  discriminate.
Defined.

(** With the portable backend, a byte array is decoded exactly when the
    type consumes all of it: [deserialize] returns the value the type read
    when the type stopped at the end of the array, and raises its own
    error, naming the type, when the type stopped anywhere else. *)
Theorem bytes_decoded_when_fully_consumed :
  forall (hex_to_json : string -> string -> result value)
         (bin_to_json : string -> list byte -> result value)
         (eosjsTypes : string -> option eosjs_type) (type : string) (a : list byte),
    (forall v,
       deserialize false hex_to_json bin_to_json eosjsTypes type (Bytes a) = Ok v <->
       exists ty, eosjsTypes type = Some ty /\ ty a = Some (v, List.length a)) /\
    (deserialize false hex_to_json bin_to_json eosjsTypes type (Bytes a)
       = Err (DeserializationError type) <->
     exists ty v n, eosjsTypes type = Some ty /\ ty a = Some (v, n) /\ n <> List.length a).
Proof.
  intros hex_to_json bin_to_json eosjsTypes type a.
  apply deserialize_bytes_exact. reflexivity.
Qed.

(** ** The view: every row by its type *)

Import StatsRows.

Lemma sale_where_spec (s : sale) : holds (sale_where s) = sold_with_price s.
Proof.
  unfold sale_where, sold_with_price, sql_eq, is_not_null.
  destruct (s_final_price s), (s_state s) as [st|]; simpl; try reflexivity;
    destruct (st =? 3); reflexivity.
Qed.

Lemma buyoffer_where_spec (b : buyoffer) : holds (buyoffer_where b) = accepted b.
Proof.
  unfold buyoffer_where, accepted, sql_eq.
  destruct (b_state b) as [st|]; simpl; [|reflexivity]. destruct (st =? 3); reflexivity.
Qed.

Lemma view_rows_by_type (sales : list sale) (auctions : list auction)
    (buyoffers : list buyoffer) (now_us : Z) :
  let v := atomicmarket_stats_markets_master sales auctions buyoffers now_us in
  rows_of_type "sale" v = map sale_select (filter sold_with_price sales) /\
  rows_of_type "auction" v
    = map auction_select (filter (fun a => holds (auction_where now_us a)) auctions) /\
  rows_of_type "buyoffer" v = map buyoffer_select (filter accepted buyoffers).
Proof.
  intros v. subst v. unfold rows_of_type, atomicmarket_stats_markets_master.
  rewrite (filter_ext _ _ sale_where_spec), (filter_ext _ _ buyoffer_where_spec).
  parts; rewrite !filter_app.
  - rewrite (filter_map_all _ sale_select) by reflexivity.
    rewrite (filter_map_none _ auction_select) by reflexivity.
    rewrite (filter_map_none _ buyoffer_select) by reflexivity.
    rewrite !app_nil_r. reflexivity.
  - rewrite (filter_map_none _ sale_select) by reflexivity.
    rewrite (filter_map_all _ auction_select) by reflexivity.
    rewrite (filter_map_none _ buyoffer_select) by reflexivity.
    rewrite app_nil_r. reflexivity.
  - rewrite (filter_map_none _ sale_select) by reflexivity.
    rewrite (filter_map_none _ auction_select) by reflexivity.
    rewrite (filter_map_all _ buyoffer_select) by reflexivity.
    reflexivity.
Qed.

(** The view holds one row for each sale stored with state 3 and a final
    price, one for each buy offer stored with state 3, and the auction rows;
    every row is of one of the three types, so the view has as many rows as
    these three groups together.  A sale in state 3 whose final price is
    NULL gives no row. *)
Theorem view_rows_are_sold_listings :
  forall (sales : list sale) (auctions : list auction) (buyoffers : list buyoffer)
         (now_us : Z),
    let v := atomicmarket_stats_markets_master sales auctions buyoffers now_us in
    rows_of_type "sale" v = map sale_select (filter sold_with_price sales) /\
    rows_of_type "buyoffer" v = map buyoffer_select (filter accepted buyoffers) /\
    (forall l, In l v ->
       listing_type l = "sale" \/ listing_type l = "auction" \/ listing_type l = "buyoffer") /\
    List.length v
      = (List.length (filter sold_with_price sales)
         + List.length (rows_of_type "auction" v)
         + List.length (filter accepted buyoffers))%nat /\
    (forall s, In s sales -> s_final_price s = None ->
       ~ In s (filter sold_with_price sales)).
Proof.
  intros sales auctions buyoffers now_us v.
  destruct (view_rows_by_type sales auctions buyoffers now_us) as (Hs & Ha & Hb).
  fold v in Hs, Ha, Hb. parts.
  - exact Hs.
  - exact Hb.
  - intros l Hl. subst v. unfold atomicmarket_stats_markets_master in Hl.
    rewrite !in_app_iff, !in_map_iff in Hl.
    destruct Hl as [(x & <- & _) | [(x & <- & _) | (x & <- & _)]]; auto.
  - rewrite Ha. subst v. unfold atomicmarket_stats_markets_master.
    rewrite (filter_ext _ _ sale_where_spec), (filter_ext _ _ buyoffer_where_spec).
    rewrite !length_app, !length_map. lia.
  - intros s _ Hnull Hin. apply filter_In in Hin. destruct Hin as [_ Hin].
    unfold sold_with_price in Hin. rewrite Hnull in Hin. discriminate.
Qed.

Lemma view_rows_are_sold_listings_witness :
  In sale_without_price [sale_without_price] /\
  s_final_price sale_without_price = None /\
  ~ In sale_without_price (filter sold_with_price [sale_without_price]).
Proof.
  assert (Hin : In sale_without_price [sale_without_price]) by (left; reflexivity).
  destruct (view_rows_are_sold_listings [sale_without_price] [] [] one_second_later)
    as (_ & _ & _ & _ & H).
  parts; [exact Hin | reflexivity | exact (H sale_without_price Hin eq_refl)].
Defined.

(** An auction row of the view carries as its time the end of the auction
    in milliseconds, and that time lies before the clock of the database. *)
Theorem auction_rows_lie_in_the_past :
  forall (sales : list sale) (auctions : list auction) (buyoffers : list buyoffer)
         (now_us : Z) (l : listing),
    In l (rows_of_type "auction"
            (atomicmarket_stats_markets_master sales auctions buyoffers now_us)) ->
    exists a e,
      In a auctions /\ l = auction_select a /\ a_end_time a = Some e /\
      time l = Some (e * 1000) /\ e * 1000 * 1000 < now_us /\
      a_state a = Some 1 /\ a_buyer a <> None.
Proof.
  intros sales auctions buyoffers now_us l Hl.
  destruct (view_rows_by_type sales auctions buyoffers now_us) as (_ & Ha & _).
  rewrite Ha in Hl. apply in_map_iff in Hl. destruct Hl as (a & <- & Hin).
  apply filter_In in Hin. destruct Hin as [Hin Hw].
  apply auction_where_spec in Hw. destruct Hw as (Hs & Hb & e & He & Hlt).
  exists a, e. parts; auto.
  - simpl. rewrite He. reflexivity.
  - lia.
Qed.

Lemma auction_rows_lie_in_the_past_witness :
  exists a e,
    In a [expired_auction] /\ auction_select expired_auction = auction_select a /\
    a_end_time a = Some e /\ time (auction_select expired_auction) = Some (e * 1000) /\
    e * 1000 * 1000 < one_second_later /\ a_state a = Some 1 /\ a_buyer a <> None.
Proof.
  apply (auction_rows_lie_in_the_past [] [expired_auction] [] one_second_later
           (auction_select expired_auction)).
  simpl. left. reflexivity.
Defined.

(** ** The single-entity routes: status and success flag *)

(** On each of the four routes the status is 200, 416 or 500, and the body
    says success = true exactly when the status is 200; a database call that
    throws is answered 500 with Internal Server Error. *)
Theorem status_agrees_with_success_flag :
  forall (formatAuction : json -> option json) (fillAuctions : list json -> option (list json))
         (formatSale : json -> option json) (fillSales : list json -> option (list json))
         (formatAsset : json -> option json) (query : option query_result) (now : Z)
         (r : Api.response),
    In r [get_auction formatAuction fillAuctions query;
          get_sale formatSale fillSales query now;
          get_collection query now;
          get_asset formatAsset query now] ->
    (status r = 200 \/ status r = 416 \/ status r = 500) /\
    (status r = 200 <-> succeeded r = Some (JBool true)) /\
    (status r <> 200 <-> succeeded r = Some (JBool false)) /\
    (query = None -> r = {| status := 500; body := Api.failure "Internal Server Error" |}).
Proof.
  intros formatAuction fillAuctions formatSale fillSales formatAsset query now r Hr.
  assert (Hcases :
    (status r = 200 /\ succeeded r = Some (JBool true) /\ query <> None) \/
    (status r = 416 /\ succeeded r = Some (JBool false) /\ query <> None) \/
    (status r = 500 /\ succeeded r = Some (JBool false) /\
     (query = None -> r = {| status := 500; body := Api.failure "Internal Server Error" |}))).
  { simpl in Hr. destruct Hr as [<-|[<-|[<-|[<-|[]]]]];
      unfold get_auction, get_sale, get_collection, get_asset;
      (destruct query as [q|];
       [ destruct (rowCount q =? 0);
         [ try (left; repeat split; discriminate);
           try (right; left; repeat split; discriminate);
           right; right; repeat split; discriminate
         | ]
       | right; right; repeat split ]).
    - destruct (map_option formatAuction q) as [f|];
        [destruct (fillAuctions f)|];
        try (left; repeat split; discriminate);
        right; right; repeat split; discriminate.
    - destruct (map_option formatSale q) as [f|];
        [destruct (fillSales f)|];
        try (left; repeat split; discriminate);
        right; right; repeat split; discriminate.
    - left; repeat split; discriminate.
    - destruct (option_map formatAsset (hd_error q)) as [[d|]|];
        try (left; repeat split; discriminate);
        right; right; repeat split; discriminate. }
  destruct Hcases as [(Hs & Hb & Hq) | [(Hs & Hb & Hq) | (Hs & Hb & Hq)]];
    rewrite Hs, Hb; parts; auto; try (split; intros; try reflexivity; try lia; congruence);
    try (intros; contradiction).
Qed.

Lemma status_agrees_with_success_flag_witness :
  status (get_collection (Some [JObj [("collection_name", JStr "cards")]]) 1700000000000) = 200 /\
  succeeded (get_collection (Some [JObj [("collection_name", JStr "cards")]]) 1700000000000)
    = Some (JBool true).
Proof.
  destruct (status_agrees_with_success_flag as_is keep as_is keep as_is
              (Some [JObj [("collection_name", JStr "cards")]]) 1700000000000
              (get_collection (Some [JObj [("collection_name", JStr "cards")]]) 1700000000000))
    as (_ & Hiff & _).
  - simpl. right. right. left. reflexivity.
  - split; [reflexivity|]. apply Hiff. reflexivity.
Defined.

(** ** The token route: grants and replays *)

Import AuthFacts.

Lemma validate_signed_as (req : request) (a p : string) :
  well_formed req = true -> well_formed (signed_as req a p) = true.
Proof.
  unfold well_formed, validate, signed_as. simpl.
  destruct (option_map parseInt (block_num req)) as [[b|]|]; try discriminate.
  destruct (b <=? 0); try discriminate.
  destruct (is_string (nonce req)) as [n|]; try discriminate.
  destruct (64 <? String.length n)%nat; try discriminate.
  destruct (is_string (account req)); try discriminate.
  destruct (is_string (permission req)); try discriminate.
  destruct (signatures req) as [[| | | |l|]|]; try discriminate.
  reflexivity.
Qed.

(** The checks on the body never look at the account or the permission
    beyond their being strings: a request that passes them still passes with
    any other account and permission, of any length. *)
Theorem account_and_permission_are_not_bounded :
  forall (req : request) (a p : string),
    well_formed req = true ->
    well_formed (signed_as req a p) = true /\
    forall blockNum n a0 p0 sigs,
      validate req = inr (blockNum, n, a0, p0, sigs) ->
      validate (signed_as req a p) = inr (blockNum, n, a, p, sigs).
Proof.
  intros req a p Hw. split; [apply validate_signed_as, Hw|].
  intros blockNum n a0 p0 sigs. unfold validate, signed_as. simpl.
  destruct (option_map parseInt (block_num req)) as [[b|]|]; try discriminate.
  destruct (b <=? 0); try discriminate.
  destruct (is_string (nonce req)) as [n'|]; try discriminate.
  destruct (64 <? String.length n')%nat; try discriminate.
  destruct (is_string (account req)); try discriminate.
  destruct (is_string (permission req)); try discriminate.
  destruct (signatures req) as [[| | | |l|]|]; try discriminate.
  intros H. inversion H; subst. reflexivity.
Qed.

Lemma account_and_permission_are_not_bounded_witness :
  well_formed (ask (JNum 200) "n-2") = true /\
  well_formed (signed_as (ask (JNum 200) "n-2")
                 "an.account.name.longer.than.twelve.characters" "active") = true.
Proof.
  assert (H : well_formed (ask (JNum 200) "n-2") = true) by reflexivity.
  split; [exact H|].
  apply (account_and_permission_are_not_bounded (ask (JNum 200) "n-2")
           "an.account.name.longer.than.twelve.characters" "active" H).
Defined.

Lemma nonce_rows_app (t1 t2 : list token_row) (n : string) :
  nonce_rows (t1 ++ t2) n = nonce_rows t1 n ++ nonce_rows t2 n.
Proof. apply filter_app. Qed.


(** Once a request has been granted, the same request is refused with Nonce
    already used, whatever has become of the chain and of the clock, and it
    adds nothing any more. *)
Theorem granted_nonce_cannot_be_replayed :
  forall (w w' : world) (table : list token_row) (req : request),
    snd (post_token w table req) <> table ->
    post_token w' (snd (post_token w table req)) req
      = (Auth.failure "Nonce already used", snd (post_token w table req)).
Proof.
  intros w w' table req Hchanged. unfold post_token in *.
  destruct (validate req) as [msg|[[[[blockNum n] a] p] sigs]] eqn:Ev;
    [contradiction|].
  destruct (nonce_rows table n) as [|r l] eqn:En; [|contradiction].
  destruct (get_block w blockNum) as [b|]; [|contradiction].
  destruct (older_than_a_day (now_at_check w) b); [contradiction|].
  destruct (check w n a p sigs b); try contradiction.
  simpl. rewrite nonce_rows_app, En. simpl. rewrite String.eqb_refl. reflexivity.
Qed.

Lemma granted_nonce_cannot_be_replayed_witness :
  snd (post_token the_world stored (ask (JNum 200) "n-2")) <> stored /\
  post_token dead_world (snd (post_token the_world stored (ask (JNum 200) "n-2")))
    (ask (JNum 200) "n-2")
    = (Auth.failure "Nonce already used",
       snd (post_token the_world stored (ask (JNum 200) "n-2"))).
Proof.
  assert (H : snd (post_token the_world stored (ask (JNum 200) "n-2")) <> stored)
    by (simpl; discriminate).
  split; [exact H|].
  apply (granted_nonce_cannot_be_replayed the_world dead_world stored _ H).
Defined.

(** ** The formatters *)

Import Format.

Lemma get_put (k k' : string) (v : json) (o : obj) :
  get k (put k' v o) = if String.eqb k' k then Some v else get k o.
Proof.
  induction o as [|[k0 v0] o IH]; simpl.
  - destruct (String.eqb k' k); reflexivity.
  - destruct (String.eqb k0 k') eqn:E0; simpl.
    + apply String.eqb_eq in E0. subst k0. destruct (String.eqb k' k); reflexivity.
    + destruct (String.eqb k0 k) eqn:E1.
      * apply String.eqb_eq in E1. subst k0. rewrite String.eqb_sym, E0. reflexivity.
      * exact IH.
Qed.

Lemma get_remove (k k' : string) (o : obj) :
  get k (remove k' o) = if String.eqb k' k then None else get k o.
Proof.
  induction o as [|[k0 v0] o IH]; simpl.
  - destruct (String.eqb k' k); reflexivity.
  - destruct (String.eqb k0 k') eqn:E0; simpl.
    + rewrite IH. apply String.eqb_eq in E0. subst k0.
      destruct (String.eqb k' k); reflexivity.
    + destruct (String.eqb k0 k) eqn:E1; [|exact IH].
      apply String.eqb_eq in E1. subst k0. rewrite String.eqb_sym, E0. reflexivity.
Qed.

Lemma get_put_opt (k k' : string) (v : option json) (o : obj) :
  get k (put_opt k' v o) = if String.eqb k' k then v else get k o.
Proof.
  destruct v as [x|]; simpl; [apply get_put | apply get_remove].
Qed.

Lemma get_last_remove (k k' : string) (o : obj) :
  get_last k (remove k' o) = if String.eqb k' k then None else get_last k o.
Proof.
  induction o as [|[k0 v0] o IH]; simpl.
  - destruct (String.eqb k' k); reflexivity.
  - destruct (String.eqb k0 k') eqn:E0; simpl.
    + rewrite IH. apply String.eqb_eq in E0. subst k0.
      destruct (String.eqb k' k); [reflexivity|].
      destruct (get_last k o); reflexivity.
    + rewrite IH. destruct (String.eqb k' k) eqn:E1; [|reflexivity].
      apply String.eqb_eq in E1. subst k'. rewrite E0. reflexivity.
Qed.

Lemma get_last_first_wins (k : string) (o : obj) :
  get_last k (first_wins o) = get k o.
Proof.
  induction o as [|[k0 v0] o IH]; simpl; [reflexivity|].
  rewrite get_last_remove, IH.
  destruct (String.eqb k0 k); [reflexivity | destruct (get k o); reflexivity].
Qed.

Lemma get_first_wins (k : string) (o : obj) : get k (first_wins o) = get k o.
Proof.
  induction o as [|[k0 v0] o IH]; simpl; [reflexivity|].
  destruct (String.eqb k0 k) eqn:E; [reflexivity|].
  rewrite get_remove, E. exact IH.
Qed.

(** Assigning to a name other than [__proto__] reads back like a plain
    property. *)
Lemma get_set (k k' : string) (v : json) (t : obj * prototype) :
  k <> "__proto__" ->
  get k (fst (set k' v t)) = if String.eqb k' k then Some v else get k (fst t).
Proof.
  intros Hk. destruct t as [own p]. unfold set.
  destruct (String.eqb k' "__proto__" && reaches_setter own p) eqn:E.
  - apply andb_true_iff in E. destruct E as [E _]. apply String.eqb_eq in E. subst k'.
    assert (Hne : String.eqb "__proto__" k = false).
    { apply String.eqb_neq. congruence. }
    rewrite Hne. destruct v; reflexivity.
  - simpl. apply get_put.
Qed.

(** Assigning the entries of a list one after the other: the last entry of
    a name decides. *)
Lemma get_fold_set (k : string) (l : obj) :
  k <> "__proto__" ->
  forall t, get k (fst (fold_left (fun t kv => set (fst kv) (snd kv) t) l t))
            = or_else (get_last k l) (get k (fst t)).
Proof.
  intros Hk. induction l as [|[k0 v0] l IH]; intros t; simpl; [reflexivity|].
  rewrite IH, (get_set k k0 v0 t Hk). destruct (get_last k l); simpl; [reflexivity|].
  destruct (String.eqb k0 k); reflexivity.
Qed.

Lemma get_assign (k : string) (t : obj * prototype) (src : option json) :
  k <> "__proto__" ->
  get k (fst (assign t src)) = or_else (get k (own_fields src)) (get k (fst t)).
Proof.
  intros Hk. unfold assign. rewrite (get_fold_set k _ Hk). f_equal.
  destruct src as [[| | | |items|fs]|]; simpl; try reflexivity;
    rewrite get_last_first_wins, get_first_wins; reflexivity.
Qed.

Lemma falsy_has_no_prop (k : string) (v : option json) :
  truthy v = false -> prop k v = None.
Proof. destruct v as [[| | | | |]|]; simpl; try reflexivity; discriminate. Qed.

Lemma or_else_none (a : option json) : or_else a None = a.
Proof. destruct a; reflexivity. Qed.

(** The reads of [formatAsset] after [collection] has been set. *)
Lemma get_after_collection (k : string) (c : option json) (fs : obj) :
  String.eqb "collection" k = false ->
  get k (put_opt "collection" c (first_wins fs)) = get k fs.
Proof. intros H. rewrite get_put_opt, H. apply get_first_wins. Qed.

(** The [data] of a formatted asset reads every attribute from the
    template's immutable data first, then from the asset's immutable data,
    then from its mutable data.  The name [__proto__] is no attribute: an
    assignment to it goes to the prototype of the object. *)
Theorem asset_data_precedence :
  forall (fs : obj),
    exists merged,
      get "data" (formatAsset (JObj fs)) = Some (JObj merged) /\
      forall k,
        k <> "__proto__" ->
        get k merged
          = or_else (get k (own_fields (prop "immutable_data" (get "template" fs))))
              (or_else (get k (own_fields (get "immutable_data" fs)))
                       (get k (own_fields (get "mutable_data" fs)))).
Proof.
  intros fs. unfold formatAsset. cbv zeta. simpl own_fields.
  rewrite !get_after_collection by reflexivity.
  eexists. split.
  - rewrite !get_remove, get_put. simpl. reflexivity.
  - intros k Hk. destruct (truthy (get "template" fs)) eqn:Et.
    + rewrite !(get_assign k _ _ Hk). simpl. rewrite or_else_none. reflexivity.
    + rewrite (falsy_has_no_prop _ _ Et). rewrite !(get_assign k _ _ Hk). simpl.
      rewrite or_else_none. reflexivity.
Qed.

Lemma asset_data_precedence_witness :
  exists merged,
    get "data" (formatAsset asset_row) = Some (JObj merged) /\
    get "name" merged = Some (JStr "Knight of the North") /\
    get "rarity" merged = Some (JStr "rare") /\
    get "level" merged = Some (JNum 3) /\
    get "data" (formatAsset poisoned_row) = Some (JObj [("name", JStr "draft")]).
Proof.
  destruct (asset_data_precedence
              [("asset_id", JStr "1099511627776"); ("owner", JStr "alice");
               ("template_id", JNum 7); ("schema_name", JStr "cards");
               ("collection_name", JStr "heroes");
               ("collection", JObj [("collection_name", JStr "heroes")]);
               ("mutable_data", JObj [("level", JNum 3); ("name", JStr "draft")]);
               ("immutable_data", JObj [("name", JStr "Knight"); ("rarity", JStr "rare")]);
               ("template", JObj [("template_id", JNum 7);
                                  ("immutable_data",
                                   JObj [("name", JStr "Knight of the North")])])])
    as (merged & Hd & Hk).
  exists merged. parts.
  - exact Hd.
  - rewrite (Hk "name") by discriminate. reflexivity.
  - rewrite (Hk "rarity") by discriminate. reflexivity.
  - rewrite (Hk "level") by discriminate. reflexivity.
  - reflexivity.
Defined.

Import FormatFacts.

Lemma get_collection_kept (k : string) (d : obj) :
  get k (put_opt "collection" (option_map Api.formatCollection (get "collection" d)) d)
    = get k d.
Proof.
  rewrite get_put_opt. destruct (String.eqb "collection" k) eqn:E; [|reflexivity].
  apply String.eqb_eq in E. subst k. destruct (get "collection" d); reflexivity.
Qed.

Lemma get_remove_hidden (k : string) (hidden : list string) (d : obj) :
  get k (fold_right remove d hidden) = if is_in k hidden then None else get k d.
Proof.
  induction hidden as [|a hidden IH]; simpl; [reflexivity|].
  rewrite get_remove, IH, (String.eqb_sym k a).
  destruct (String.eqb a k); reflexivity.
Qed.

Lemma formatAsset_get (fs : obj) (k : string) :
  get k (formatAsset (JObj fs))
    = if is_in k hidden_in_assets then None
      else if String.eqb "data" k then Some (JObj (merged_of fs)) else get k fs.
Proof.
  unfold formatAsset. cbv zeta. simpl own_fields.
  rewrite !get_after_collection by reflexivity. fold (merged_of fs).
  change (remove "authorized_accounts"
            (remove "collection_name" (remove "schema_name" (remove "template_id" ?d))))
    with (fold_right remove d ["authorized_accounts"; "collection_name"; "schema_name";
                               "template_id"]).
  rewrite get_remove_hidden, get_put, get_collection_kept, get_first_wins.
  unfold is_in, hidden_in_assets. simpl.
  destruct (String.eqb k "authorized_accounts"), (String.eqb k "collection_name"),
    (String.eqb k "schema_name"), (String.eqb k "template_id"); reflexivity.
Qed.

(** Formatting keeps every column of a row but the hidden ones: an asset
    loses template_id, schema_name, collection_name and authorized_accounts
    (and gains [data]), a template loses schema_name, collection_name and
    authorized_accounts, a schema loses collection_name and
    authorized_accounts, a transfer loses transfer_id, an offer loses
    nothing. *)
Theorem formatters_hide_internal_columns :
  forall (fs : obj),
    (forall k, k <> "data" ->
       get k (formatAsset (JObj fs)) = if is_in k hidden_in_assets then None else get k fs) /\
    shows hidden_in_templates fs (formatTemplate (JObj fs)) /\
    shows hidden_in_schemas fs (formatSchema (JObj fs)) /\
    shows ["transfer_id"] fs (formatTransfer (JObj fs)) /\
    shows [] fs (formatOffer (JObj fs)).
Proof.
  intros fs. unfold shows. parts.
  - intros k Hk. rewrite formatAsset_get.
    destruct (String.eqb "data" k) eqn:E; [|reflexivity].
    apply String.eqb_eq in E. congruence.
  - intros k. unfold formatTemplate. cbv zeta. simpl own_fields.
    change (remove "authorized_accounts" (remove "collection_name" (remove "schema_name" ?d)))
      with (fold_right remove d ["authorized_accounts"; "collection_name"; "schema_name"]).
    rewrite get_remove_hidden, get_collection_kept, get_first_wins.
    unfold is_in, hidden_in_templates. simpl.
    destruct (String.eqb k "authorized_accounts"), (String.eqb k "collection_name"),
      (String.eqb k "schema_name"); reflexivity.
  - intros k. unfold formatSchema. cbv zeta. simpl own_fields.
    change (remove "authorized_accounts" (remove "collection_name" ?d))
      with (fold_right remove d ["authorized_accounts"; "collection_name"]).
    rewrite get_remove_hidden, get_collection_kept, get_first_wins.
    unfold is_in, hidden_in_schemas. simpl.
    destruct (String.eqb k "authorized_accounts"), (String.eqb k "collection_name");
      reflexivity.
  - intros k. unfold formatTransfer. simpl own_fields.
    rewrite get_remove, get_first_wins, (String.eqb_sym "transfer_id" k).
    unfold is_in. simpl. destruct (String.eqb k "transfer_id"); reflexivity.
  - intros k. unfold formatOffer. simpl. apply get_first_wins.
Qed.

Lemma formatters_hide_internal_columns_witness :
  "owner" <> "data" /\
  get "owner" (formatAsset asset_row) = Some (JStr "alice") /\
  get "template_id" (formatAsset asset_row) = None.
Proof.
  assert (H1 : "owner" <> "data") by discriminate.
  assert (H2 : "template_id" <> "data") by discriminate.
  parts; [exact H1 | |].
  - exact (proj1 (formatters_hide_internal_columns _) "owner" H1).
  - exact (proj1 (formatters_hide_internal_columns _) "template_id" H2).
Defined.

(** Formatting an asset that is already formatted changes nothing that can
    be read from it. *)
Theorem formatAsset_idempotent :
  forall (fs : obj) (k : string),
    get k (formatAsset (JObj (formatAsset (JObj fs)))) = get k (formatAsset (JObj fs)).
Proof.
  intros fs k. rewrite formatAsset_get.
  assert (Hm : merged_of (formatAsset (JObj fs)) = merged_of fs).
  { unfold merged_of. rewrite !formatAsset_get. reflexivity. }
  rewrite Hm. rewrite (formatAsset_get fs k).
  destruct (is_in k hidden_in_assets); [reflexivity|].
  destruct (String.eqb "data" k); reflexivity.
Qed.

(** ** The data conditions *)

Import DataConditions.

Section DataConditionFacts.

Variable js_String : json -> string.
Variable parseFloat : json -> json.
Variable JSON_stringify : json -> string.

Local Abbreviation entry := (data_entry js_String parseFloat).





End DataConditionFacts.


(** ** The sockets *)

Import Sockets.

Lemma join_each_rooms (limit : Z) (prefix : string) (items : list json) :
  forall c, join_each limit prefix items c
            = join_rooms limit (map (String.append prefix) (strings items)) c.
Proof.
  induction items as [|x items IH]; intros c; simpl; [reflexivity|].
  destruct x; simpl; try apply IH.
  destruct (c >? limit); [reflexivity|]. rewrite IH. reflexivity.
Qed.

Lemma join_if_rooms (limit : Z) (room : string) (flag : bool) (c : Z) :
  join_if limit room flag c = join_rooms limit (if flag then [room] else []) c.
Proof.
  unfold join_if. destruct flag; simpl; [|reflexivity].
  destruct (c >? limit); reflexivity.
Qed.

Lemma join_rooms_app (limit : Z) (a b : list string) :
  forall c, and_then (join_rooms limit a c) (join_rooms limit b)
            = join_rooms limit (a ++ b) c.
Proof.
  induction a as [|r a IH]; intros c; simpl.
  - destruct (join_rooms limit b c). reflexivity.
  - destruct (c >? limit); [reflexivity|].
    rewrite <- IH. destruct (join_rooms limit a (c + 1)) as [acts [c'|]]; simpl.
    + destruct (join_rooms limit b c'). reflexivity.
    + reflexivity.
Qed.

Lemma join_rooms_closed (limit : Z) (rooms : list string) :
  forall c,
    fst (join_rooms limit rooms c)
      = map Join (firstn (Z.to_nat (limit + 1 - c)) rooms)
        ++ (if (Z.to_nat (limit + 1 - c) <? List.length rooms)%nat
            then [limit_event limit] else []).
Proof.
  induction rooms as [|r rooms IH]; intros c; simpl.
  - rewrite firstn_nil. destruct (Z.to_nat (limit + 1 - c)); reflexivity.
  - destruct (c >? limit) eqn:E.
    + rewrite Z.gtb_ltb in E. apply Z.ltb_lt in E.
      replace (Z.to_nat (limit + 1 - c)) with 0%nat by lia. reflexivity.
    + rewrite Z.gtb_ltb in E. apply Z.ltb_ge in E.
      replace (Z.to_nat (limit + 1 - c)) with (S (Z.to_nat (limit + 1 - (c + 1)))) by lia.
      specialize (IH (c + 1)). destruct (join_rooms limit rooms (c + 1)) as [acts c'].
      simpl in *. rewrite IH. reflexivity.
Qed.

Lemma and_then_rooms (limit : Z) (r : list action * option Z)
    (k : Z -> list action * option Z) (a b : list string) (c : Z) :
  r = join_rooms limit a c -> (forall c', k c' = join_rooms limit b c') ->
  and_then r k = join_rooms limit (a ++ b) c.
Proof.
  intros -> Hk. rewrite <- join_rooms_app. unfold and_then.
  destruct (join_rooms limit a c) as [acts [c'|]]; [|reflexivity].
  rewrite Hk. reflexivity.
Qed.

Lemma joined_map_Join (l : list string) : joined (map Join l) = l.
Proof. induction l as [|r l IH]; simpl; [reflexivity | f_equal; exact IH]. Qed.

Lemma subscribe_closed (limit : Z) (options : json) :
  options <> JNull -> is_object options = true ->
  subscribe limit options
    = (LeaveAll :: map Join (firstn (Z.to_nat (limit + 1)) (requested options))
         ++ (if (Z.to_nat (limit + 1) <? List.length (requested options))%nat
             then [limit_event limit] else []),
       false).
Proof.
  intros Hnull Ho. set (granted := Z.to_nat (limit + 1)).
  unfold subscribe. rewrite Ho. simpl negb. cbv iota.
  assert (Hr : and_then (join_each limit "assets:asset_id:"
                      (array_items (prop "asset_ids" (Some options))) 0) (fun c =>
                    and_then (join_each limit "assets:owner:"
                      (array_items (prop "owners" (Some options))) c) (fun c0 =>
                    and_then (join_if limit "assets:new_assets"
                      (truthy (prop "new_assets" (Some options))) c0) (fun c1 =>
                    join_if limit "assets:updates"
                      (truthy (prop "updates" (Some options))) c1)))
               = join_rooms limit (requested options) 0).
  { unfold requested.
    apply and_then_rooms; [apply join_each_rooms|]. intros c.
    apply and_then_rooms; [apply join_each_rooms|]. intros c0.
    apply and_then_rooms; [apply join_if_rooms|]. intros c1.
    apply join_if_rooms. }
  assert (Hfst : forall x : list action * option Z,
                   fst x = map Join (firstn granted (requested options))
                     ++ (if (granted <? List.length (requested options))%nat
                         then [limit_event limit] else []) ->
                   (LeaveAll :: fst x, false)
                   = (LeaveAll :: map Join (firstn granted (requested options))
                        ++ (if (granted <? List.length (requested options))%nat
                            then [limit_event limit] else []), false)).
  { intros x ->. reflexivity. }
  destruct options; try discriminate; try contradiction;
    apply Hfst; rewrite Hr, join_rooms_closed; unfold granted;
    rewrite Z.sub_0_r; reflexivity.
Qed.

Lemma subscribe_joined (limit : Z) (options : json) :
  options <> JNull -> is_object options = true ->
  joined (fst (subscribe limit options))
    = firstn (Z.to_nat (limit + 1)) (requested options).
Proof.
  intros Hnull Ho. rewrite (subscribe_closed limit options Hnull Ho). simpl fst.
  change (joined (LeaveAll :: ?l)) with (joined l).
  unfold joined. rewrite flat_map_app.
  fold (joined (map Join (firstn (Z.to_nat (limit + 1)) (requested options)))).
  rewrite joined_map_Join.
  assert (Htail : flat_map (fun a => match a with Join r => [r] | _ => [] end)
                    (if (Z.to_nat (limit + 1) <? List.length (requested options))%nat
                     then [limit_event limit] else []) = []).
  { destruct (Z.to_nat (limit + 1) <? List.length (requested options))%nat; reflexivity. }
  rewrite Htail, app_nil_r. reflexivity.
Qed.

(** A subscription leaves all rooms and then joins the rooms asked for, in
    the order asset ids, owners, new assets, updates, skipping ids that are
    not strings; it joins the first [subscribeLimit + 1] of them, and tells
    the client subscribe_limit exactly when more were asked for.  Options
    that are not an object change nothing. *)
Theorem subscription_limit_lets_one_more_through :
  forall (subscribeLimit : Z) (options : json),
    options <> JNull ->
    let granted := Z.to_nat (subscribeLimit + 1) in
    (is_object options = false -> subscribe subscribeLimit options = ([], false)) /\
    (is_object options = true ->
       subscribe subscribeLimit options
         = (LeaveAll :: map Join (firstn granted (requested options))
              ++ (if (granted <? List.length (requested options))%nat
                  then [limit_event subscribeLimit] else []),
            false)) /\
    (List.length (joined (fst (subscribe subscribeLimit options))) <= granted)%nat.
Proof.
  intros limit options Hnull granted. parts.
  - intros Ho. unfold subscribe. rewrite Ho. reflexivity.
  - apply subscribe_closed. exact Hnull.
  - destruct (is_object options) eqn:Ho.
    + rewrite (subscribe_joined limit options Hnull Ho). apply firstn_le_length.
    + unfold subscribe. rewrite Ho. simpl. lia.
Qed.

Lemma subscription_limit_lets_one_more_through_witness :
  many_rooms <> JNull /\
  subscribe 1 many_rooms
    = ([LeaveAll; Join "assets:asset_id:1"; Join "assets:asset_id:3"; limit_event 1], false).
Proof.
  assert (H : many_rooms <> JNull) by discriminate.
  split; [exact H|].
  rewrite (proj1 (proj2 (subscription_limit_lets_one_more_through 1 many_rooms H)) eq_refl).
  reflexivity.
Defined.

Lemma append_cancel (s x y : string) : (s ++ x = s ++ y)%string -> x = y.
Proof.
  induction s as [|c s IH]; simpl; intros H; [exact H|].
  inversion H. apply IH. assumption.
Qed.

Lemma channelName_prefix (h : Market.AtomicMarketHandler) (p q : string) :
  Market.channelName h p = Market.channelName h q -> p = q.
Proof.
  unfold Market.channelName. simpl. intros H.
  repeat match type of H with
         | String _ _ = String _ _ => injection H as H
         | (?s ++ _)%string = (?s ++ _)%string => apply append_cancel in H
         end.
  exact H.
Qed.

(** The sales socket listens to the channel on which the handler publishes
    its notifications with prefix sales, and to no other channel of the
    handler.  When the message parses to what the handler wrote, a create
    notification whose sale is found is passed on as new_sale with the
    transaction and the block of the notification, a state_change as
    state_change with the state of the sale, any other action is dropped,
    and a sale that is not found is only logged. *)
Theorem sale_notifications_reach_the_socket :
  forall (JSON_stringify : json -> string) (JSON_parse : string -> option json)
         (find_sale : option json -> option (list json))
         (formatSale : json -> option json) (fillSales : list json -> option (list json))
         (h : Market.AtomicMarketHandler) (job : Market.NotificationJob),
    JSON_parse (JSON_stringify (Market.payload job)) = Some (Market.payload job) ->
    Market.n_data job <> JNull ->
    let saleChannel := saleChannelName (Market.chain_name h) (Market.reader_name h)
                         (Market.atomicmarket_account (Market.args h)) in
    let deliver := on_sale_message JSON_parse find_sale formatSale fillSales saleChannel
                     (Market.channelName h (Market.n_prefix job))
                     (JSON_stringify (Market.payload job)) in
    let block := JObj [("block_num", JNum (Market.block_num (Market.n_block job)));
                       ("block_id", JStr (Market.block_id (Market.n_block job)))] in
    saleChannel = Market.channelName h "sales" /\
    (Market.n_prefix job <> "sales" -> deliver = Some []) /\
    (Market.n_prefix job = "sales" ->
     (find_sale (Format.prop "sale_id" (Some (Market.n_data job))) = Some [] ->
      deliver = Some [LogError "Received sale notification but did not find sale in database"]) /\
     (forall row rows formatted sale sales,
        find_sale (Format.prop "sale_id" (Some (Market.n_data job))) = Some (row :: rows) ->
        Api.map_option formatSale (row :: rows) = Some formatted ->
        fillSales formatted = Some (sale :: sales) -> sale <> JNull ->
        (Market.n_name job = "create" ->
         deliver = Some [Emit "new_sale"
                           (JObj ([("transaction", Market.n_tx job); ("block", block)]
                                  ++ optional "sale_id" (Format.prop "sale_id" (Some sale))
                                  ++ [("sale", sale)]))]) /\
        (Market.n_name job = "state_change" ->
         deliver = Some [Emit "state_change"
                           (JObj ([("transaction", Market.n_tx job); ("block", block)]
                                  ++ optional "sale_id" (Format.prop "sale_id" (Some sale))
                                  ++ optional "state" (Format.prop "state" (Some sale))
                                  ++ [("sale", sale)]))]) /\
        (Market.n_name job <> "create" -> Market.n_name job <> "state_change" ->
         deliver = Some []))).
Proof.
  intros stringify parse find formatSale fillSales h job Hparse Hdata saleChannel deliver block.
  assert (Hch : saleChannel = Market.channelName h "sales") by reflexivity.
  split; [exact Hch|]. split.
  - intros Hp. subst deliver. unfold on_sale_message.
    destruct (String.eqb (Market.channelName h (Market.n_prefix job)) saleChannel) eqn:E;
      [|reflexivity].
    apply String.eqb_eq in E. rewrite Hch in E. apply channelName_prefix in E. contradiction.
  - intros Hp. subst deliver. unfold on_sale_message. rewrite Hp, <- Hch, String.eqb_refl.
    simpl negb. cbv iota. rewrite Hparse.
    change (Format.prop "data" (Some (Market.payload job))) with (Some (Market.n_data job)).
    change (Format.prop "action" (Some (Market.payload job)))
      with (Some (JStr (Market.n_name job))).
    change (Format.prop "transaction" (Some (Market.payload job)))
      with (Some (Market.n_tx job)).
    change (Format.prop "block" (Some (Market.payload job))) with (Some block).
    destruct (Market.n_data job) as [| | | | |] eqn:Ed; try contradiction; split.
    all: try (intros Hf; rewrite Hf; reflexivity).
    all: intros row rows formatted sale sales Hf Hm Hfill Hsale;
      rewrite Hf, Hm, Hfill; simpl hd_error; parts.
    all: try (intros Hn; rewrite Hn; simpl;
              destruct sale; try contradiction; reflexivity).
    all: intros Hn1 Hn2;
      destruct (String.eqb (Market.n_name job) "create") eqn:E1;
      [apply String.eqb_eq in E1; contradiction|];
      destruct (String.eqb (Market.n_name job) "state_change") eqn:E2;
      [apply String.eqb_eq in E2; contradiction|]; reflexivity.
Qed.

Lemma sale_notifications_reach_the_socket_witness :
  parse_created (print_json (Market.payload created_job)) = Some (Market.payload created_job) /\
  Market.n_data created_job <> JNull /\
  on_sale_message parse_created find_sale5 Api.as_is Api.keep
    (saleChannelName "wax" "atomic-1" "atomicmarket")
    "eosio-contract-api:wax:atomic-1:atomicmarket:atomicmarket:sales"
    (print_json (Market.payload created_job))
    = Some [Emit "new_sale"
              (JObj [("transaction", JNull);
                     ("block", JObj [("block_num", JNum 11); ("block_id", JStr "000b")]);
                     ("sale_id", JNum 5);
                     ("sale", sale5_row)])].
Proof.
  assert (H1 : parse_created (print_json (Market.payload created_job))
               = Some (Market.payload created_job)) by reflexivity.
  assert (H2 : Market.n_data created_job <> JNull) by discriminate.
  parts; [exact H1 | exact H2 |].
  destruct (sale_notifications_reach_the_socket print_json parse_created find_sale5
              Api.as_is Api.keep Market.after_block10 created_job H1 H2)
    as (_ & _ & Hsales).
  destruct (Hsales eq_refl) as [_ Hfound].
  destruct (Hfound sale5_row [] [sale5_row] sale5_row [] eq_refl eq_refl eq_refl)
    as (Hcreate & _); [discriminate|].
  exact (Hcreate eq_refl).
Defined.

(** ** deleteDB *)

Module DbFacts.

Import Format Db.

Lemma kept_twice (column value : string) (rows : list obj) :
  kept column value (kept column value rows) = kept column value rows.
Proof.
  unfold kept. induction rows as [|r rows IH]; simpl; [reflexivity|].
  destruct (negb (column_is column value r)) eqn:E; simpl; [rewrite E, IH|]; auto.
Qed.

Lemma kept_rows (column value : string) (rows : list obj) (r : obj) :
  In r (kept column value rows) <->
  In r rows /\ get column r <> Some (JStr value).
Proof.
  unfold kept. rewrite filter_In. unfold column_is.
  split; intros [H1 H2]; split; auto.
  - intros Hg. rewrite Hg, String.eqb_refl in H2. discriminate.
  - destruct (get column r) as [[| | |s| |]|]; try reflexivity.
    destruct (String.eqb s value) eqn:E; [|reflexivity].
    apply String.eqb_eq in E. subst s. contradiction.
Qed.

Lemma is_in_In (t : string) (l : list string) : is_in t l = true <-> In t l.
Proof.
  unfold is_in. rewrite existsb_exists. split.
  - intros (x & Hx & E). apply String.eqb_eq in E. subst x. exact Hx.
  - intros Ht. exists t. split; [exact Ht | apply String.eqb_refl].
Qed.

Lemma delete_from_all_spec (tables : list string) (column value : string) :
  forall db,
    (delete_from_all tables column value db = None <->
     exists t, In t tables /\ db t = None) /\
    forall db', delete_from_all tables column value db = Some db' ->
      forall t, db' t = if is_in t tables
                        then option_map (kept column value) (db t) else db t.
Proof.
  induction tables as [|table tables IH]; intros db; simpl.
  - split.
    + split; [discriminate | intros (t & [] & _)].
    + intros db' H t. inversion H. reflexivity.
  - unfold delete_where. destruct (db table) as [rows|] eqn:Et.
    + set (db1 := fun t => if String.eqb t table
                           then Some (filter (fun r => negb (column_is column value r)) rows)
                           else db t).
      destruct (IH db1) as [Hnone Hsome]. split.
      * rewrite Hnone. split.
        -- intros (t & Hin & Ht). exists t. split; [right; exact Hin|].
           unfold db1 in Ht. destruct (String.eqb t table); [discriminate | exact Ht].
        -- intros (t & [<-|Hin] & Ht); [congruence|].
           exists t. split; [exact Hin|]. unfold db1.
           destruct (String.eqb t table) eqn:E; [|exact Ht].
           apply String.eqb_eq in E. congruence.
      * intros db' H t. rewrite (Hsome db' H t). unfold db1.
        destruct (String.eqb t table) eqn:E; simpl.
        -- apply String.eqb_eq in E. subst t. rewrite Et. simpl.
           fold (kept column value rows).
           destruct (is_in table tables); simpl; [rewrite kept_twice|]; reflexivity.
        -- reflexivity.
    + split.
      * split; [|reflexivity]. intros _. exists table. split; [left; reflexivity | exact Et].
      * intros db' H. discriminate.
Qed.

Lemma delete_from_all_removes_only (tables : list string) (column value : string)
    (db : database) :
  removes_only tables column value db (delete_from_all tables column value db).
Proof.
  destruct (delete_from_all_spec tables column value db) as [Hnone Hsome].
  split; [exact Hnone|]. intros db' H. specialize (Hsome db' H). split.
  - intros t Ht. rewrite Hsome. destruct (is_in t tables) eqn:E; [|reflexivity].
    apply is_in_In in E. contradiction.
  - intros t rows Ht Hrows. rewrite Hsome. apply is_in_In in Ht. rewrite Ht, Hrows.
    split; [reflexivity | intros r; apply kept_rows].
Qed.

Lemma delete_from_all_again (tables : list string) (column value : string)
    (db db' : database) :
  delete_from_all tables column value db = Some db' ->
  exists db'', delete_from_all tables column value db' = Some db'' /\
               forall t, db'' t = db' t.
Proof.
  intros H.
  destruct (delete_from_all_spec tables column value db) as [Hnone Hsome].
  specialize (Hsome db' H).
  destruct (delete_from_all_spec tables column value db') as [Hnone' Hsome'].
  destruct (delete_from_all tables column value db') as [db''|] eqn:E.
  - exists db''. split; [reflexivity|]. intros t.
    rewrite (Hsome' db'' eq_refl t), Hsome.
    destruct (is_in t tables); [|reflexivity].
    destruct (db t); simpl; [rewrite kept_twice|]; reflexivity.
  - exfalso. destruct Hnone' as [Hn _]. destruct (Hn eq_refl) as (t & Hin & Ht).
    rewrite Hsome in Ht. apply is_in_In in Hin. rewrite Hin in Ht.
    destruct (db t) eqn:Edb; [discriminate|].
    assert (Hx : delete_from_all tables column value db = None).
    { apply Hnone. exists t. split; [apply is_in_In; exact Hin | exact Edb]. }
    congruence.
Qed.

(** [deleteDB] of the market handler and of the token handler throw
    exactly when one of their tables is missing; otherwise each of their
    tables keeps, in order, the rows of the other contracts and loses every
    row of this one, and every other table is left as it is.  For the
    market handler these untouched tables include atomicmarket_tokens and
    atomicmarket_symbol_pairs, the two tables [init] reads the supported
    tokens and pairs from.  Deleting a second time changes nothing. *)
Theorem deleteDB_removes_own_rows_only :
  forall (db : database),
    (forall a : Market.AtomicMarketArgs,
       removes_only atomicmarket_tables "market_contract" (Market.atomicmarket_account a)
         db (AtomicMarket_deleteDB a db) /\
       forall db', AtomicMarket_deleteDB a db = Some db' ->
         db' "atomicmarket_tokens" = db "atomicmarket_tokens" /\
         db' "atomicmarket_symbol_pairs" = db "atomicmarket_symbol_pairs" /\
         exists db'', AtomicMarket_deleteDB a db' = Some db'' /\ forall t, db'' t = db' t) /\
    (forall token_account : string,
       removes_only token_tables "contract" token_account
         db (EosioToken_deleteDB token_account db) /\
       forall db', EosioToken_deleteDB token_account db = Some db' ->
         exists db'', EosioToken_deleteDB token_account db' = Some db'' /\
                      forall t, db'' t = db' t).
Proof.
  intros db. split.
  - intros a. unfold AtomicMarket_deleteDB. split.
    + apply delete_from_all_removes_only.
    + intros db' H.
      destruct (delete_from_all_removes_only atomicmarket_tables "market_contract"
                  (Market.atomicmarket_account a) db) as [_ Hs].
      destruct (Hs db' H) as [Hframe _]. parts.
      * apply Hframe. intros Hin. apply is_in_In in Hin. discriminate.
      * apply Hframe. intros Hin. apply is_in_In in Hin. discriminate.
      * eapply delete_from_all_again. exact H.
  - intros token_account. unfold EosioToken_deleteDB. split.
    + apply delete_from_all_removes_only.
    + intros db' H. eapply delete_from_all_again. exact H.
Qed.

Lemma deleteDB_removes_own_rows_only_witness :
  exists db',
    AtomicMarket_deleteDB Market.wax_args two_markets = Some db' /\
    db' "atomicmarket_sales" = Some [sale_of "othermarket" 2] /\
    db' "atomicmarket_tokens" = two_markets "atomicmarket_tokens" /\
    EosioToken_deleteDB "eosio.token" two_markets = None.
Proof.
  destruct (deleteDB_removes_own_rows_only two_markets) as [Hm Ht].
  destruct (Hm Market.wax_args) as [[_ Hs] Hk].
  destruct (AtomicMarket_deleteDB Market.wax_args two_markets) as [db'|] eqn:E;
    [|vm_compute in E; discriminate].
  exists db'. destruct (Hs db' eq_refl) as [_ Hrows]. destruct (Hk db' eq_refl) as (Htok & _).
  parts.
  - reflexivity.
  - destruct (Hrows "atomicmarket_sales" _ ltac:(vm_compute; tauto) eq_refl) as [Hr _].
    exact Hr.
  - exact Htok.
  - destruct (Ht "eosio.token") as [[Hnone _] _]. apply Hnone.
    exists "token_stats". split; [left; reflexivity | reflexivity].
Defined.

End DbFacts.

(** ** init *)

Module MarketInitFacts.

Import MarketInit.

Lemma stored_config_app (account : string) (db : database) (row : config_row) :
  stored_config account
    {| has_tables := true; config_table := config_table db ++ [row];
       tokens_table := tokens_table db; pairs_table := pairs_table db |}
  = stored_config account db
    ++ (if String.eqb (market_contract row) account then [row] else []).
Proof. unfold stored_config. simpl. rewrite filter_app. reflexivity. Qed.

(** [init] fails with 'AtomicMarket: Unable to fetch atomicmarket
    version' exactly when the database holds no configuration of the
    market and the chain answers with an empty config table.  When it
    stores the configuration of the chain, every later [init] for the same
    market restores the same accounts, version and fees from the database
    alone, whatever the chain answers then, and stores nothing more. *)
Theorem init_restores_the_stored_configuration :
  forall (args : Market.AtomicMarketArgs) (db : database),
    let db0 := if has_tables db then db else create_tables db in
    (forall rpc,
       init args db rpc = Threw "AtomicMarket: Unable to fetch atomicmarket version" <->
       stored_config (Market.atomicmarket_account args) db0 = [] /\ rpc = Some []) /\
    forall (c : ConfigTableRow) (rest : list ConfigTableRow),
      stored_config (Market.atomicmarket_account args) db0 = [] ->
      exists args1 cfg1 db1,
        init args db (Some (c :: rest)) = Ready args1 cfg1 db1 /\
        Market.atomicmarket_account args1 = Market.atomicmarket_account args /\
        Market.atomicassets_account args1 = atomicassets_account c /\
        Market.delphioracle_account args1 = delphioracle_account c /\
        config_table db1 = config_table db0 ++
          [{| market_contract := Market.atomicmarket_account args;
              asset_contract := atomicassets_account c;
              delphi_contract := delphioracle_account c;
              r_version := version c;
              r_maker_market_fee := maker_market_fee c;
              r_taker_market_fee := taker_market_fee c;
              r_minimum_auction_duration := minimum_auction_duration c;
              r_maximum_auction_duration := maximum_auction_duration c;
              r_minimum_bid_increase := minimum_bid_increase c;
              r_auction_reset_duration := auction_reset_duration c |}] /\
        forall (args2 : Market.AtomicMarketArgs) (rpc2 : option (list ConfigTableRow)),
          Market.atomicmarket_account args2 = Market.atomicmarket_account args ->
          exists cfg2,
            init args2 db1 rpc2 = Ready args1 cfg2 db1 /\
            cfg_version cfg2 = cfg_version cfg1 /\
            cfg_atomicassets_account cfg2 = cfg_atomicassets_account cfg1 /\
            cfg_delphioracle_account cfg2 = cfg_delphioracle_account cfg1 /\
            cfg_maker_market_fee cfg2 = cfg_maker_market_fee cfg1 /\
            cfg_taker_market_fee cfg2 = cfg_taker_market_fee cfg1.
Proof.
  intros args db db0. split.
  - intros rpc. unfold init. fold db0.
    destruct (stored_config (Market.atomicmarket_account args) db0) as [|row rows].
    + destruct rpc as [[|c rest]|]; split; try discriminate; try (intros [_ H]; discriminate).
      * intros _. split; reflexivity.
      * intros _. reflexivity.
    + split; [discriminate | intros [H _]; discriminate].
  - intros c rest Hnone. unfold init at 1. fold db0. rewrite Hnone.
    eexists _, _, _. parts; try reflexivity.
    intros args2 rpc2 Hacc. unfold init. simpl has_tables. cbv iota.
    rewrite Hacc, stored_config_app, Hnone. simpl market_contract.
    rewrite String.eqb_refl. simpl.
    eexists. parts; reflexivity.
Qed.

Lemma init_restores_the_stored_configuration_witness :
  exists args1 cfg1 db1,
    init first_start empty_database (Some [chain_config]) = Ready args1 cfg1 db1 /\
    Market.atomicassets_account args1 = "atomicassets" /\
    exists cfg2, init first_start db1 None = Ready args1 cfg2 db1 /\
                 cfg_version cfg2 = "1.0.0".
Proof.
  destruct (init_restores_the_stored_configuration first_start empty_database) as [_ H].
  destruct (H chain_config [] eq_refl) as (args1 & cfg1 & db1 & H1 & _ & H2 & _ & _ & H3).
  exists args1, cfg1, db1. parts; [exact H1 | exact H2 |].
  destruct (H3 first_start None eq_refl) as (cfg2 & E & Hv & _).
  exists cfg2. split; [exact E|]. rewrite Hv.
  vm_compute in H1. inversion H1. reflexivity.
Defined.

End MarketInitFacts.

(** ** The query filters *)

Module FilterFacts.

Import Format Filters.

Lemma append_assoc_r (a b c : string) : ((a ++ b) ++ c = a ++ (b ++ c))%string.
Proof. induction a as [|x a IH]; simpl; [reflexivity | rewrite IH; reflexivity]. Qed.

Lemma append_empty_r (a : string) : (a ++ "" = a)%string.
Proof. induction a as [|x a IH]; simpl; [reflexivity | rewrite IH; reflexivity]. Qed.

Lemma render_app (p q : list piece) : render (p ++ q) = (render p ++ render q)%string.
Proof.
  induction p as [|x p IH]; simpl; [reflexivity|].
  rewrite IH, append_assoc_r. reflexivity.
Qed.

Lemma vars_app (p q : list piece) : vars (p ++ q) = vars p ++ vars q.
Proof.
  induction p as [|[s|n] p IH]; simpl; [reflexivity | exact IH | rewrite IH; reflexivity].
Qed.

Lemma render_account_pieces (n : Z) (columns : list string) :
  render (account_pieces n columns) = account_conditions n columns.
Proof.
  induction columns as [|c columns IH]; simpl; [reflexivity|].
  rewrite IH. reflexivity.
Qed.

Lemma vars_account_pieces (n : Z) (columns : list string) :
  vars (account_pieces n columns) = repeat n (List.length columns).
Proof. induction columns as [|c columns IH]; simpl; [reflexivity | rewrite IH; reflexivity]. Qed.

Lemma consecutive_In (n : Z) (k : nat) (x : Z) :
  In x (consecutive n k) <-> n < x <= n + Z.of_nat k.
Proof.
  revert n. induction k as [|k IH]; intros n; simpl consecutive.
  - simpl. lia.
  - simpl In. rewrite IH. lia.
Qed.

Ltac strings := repeat (progress (rewrite ?append_assoc_r, ?append_empty_r; simpl)).

Ltac cases H := repeat match type of H with _ \/ _ => destruct H as [H|H] end.

Ltac pick := solve [repeat (first [left; reflexivity | right])].

(** [buildGreylistFilter] numbers its placeholders from the offset it is
    given, and every placeholder of its text has a value.  Every value has
    a placeholder as well when the account blacklist is absent or there is
    an account column; with an account blacklist and no account column
    (the default), the last value is the blacklist and no placeholder of
    the text refers to it. *)
Theorem greylist_placeholders_and_values :
  forall (args : greylist_args) (varOffset : Z) (collectionColumn : string)
         (accountColumns : list string),
    let f := buildGreylistFilter args varOffset collectionColumn accountColumns in
    let ps := greylist_pieces args varOffset collectionColumn accountColumns in
    str f = render ps /\
    (forall n, In n (vars ps) -> In n (consecutive varOffset (List.length (values f)))) /\
    (given (account_blacklist args) = None \/ accountColumns <> [] ->
     forall n, In n (consecutive varOffset (List.length (values f))) -> In n (vars ps)) /\
    (forall l, given (account_blacklist args) = Some l -> accountColumns = [] ->
       last (values f) JNull = csv l /\
       ~ In (varOffset + Z.of_nat (List.length (values f))) (vars ps)).
Proof.
  intros [bl wl al] varOffset collectionColumn accountColumns.
  unfold buildGreylistFilter, greylist_pieces. simpl collection_blacklist.
  simpl collection_whitelist. simpl account_blacklist.
  destruct (given bl) as [b|]; destruct (given wl) as [w|]; destruct (given al) as [a|];
    cbv zeta beta iota; simpl str; simpl values;
    rewrite ?vars_app, ?vars_account_pieces;
    (split; [rewrite ?render_app, ?render_account_pieces; strings; reflexivity|]);
    (split; [intros n Hn; simpl in *; cases Hn; try (apply repeat_spec in Hn);
             try contradiction; subst; pick|]);
    (split; [intros Hc n Hn; simpl in *; cases Hn; try contradiction; subst;
             try pick;
             (destruct Hc as [Hc|Hc]; [discriminate|]);
             (destruct accountColumns as [|c cs]; [contradiction|]); simpl; pick|]);
    intros l Hl Hc; try discriminate; inversion Hl; subst; simpl;
    (split; [reflexivity|]); intros Hn; cases Hn; try contradiction; lia.
Qed.

Lemma greylist_placeholders_and_values_witness :
  str (buildGreylistFilter accounts_only 2 "collection_name" [])
    = render (greylist_pieces accounts_only 2 "collection_name" []) /\
  last (values (buildGreylistFilter accounts_only 2 "collection_name" [])) JNull
    = csv "mallory,eve" /\
  ~ In 3 (vars (greylist_pieces accounts_only 2 "collection_name" [])).
Proof.
  destruct (greylist_placeholders_and_values accounts_only 2 "collection_name" [])
    as (H1 & _ & _ & H4).
  destruct (H4 "mallory,eve" eq_refl eq_refl) as [H5 H6].
  parts; [exact H1 | exact H5 | exact H6].
Defined.

End FilterFacts.

Module AssetFilterFacts.

Import Format Filters FilterFacts.

Lemma consecutive_snoc (n : Z) (k : nat) :
  consecutive n (k + 1) = consecutive n k ++ [n + Z.of_nat k + 1].
Proof.
  revert n. induction k as [|k IH]; intros n; simpl consecutive.
  - simpl. f_equal. lia.
  - simpl app. rewrite IH. do 3 f_equal. lia.
Qed.

(** What the steps of the builder keep true between the text, the values
    and the counter on one side and the pieces on the other. *)
Definition in_step (varOffset : Z) (st : builder) (pst : pieces_so_far) : Prop :=
  let '(q, v, n) := st in
  let '(ps, n') := pst in
  q = render ps /\ vars ps = consecutive varOffset (List.length v) /\
  n = varOffset + Z.of_nat (List.length v) /\ n' = n.

Lemma any_step_in_step (varOffset : Z) (assetTable : option string) (column : string)
    (arg : option string) (st : builder) (pst : pieces_so_far) :
  in_step varOffset st pst ->
  in_step varOffset (any_step assetTable (column ++ "$") arg st)
                    (any_pieces assetTable column arg pst).
Proof.
  destruct st as [[q v] n], pst as [ps n']. unfold in_step, any_step, any_pieces.
  intros (Hq & Hv & Hn & Hn'). destruct (given arg) as [l|]; [|auto].
  subst n' q. parts.
  - rewrite render_app. simpl. rewrite !append_assoc_r. reflexivity.
  - rewrite vars_app, length_app, consecutive_snoc, Hv, Hn. reflexivity.
  - rewrite length_app. simpl. lia.
  - reflexivity.
Qed.

Lemma flags_step_pieces (templateTable : option string) (args : asset_args) (q : string) :
  flags_step templateTable args q = (q ++ render (flag_pieces templateTable args))%string /\
  vars (flag_pieces templateTable args) = [].
Proof.
  unfold flags_step, flag_pieces.
  destruct (given templateTable) as [t|]; destruct (is_transferable args) as [[|]|];
    destruct (is_burnable args) as [[|]|];
    (split; [strings; reflexivity | reflexivity]).
Qed.

Section Builders.

Variable js_String : json -> string.
Variable parseFloat : json -> json.
Variable JSON_stringify : json -> string.
Variable toLowerCase : string -> string.

Local Abbreviation build := (buildAssetFilter js_String parseFloat JSON_stringify toLowerCase).
Local Abbreviation pieces := (asset_pieces js_String parseFloat JSON_stringify).

Lemma buildAssetFilter_in_steps (args : asset_args) (query : json) (varOffset : Z)
    (assetTable templateTable : option string) :
  build args query varOffset assetTable templateTable
  = buildAssetFilter_steps js_String parseFloat JSON_stringify toLowerCase
      args query varOffset assetTable templateTable.
Proof.
  destruct args as [ow te co sc ma tr bu].
  unfold buildAssetFilter, buildAssetFilter_steps, exists_step, any_step, flags_step.
  simpl owner. simpl template_id. simpl collection_name. simpl schema_name.
  simpl match_. simpl is_transferable. simpl is_burnable.
  destruct (given co) as [c|];
    [destruct (DataConditions.buildDataConditions js_String parseFloat JSON_stringify
                 query varOffset (data_table ++ ".data")) as [[dstr dvalues]|]|];
    destruct (given ma) as [m|]; destruct (given ow) as [o|]; destruct (given te) as [t|];
    destruct (given sc) as [s|]; reflexivity.
Qed.

Lemma exists_step_in_step (args : asset_args) (query : json) (varOffset : Z)
    (assetTable : option string) :
  in_step varOffset
    (exists_step js_String parseFloat JSON_stringify toLowerCase args query varOffset assetTable)
    (exists_pieces js_String parseFloat JSON_stringify args query varOffset assetTable).
Proof.
  unfold exists_step, exists_pieces, in_step, DataConditions.buildDataConditions.
  destruct (given (collection_name args)) as [c|];
    [destruct (0 <? List.length (DataConditions.data_query js_String parseFloat query))%nat|];
    destruct (given (match_ args)) as [m|]; cbv zeta beta iota; parts;
    try reflexivity; try (simpl; lia).
  all: rewrite ?render_app; strings; reflexivity.
Qed.

(** [buildAssetFilter] gives one placeholder to each of its values: the
    placeholders of its text, in the order they stand, are numbered one
    after the other from the offset, as many as there are values.  The
    data conditions of the query string count only when a collection is
    named: without one the filter does not depend on the query string. *)
Theorem asset_filter_placeholders_follow_values :
  forall (args : asset_args) (query : json) (varOffset : Z)
         (assetTable templateTable : option string),
    let f := build args query varOffset assetTable templateTable in
    let ps := pieces args query varOffset assetTable templateTable in
    str f = render ps /\
    vars ps = consecutive varOffset (List.length (values f)) /\
    (given (collection_name args) = None ->
     forall query', build args query' varOffset assetTable templateTable = f).
Proof.
  intros args query varOffset assetTable templateTable. cbv zeta.
  split; [|split].
  - rewrite buildAssetFilter_in_steps. unfold buildAssetFilter_steps, asset_pieces.
    pose proof (any_step_in_step varOffset assetTable ".schema_name = ANY(" (schema_name args) _ _
      (any_step_in_step varOffset assetTable ".collection_name = ANY (" (collection_name args) _ _
        (any_step_in_step varOffset assetTable ".template_id = ANY(" (template_id args) _ _
          (any_step_in_step varOffset assetTable ".owner = ANY(" (owner args) _ _
            (exists_step_in_step args query varOffset assetTable))))) as H.
    simpl append in H.
    destruct (any_step _ _ _ _) as [[q v] n]. destruct (any_pieces _ _ _ _) as [ps n'].
    destruct H as (Hq & _). simpl str.
    destruct (flags_step_pieces templateTable args q) as [Hf _].
    rewrite Hf, render_app, Hq. reflexivity.
  - rewrite buildAssetFilter_in_steps. unfold buildAssetFilter_steps, asset_pieces.
    pose proof (any_step_in_step varOffset assetTable ".schema_name = ANY(" (schema_name args) _ _
      (any_step_in_step varOffset assetTable ".collection_name = ANY (" (collection_name args) _ _
        (any_step_in_step varOffset assetTable ".template_id = ANY(" (template_id args) _ _
          (any_step_in_step varOffset assetTable ".owner = ANY(" (owner args) _ _
            (exists_step_in_step args query varOffset assetTable))))) as H.
    simpl append in H.
    destruct (any_step _ _ _ _) as [[q v] n]. destruct (any_pieces _ _ _ _) as [ps n'].
    destruct H as (_ & Hv & _). simpl values.
    destruct (flags_step_pieces templateTable args q) as [_ Hf].
    rewrite vars_app, Hf, app_nil_r. exact Hv.
  - intros Hc query'. unfold buildAssetFilter. rewrite Hc. reflexivity.
Qed.

End Builders.

Lemma asset_filter_placeholders_follow_values_witness :
  vars (asset_pieces DataConditions.as_text DataConditions.as_number print_json
          heroes_of_alice DataConditions.asset_query 2 (Some "asset") (Some "template"))
    = [3; 4; 5; 6] /\
  List.length (values (buildAssetFilter DataConditions.as_text DataConditions.as_number
                         print_json lower heroes_of_alice DataConditions.asset_query 2
                         (Some "asset") (Some "template"))) = 4%nat.
Proof.
  destruct (asset_filter_placeholders_follow_values DataConditions.as_text
              DataConditions.as_number print_json lower heroes_of_alice
              DataConditions.asset_query 2 (Some "asset") (Some "template"))
    as (_ & H & _).
  split; [rewrite H; reflexivity | reflexivity].
Defined.

End AssetFilterFacts.

(** ** The asset events of the assets socket *)

Module AssetEventFacts.

Import Format Sockets AssetEvents.

Lemma reaches_In (mine rooms : list string) :
  reaches mine rooms = true <-> exists r, In r rooms /\ In r mine.
Proof.
  unfold reaches. rewrite existsb_exists. split; intros (r & H1 & H2); exists r; split; auto.
  - unfold is_in in H2. apply existsb_exists in H2. destruct H2 as (x & Hx & E).
    apply String.eqb_eq in E. subst x. exact Hx.
  - unfold is_in. apply existsb_exists. exists r. split; [exact H2 | apply String.eqb_refl].
Qed.

Lemma get_event_asset (msg asset : json) (more : list (string * json)) :
  prop "asset" (Some (event_body msg asset more)) = Some (JObj (formatAsset asset)).
Proof.
  unfold event_body.
  destruct (prop "transaction" (Some msg)); destruct (prop "block" (Some msg)); reflexivity.
Qed.

Section AssetMessageFacts.

Variable JSON_parse : string -> option json.
Variable find_asset : option json -> option (list json).
Variable js_String : option json -> string.

Local Abbreviation handle := (on_asset_message JSON_parse find_asset js_String).

(** An event about an asset that is found in the database goes to the room
    of its owner, to the room of its id and to one more room: new_assets for
    a mint, updates for a burn, a back or an update; other actions send
    nothing.  The event carries the formatted asset.  So a socket that asked
    for the id of the asset within its limit gets every event about it, and
    a socket that asked for new assets only gets the mints alone.  The room
    of the owner is named after the owner as the row has it when the message
    is handled: for an asset without owner, as a burned asset is stored, it
    is assets:owner:null. *)
Theorem asset_events_reach_their_subscribers :
  forall (channel message : string) (msg data : json) (fs : obj) (others : list json),
    JSON_parse message = Some msg ->
    prop "data" (Some msg) = Some data -> data <> JNull ->
    find_asset (prop "asset_id" (Some data)) = Some (JObj fs :: others) ->
    let owner_room := ("assets:owner:" ++ text js_String (get "owner" fs))%string in
    let id_room := ("assets:asset_id:" ++ text js_String (get "asset_id" fs))%string in
    (get "owner" fs = Some JNull -> owner_room = "assets:owner:null") /\
    exists effects,
      handle channel channel message = Some effects /\
      (effects = [] <->
       is_action msg "mint" = false /\ is_action msg "burn" = false /\
       is_action msg "back" = false /\ is_action msg "update" = false) /\
      forall rooms event payload, In (To rooms event payload) effects ->
        rooms = [owner_room; id_room;
                 if is_action msg "mint" then "assets:new_assets" else "assets:updates"] /\
        prop "asset" (Some payload) = Some (JObj (formatAsset (JObj fs))) /\
        forall (subscribeLimit : Z) (options : json),
          options <> JNull -> is_object options = true ->
          (In id_room (firstn (Z.to_nat (subscribeLimit + 1)) (requested options)) ->
           reaches (rooms_after subscribeLimit options) rooms = true) /\
          (In owner_room (firstn (Z.to_nat (subscribeLimit + 1)) (requested options)) ->
           reaches (rooms_after subscribeLimit options) rooms = true) /\
          (requested options = ["assets:new_assets"] -> 0 <= subscribeLimit ->
           (reaches (rooms_after subscribeLimit options) rooms = true <->
            is_action msg "mint" = true)).
Proof.
  intros channel message msg data fs others Hparse Hdata Hnull Hfind owner_room id_room.
  split.
  { intros Ho. subst owner_room. rewrite Ho. reflexivity. }
  assert (Hsub : forall rooms,
            rooms = [owner_room; id_room;
                     if is_action msg "mint" then "assets:new_assets" else "assets:updates"] ->
            forall (subscribeLimit : Z) (options : json),
              options <> JNull -> is_object options = true ->
              (In id_room (firstn (Z.to_nat (subscribeLimit + 1)) (requested options)) ->
               reaches (rooms_after subscribeLimit options) rooms = true) /\
              (In owner_room (firstn (Z.to_nat (subscribeLimit + 1)) (requested options)) ->
               reaches (rooms_after subscribeLimit options) rooms = true) /\
              (requested options = ["assets:new_assets"] -> 0 <= subscribeLimit ->
               (reaches (rooms_after subscribeLimit options) rooms = true <->
                is_action msg "mint" = true))).
  { intros rooms -> limit options Hn Hobj. unfold rooms_after.
    rewrite (subscribe_joined limit options Hn Hobj). parts.
    - intros Hin. apply reaches_In. exists id_room.
      split; [right; left; reflexivity | exact Hin].
    - intros Hin. apply reaches_In. exists owner_room.
      split; [left; reflexivity | exact Hin].
    - intros Hreq Hlimit. rewrite Hreq.
      replace (Z.to_nat (limit + 1)) with (S (Z.to_nat limit)) by lia. simpl firstn.
      rewrite firstn_nil. rewrite reaches_In. split.
      + intros (r & Hr & [<-|[]]).
        destruct Hr as [Hr|[Hr|[Hr|[]]]].
        * subst owner_room. simpl in Hr. discriminate.
        * subst id_room. simpl in Hr. discriminate.
        * destruct (is_action msg "mint"); [reflexivity | discriminate].
      + intros ->. exists "assets:new_assets". split; [right; right; left|left]; reflexivity. }
  unfold on_asset_message. rewrite String.eqb_refl. simpl negb. cbv iota.
  rewrite Hparse, Hdata, Hfind.
  change (prop "owner" (Some (JObj fs))) with (get "owner" fs).
  change (prop "asset_id" (Some (JObj fs))) with (get "asset_id" fs).
  fold owner_room id_room.
  destruct data; try contradiction;
    destruct (is_action msg "mint") eqn:E1;
    try (eexists; split; [reflexivity|]; split;
         [split; [discriminate | intros (H & _); discriminate]|];
         intros rooms event payload [H|[]]; inversion H; subst rooms event payload;
         (split; [reflexivity|]); (split; [apply get_event_asset|]);
         eapply Hsub; rewrite ?E1; reflexivity);
    destruct (is_action msg "burn") eqn:E2;
    try (eexists; split; [reflexivity|]; split;
         [split; [discriminate | intros (_ & H & _); discriminate]|];
         intros rooms event payload [H|[]]; inversion H; subst rooms event payload;
         (split; [reflexivity|]); (split; [apply get_event_asset|]);
         eapply Hsub; rewrite ?E1; reflexivity);
    destruct (is_action msg "back") eqn:E3;
    try (eexists; split; [reflexivity|]; split;
         [split; [discriminate | intros (_ & _ & H & _); discriminate]|];
         intros rooms event payload [H|[]]; inversion H; subst rooms event payload;
         (split; [reflexivity|]); (split; [apply get_event_asset|]);
         eapply Hsub; rewrite ?E1; reflexivity);
    destruct (is_action msg "update") eqn:E4;
    try (eexists; split; [reflexivity|]; split;
         [split; [discriminate | intros (_ & _ & _ & H); discriminate]|];
         intros rooms event payload [H|[]]; inversion H; subst rooms event payload;
         (split; [reflexivity|]); (split; [apply get_event_asset|]);
         eapply Hsub; rewrite ?E1; reflexivity);
    (eexists; split; [reflexivity|]; split; [split; [intros _; auto | reflexivity]|]);
    intros rooms event payload [].
Qed.

End AssetMessageFacts.

Lemma asset_events_reach_their_subscribers_witness :
  exists rooms payload,
    on_asset_message parse_asset_event find_knight (fun _ => "")
      "assets" "assets" "burn" = Some [To rooms "burn" payload] /\
    rooms = ["assets:owner:null"; "assets:asset_id:42"; "assets:updates"] /\
    reaches (rooms_after 5 watch_null) rooms = true /\
    reaches (rooms_after 5 only_new_assets) rooms = false.
Proof.
  destruct (asset_events_reach_their_subscribers parse_asset_event find_knight
              (fun _ => "") "assets" "burn" burned
              (JObj [("asset_id", JStr "42")])
              [("asset_id", JStr "42"); ("owner", JNull)] []
              eq_refl eq_refl ltac:(discriminate) eq_refl)
    as (_ & effects & He & _ & H).
  vm_compute in He. inversion He; subst effects. clear He.
  eexists _, _. split; [reflexivity|].
  destruct (H _ _ _ (or_introl eq_refl)) as (Hrooms & _ & Hs).
  split; [reflexivity|]. split.
  - apply (proj1 (proj2 (Hs 5 watch_null ltac:(discriminate) eq_refl))). left. reflexivity.
  - destruct (Hs 5 only_new_assets ltac:(discriminate) eq_refl) as (_ & _ & H2).
    specialize (H2 eq_refl ltac:(lia)).
    destruct (reaches (rooms_after 5 only_new_assets) _) eqn:E; [|reflexivity].
    destruct H2 as [H2 _]. specialize (H2 eq_refl). vm_compute in H2. discriminate.
Defined.

End AssetEventFacts.
